(** * Geometry management and detector models of Allpix Squared

    A shallow embedding of [core/geometry/DetectorModel.hpp] and of the
    geometry manager ([GeometryManager.cpp]), with the properties of the
    geometry specification proved about it.

    Conventions of the embedding:
    - a C++ [double] is an exact rational ([Q]) wherever the property at hand
      does not depend on rounding; equalities between such lengths are stated
      with [==] (equality of rationals).  The functions whose results the
      rounding decides ([getSupportLayers], [getSize] and what they call) are
      embedded a second time on the binary64 numbers of the machine, in the
      module [Binary64], and the properties of their arithmetic are stated
      there;
    - [int] pixel counts are [Z];
    - [std::map] is a [gmap] whose iteration goes through the keys in
      increasing order ([std_map_items]), [std::set] is a [gset],
      [std::vector] is a [list];
    - [std::shared_ptr<T>] and [T*] are addresses ([ptr]) into a store of
      objects, so that two handles of one object alias; [nullptr] is [None];
    - a member function that can throw returns an [outcome] together with the
      state the object is left in. *)

From Stdlib Require Import ZArith QArith Qminmax Lqa Lia.
From Stdlib Require Import Strings.String Strings.Ascii.
From Stdlib Require Import Floats.
From stdpp Require Import gmap strings list fin_maps sorting.

Local Open Scope string_scope.
Local Open Scope list_scope.
Local Open Scope Q_scope.

(** ** Vectors and points of ROOT::Math *)

(** [ROOT::Math::XYZPoint] and [ROOT::Math::XYZVector]: three doubles.  The
    point/vector distinction of ROOT only restricts which sums are allowed;
    both are the same record here. *)
Record XYZ : Type := mkXYZ { px : Q; py : Q; pz : Q }.

Abbreviation XYZPoint := XYZ (only parsing).
Abbreviation XYZVector := XYZ (only parsing).

(** [ROOT::Math::XYVector] *)
Record XYVector : Type := mkXY { vx : Q; vy : Q }.

(** [DisplacementVector2D<Cartesian2D<int>>] *)
Record XYInt : Type := mkXYInt { ix : Z; iy : Z }.

Definition xyz_add (a b : XYZ) : XYZ :=
  mkXYZ (px a + px b) (py a + py b) (pz a + pz b).
Definition xyz_sub (a b : XYZ) : XYZ :=
  mkXYZ (px a - px b) (py a - py b) (pz a - pz b).
Definition xyz_div (a : XYZ) (k : Q) : XYZ :=
  mkXYZ (px a / k) (py a / k) (pz a / k).
Definition SetX (v : Q) (a : XYZ) : XYZ := mkXYZ v (py a) (pz a).
Definition SetY (v : Q) (a : XYZ) : XYZ := mkXYZ (px a) v (pz a).
Definition SetZ (v : Q) (a : XYZ) : XYZ := mkXYZ (px a) (py a) v.

(** Component-wise equality of rationals. *)
Definition xyz_eq (a b : XYZ) : Prop :=
  px a == px b /\ py a == py b /\ pz a == pz b.

Infix "+v" := xyz_add (at level 50, left associativity).
Infix "-v" := xyz_sub (at level 50, left associativity).
Infix "/s" := xyz_div (at level 40, left associativity).
Infix "=v" := xyz_eq (at level 70, no associativity).

(** The three axes, to state a property once for x, y and z. *)
Inductive axis : Type := AxX | AxY | AxZ.

Definition coord (ax : axis) (a : XYZ) : Q :=
  match ax with AxX => px a | AxY => py a | AxZ => pz a end.

(** [std::numeric_limits<double>::max()] and [lowest()]: the largest finite
    binary64 number, (2 - 2^-52) * 2^1023, and its opposite. *)
Definition dbl_max : Q := inject_Z (2 ^ 1024 - 2 ^ 971).
Definition dbl_lowest : Q := - dbl_max.

(** ** Exceptions *)

Inductive exn : Type :=
| ModuleError (msg : string)
| InvalidModuleActionException (msg : string)
| DetectorModelExistsError (name : string)
| DetectorInvalidNameError (name : string)
| DetectorExistsError (name : string)
| InvalidDetectorError (name : string)
| InvalidModelError (name : string)
| InvalidValueError (key : string) (reason : string)
| MissingKeyError (key : string)
| InvalidKeyError (key : string)
| ConfigParseError (path : string)
| NullPointer.

Inductive outcome (A : Type) : Type :=
| Ok (a : A)
| Throw (e : exn).
Arguments Ok {A} a.
Arguments Throw {A} e.

Definition is_Ok {A} (o : outcome A) : bool :=
  match o with Ok _ => true | Throw _ => false end.

(** Computations that throw but touch no state (constructors, getters). *)
#[global] Instance outcome_ret : MRet outcome := fun _ a => Ok a.
#[global] Instance outcome_bind : MBind outcome := fun _ _ f o =>
  match o with Ok a => f a | Throw e => Throw e end.

(** ** std::map *)

Section std_map.
Context {V : Type}.

Definition key_le (a b : string * V) : Prop :=
  String.leb (fst a) (fst b) = true.

#[local] Instance key_le_dec (a b : string * V) : Decision (key_le a b).
Proof. unfold key_le. apply _. Defined.

(** The elements of a [std::map<std::string, V>] in iteration order. *)
Definition std_map_items (m : gmap string V) : list (string * V) :=
  merge_sort key_le (map_to_list m).
End std_map.

(** ** Conversion of configuration text *)

(** The string-conversion library ([from_string<T>]) is not among the
    sources: the conversions the geometry code asks for are parameters. *)
Class FromString : Type := {
  as_string : string -> option string;
  as_double : string -> option Q;
  as_XYVector : string -> option XYVector;
  as_XYZVector : string -> option XYZVector;
  as_XYInt : string -> option XYInt
}.

(** [::tolower] on one character (C locale) and [std::transform] of it over
    a string. *)
Definition tolower_ascii (c : ascii) : ascii :=
  let n := nat_of_ascii c in
  if ((65 <=? n)%nat && (n <=? 90)%nat)%bool then ascii_of_nat (n + 32) else c.

Fixpoint tolower (s : string) : string :=
  match s with
  | EmptyString => EmptyString
  | String c rest => String (tolower_ascii c) (tolower rest)
  end.

(** ** Configuration *)

(** [src/core/config/Configuration.hpp].  Only the header is among the
    sources: every operation follows its declaration and documentation there;
    the conversion of the stored text to a typed value ([get<T>], defined in
    the string-conversion library) is the parameter [conv] of each getter. *)
Module Configuration.

Record t : Type := mk {
  name_ : string;
  path_ : string;
  config_ : gmap string string
}.

(** [Configuration(std::string name = "", std::string path = "")] *)
Definition new (name : string) : t := mk name "" ∅.

Definition has (key : string) (c : t) : bool :=
  bool_decide (is_Some (config_ c !! key)).

(** [get<T>(key)]: the key must exist and its text must convert. *)
Definition get {T} (conv : string -> option T) (key : string) (c : t)
  : outcome T :=
  match config_ c !! key with
  | None => Throw (MissingKeyError key)
  | Some txt =>
      match conv txt with
      | Some v => Ok v
      | None => Throw (InvalidKeyError key)
      end
  end.

(** [get<T>(key, def)]: the default only replaces a missing key. *)
Definition get_def {T} (conv : string -> option T) (key : string) (def : T)
    (c : t) : outcome T :=
  if has key c then get conv key c else Ok def.

Definition setText (key val : string) (c : t) : t :=
  mk (name_ c) (path_ c) (<[key := val]> (config_ c)).

Definition countSettings (c : t) : nat := size (config_ c).

Definition getName (c : t) : string := name_ c.

(** "Merge other configuration, only adding keys that are not yet defined
    in this configuration". *)
Definition merge (other : t) (c : t) : t :=
  mk (name_ c) (path_ c) (config_ c ∪ config_ other).

Definition getAll (c : t) : list (string * string) :=
  std_map_items (config_ c).

End Configuration.

(** ** ConfigReader *)

(** Modelled from the spec: [ConfigReader] ([core/config/ConfigReader.hpp] is
    not among the sources).  A reader is the list of its sections in the order
    they were added; the header configuration is the merge of the sections
    without a name, an earlier section taking precedence over a later one
    ("overlay keys take precedence, then the original model's sections"). *)
Module ConfigReader.

Definition t : Type := list Configuration.t.

Definition new : t := [].

Definition addConfiguration (c : Configuration.t) (r : t) : t := r ++ [c].

(** [getConfigurations()] *)
Definition getConfigurations (r : t) : list Configuration.t := r.

(** [getConfigurations(name)] *)
Definition getConfigurationsNamed (name : string) (r : t)
  : list Configuration.t :=
  List.filter (fun c => String.eqb (Configuration.getName c) name) r.

Definition getHeaderConfiguration (r : t) : Configuration.t :=
  match getConfigurationsNamed "" r with
  | [] => Configuration.new ""
  | c0 :: rest =>
      fold_left (fun h c => Configuration.merge c h) (c0 :: rest) c0
  end.

End ConfigReader.

(** ** Support layers *)

Module SupportLayer.

Record t : Type := mk {
  (* Actual parameters returned *)
  center_ : XYZPoint;
  size_ : XYZVector;
  material_ : string;
  hole_size_ : XYZVector;
  (* Internal parameters to calculate return parameters *)
  offset_ : XYZVector;
  hole_offset_ : XYVector;
  location_ : string
}.

(** The private constructor: [center_] is default-constructed. *)
Definition new (size offset : XYZVector) (material location : string)
    (hole_size : XYZVector) (hole_offset : XYVector) : t :=
  mk (mkXYZ 0 0 0) size material hole_size offset hole_offset location.

Definition getCenter (l : t) : XYZPoint := center_ l.
Definition getSize (l : t) : XYZVector := size_ l.
Definition getMaterial (l : t) : string := material_ l.

(** [hole_size_.x() > 1e-9 && hole_size_.y() > 1e-9]: the literal is the
    double nearest to 10^-9, which is 4835703278458517 / 2^82. *)
Definition hasHole (l : t) : bool :=
  match (4835703278458517 # 4835703278458516698824704) ?= px (hole_size_ l),
        (4835703278458517 # 4835703278458516698824704) ?= py (hole_size_ l)
  with
  | Lt, Lt => true
  | _, _ => false
  end.

Definition getHoleCenter (l : t) : XYZPoint :=
  center_ l +v mkXYZ (vx (hole_offset_ l)) (vy (hole_offset_ l)) 0.

Definition getHoleSize (l : t) : XYZVector := hole_size_ l.

Definition set_center (c : XYZPoint) (l : t) : t :=
  mk c (size_ l) (material_ l) (hole_size_ l) (offset_ l) (hole_offset_ l)
     (location_ l).

End SupportLayer.

(** ** Detector models *)

(** In this module a length is an exact rational: the functions are the
    arithmetic of the source without its rounding.  [Binary64.DetectorModel]
    below has the same functions with the rounding. *)

(** [std::array<double, 4>] with its accessor [at]. *)
Record array4 : Type := mkArray4 { a0 : Q; a1 : Q; a2 : Q; a3 : Q }.

Definition at4 (a : array4) (i : nat) : Q :=
  match i with
  | O => a0 a
  | 1%nat => a1 a
  | 2%nat => a2 a
  | _ => a3 a
  end.

Definition set4 (i : nat) (v : Q) (a : array4) : array4 :=
  match i with
  | O => mkArray4 v (a1 a) (a2 a) (a3 a)
  | 1%nat => mkArray4 (a0 a) v (a2 a) (a3 a)
  | 2%nat => mkArray4 (a0 a) (a1 a) v (a3 a)
  | _ => mkArray4 (a0 a) (a1 a) (a2 a) v
  end.

Module DetectorModel.

Record t : Type := mk {
  type_ : string;
  number_of_pixels_ : XYInt;
  pixel_size_ : XYVector;
  sensor_thickness_ : Q;
  sensor_excess_ : array4;
  chip_thickness_ : Q;
  support_layers_ : list SupportLayer.t;
  reader_ : ConfigReader.t
}.

Definition getType (m : t) : string := type_ m.

(* PIXEL GRID *)
Definition getNPixels (m : t) : XYInt := number_of_pixels_ m.
Definition getPixelSize (m : t) : XYVector := pixel_size_ m.

Definition getGridSize (m : t) : XYZVector :=
  mkXYZ (inject_Z (ix (getNPixels m)) * vx (getPixelSize m))
        (inject_Z (iy (getNPixels m)) * vy (getPixelSize m)) 0.

Definition getCenter (m : t) : XYZPoint :=
  mkXYZ (px (getGridSize m) / 2 - vx (getPixelSize m) / 2)
        (py (getGridSize m) / 2 - vy (getPixelSize m) / 2) 0.

(* SENSOR *)
Definition getSensorSize (m : t) : XYZVector :=
  let excess_thickness :=
    mkXYZ (at4 (sensor_excess_ m) 1 + at4 (sensor_excess_ m) 3)
          (at4 (sensor_excess_ m) 0 + at4 (sensor_excess_ m) 2)
          (sensor_thickness_ m) in
  getGridSize m +v excess_thickness.

Definition getSensorCenter (m : t) : XYZPoint :=
  let offset :=
    mkXYZ ((at4 (sensor_excess_ m) 1 - at4 (sensor_excess_ m) 3) / 2)
          ((at4 (sensor_excess_ m) 0 - at4 (sensor_excess_ m) 2) / 2) 0 in
  getCenter m +v offset.

(* CHIP *)
Definition getChipSize (m : t) : XYZVector :=
  let excess_thickness :=
    mkXYZ (at4 (sensor_excess_ m) 1 + at4 (sensor_excess_ m) 3)
          (at4 (sensor_excess_ m) 0 + at4 (sensor_excess_ m) 2)
          (chip_thickness_ m) in
  getGridSize m +v excess_thickness.

Definition getChipCenter (m : t) : XYZPoint :=
  let offset :=
    mkXYZ ((at4 (sensor_excess_ m) 1 - at4 (sensor_excess_ m) 3) / 2)
          ((at4 (sensor_excess_ m) 0 - at4 (sensor_excess_ m) 2) / 2)
          (pz (getSensorSize m) / 2 + pz (getChipSize m) / 2) in
  getCenter m +v offset.

(* SUPPORT *)

(** The body of the loop of [getSupportLayers]: the two running offsets
    are threaded through, the layer gets its center. *)
Definition place_layer (center : XYZPoint) (offsets : Q * Q)
    (layer : SupportLayer.t) : (Q * Q) * SupportLayer.t :=
  let '(sensor_offset, chip_offset) := offsets in
  let offset := SupportLayer.offset_ layer in
  let thickness := pz (SupportLayer.size_ layer) in
  if String.eqb (SupportLayer.location_ layer) "sensor" then
    ((sensor_offset - thickness, chip_offset),
     SupportLayer.set_center
       (center +v SetZ (sensor_offset - thickness / 2) offset) layer)
  else if String.eqb (SupportLayer.location_ layer) "chip" then
    ((sensor_offset, chip_offset + thickness),
     SupportLayer.set_center
       (center +v SetZ (chip_offset + thickness / 2) offset) layer)
  else
    ((sensor_offset, chip_offset),
     SupportLayer.set_center (center +v offset) layer).

Fixpoint place_layers (center : XYZPoint) (offsets : Q * Q)
    (layers : list SupportLayer.t) : list SupportLayer.t :=
  match layers with
  | [] => []
  | layer :: rest =>
      let '(offsets', layer') := place_layer center offsets layer in
      layer' :: place_layers center offsets' rest
  end.

Definition getSupportLayers (m : t) : list SupportLayer.t :=
  let sensor_offset := (- pz (getSensorSize m)) / 2 in
  let chip_offset := pz (getSensorSize m) / 2 + pz (getChipSize m) in
  place_layers (getCenter m) (sensor_offset, chip_offset)
               (support_layers_ m).

(** One step of the min/max tracking of [getSize]: a part with the given
    center and size widens the pair [(max, min)]. *)
Definition track (acc : XYZVector * XYZVector) (center : XYZPoint)
    (size : XYZVector) : XYZVector * XYZVector :=
  let '(max, min) := acc in
  (mkXYZ (Qmax (px max) (px (center +v size /s 2)))
         (Qmax (py max) (py (center +v size /s 2)))
         (Qmax (pz max) (pz (center +v size /s 2))),
   mkXYZ (Qmin (px min) (px (center -v size /s 2)))
         (Qmin (py min) (py (center -v size /s 2)))
         (Qmin (pz min) (pz (center -v size /s 2)))).

(** The pair [(max, min)] of [getSize] after its two loops. *)
Definition extent (m : t) : XYZVector * XYZVector :=
  let max := mkXYZ dbl_lowest dbl_lowest dbl_lowest in
  let min := mkXYZ dbl_max dbl_max dbl_max in
  let centers := [getSensorCenter m; getChipCenter m] in
  let sizes := [getSensorSize m; getChipSize m] in
  let acc :=
    fold_left (fun acc cs => track acc (fst cs) (snd cs))
              (combine centers sizes) (max, min) in
  fold_left (fun acc support_layer =>
               track acc (SupportLayer.getCenter support_layer)
                         (SupportLayer.getSize support_layer))
            (getSupportLayers m) acc.

Definition getSize (m : t) : XYZVector :=
  let '(max, min) := extent m in
  mkXYZ (2 * Qmax (px max - px (getCenter m)) (px (getCenter m) - px min))
        (2 * Qmax (py max - py (getCenter m)) (py (getCenter m) - py min))
        (2 * Qmax (pz max - pz (getCenter m)) (pz (getCenter m) - pz min)).

Definition set_support_layers (ls : list SupportLayer.t) (m : t) : t :=
  mk (type_ m) (number_of_pixels_ m) (pixel_size_ m) (sensor_thickness_ m)
     (sensor_excess_ m) (chip_thickness_ m) ls (reader_ m).

Definition addSupportLayer (size : XYVector) (thickness : Q)
    (offset : XYZVector) (material location : string)
    (hole_size : XYVector) (hole_offset : XYVector) (m : t) : t :=
  let full_size := mkXYZ (vx size) (vy size) thickness in
  let full_hole_size := mkXYZ (vx hole_size) (vy hole_size) thickness in
  set_support_layers
    (support_layers_ m ++
     [SupportLayer.new full_size offset material location full_hole_size
                       hole_offset]) m.

(** The constructor.  It reads the header of [reader] and every section
    named "support"; a missing or unreadable key throws. *)
Section constructor.
Context {conv : FromString}.

Definition read_support (support_config : Configuration.t) (m : t)
  : outcome t :=
  thickness ← Configuration.get as_double "thickness" support_config;
  size ← Configuration.get as_XYVector "size" support_config;
  location ←
    Configuration.get_def as_string "location" "chip" support_config;
  let location := tolower location in
  if (negb (String.eqb location "sensor") &&
      negb (String.eqb location "chip") &&
      negb (String.eqb location "absolute"))%bool
  then Throw (InvalidValueError "location"
         "location of the support should be 'chip', 'sensor' or 'absolute'")
  else
    offset ←
      (if String.eqb location "absolute"
       then Configuration.get as_XYZVector "offset" support_config
       else
         xy_offset ← Configuration.get_def as_XYVector "offset"
                       (mkXY 0 0) support_config;
         mret (mkXYZ (vx xy_offset) (vy xy_offset) 0));
    material ←
      Configuration.get_def as_string "material" "g10" support_config;
    let material := tolower material in
    hole_size ← Configuration.get_def as_XYVector "hole_size" (mkXY 0 0)
                  support_config;
    hole_offset ← Configuration.get_def as_XYVector "hole_offset"
                    (mkXY 0 0) support_config;
    mret (addSupportLayer size thickness offset material location
                          hole_size hole_offset m).

Fixpoint read_supports (configs : list Configuration.t) (m : t)
  : outcome t :=
  match configs with
  | [] => mret m
  | support_config :: rest =>
      m' ← read_support support_config m;
      read_supports rest m'
  end.

Definition new (type : string) (reader : ConfigReader.t) : outcome t :=
  let config := ConfigReader.getHeaderConfiguration reader in
  number_of_pixels ← Configuration.get as_XYInt "number_of_pixels" config;
  pixel_size ← Configuration.get as_XYVector "pixel_size" config;
  sensor_thickness ← Configuration.get as_double "sensor_thickness" config;
  default_sensor_excess ←
    Configuration.get_def as_double "sensor_excess" 0 config;
  top ← Configuration.get_def as_double "sensor_excess_top"
          default_sensor_excess config;
  bottom ← Configuration.get_def as_double "sensor_excess_bottom"
             default_sensor_excess config;
  left ← Configuration.get_def as_double "sensor_excess_left"
           default_sensor_excess config;
  right ← Configuration.get_def as_double "sensor_excess_right"
            default_sensor_excess config;
  chip_thickness ← Configuration.get_def as_double "chip_thickness" 0 config;
  let sensor_excess :=
    set4 1 right (set4 3 left (set4 2 bottom (set4 0 top
      (mkArray4 0 0 0 0)))) in
  read_supports (ConfigReader.getConfigurationsNamed "support" reader)
    (mk type number_of_pixels pixel_size sensor_thickness sensor_excess
        chip_thickness [] reader).
End constructor.

(** [getConfigurations]: the header merged with every section without a
    name comes first, the named sections follow in their order. *)
Definition getConfigurations (m : t) : list Configuration.t :=
  let global_config_ := ConfigReader.getHeaderConfiguration (reader_ m) in
  let '(global_config_, configurations) :=
    fold_left
      (fun acc config =>
         if String.eqb (Configuration.getName config) ""
         then (Configuration.merge config (fst acc), snd acc)
         else (fst acc, snd acc ++ [config]))
      (ConfigReader.getConfigurations (reader_ m)) (global_config_, []) in
  global_config_ :: configurations.

End DetectorModel.

(** ** The same geometry in double arithmetic

    The module [DetectorModel] above reads a [double] as an exact rational.
    That is the code as long as nothing depends on rounding.  The functions
    whose results do depend on it are embedded once more here, on the
    binary64 numbers of the machine ([PrimFloat.float]): every [+], [-], [*]
    and [/] of the source is the rounded operation, [std::max] and
    [std::min] are the comparisons of the source. *)
Module Binary64.

Local Open Scope float_scope.

(** [std::max(a, b)] is [(a < b) ? b : a], [std::min(a, b)] is
    [(b < a) ? b : a]. *)
Definition fmax (a b : float) : float := if (a <? b)%float then b else a.
Definition fmin (a b : float) : float := if (b <? a)%float then b else a.

(** [std::numeric_limits<double>::max()] and [lowest()]. *)
Definition dbl_max : float := 0x1.fffffffffffffp+1023%float.
Definition dbl_lowest : float := (- dbl_max)%float.

(** An [int] converted to [double]. *)
Definition of_int (z : Z) : float :=
  match z with
  | Z0 => 0%float
  | Zpos _ => of_uint63 (Uint63.of_Z z)
  | Zneg p => (- of_uint63 (Uint63.of_Z (Zpos p)))%float
  end.

Record XYZ : Type := mkXYZ { px : float; py : float; pz : float }.
Record XYVector : Type := mkXY { vx : float; vy : float }.

Definition xyz_add (a b : XYZ) : XYZ :=
  mkXYZ (px a + px b) (py a + py b) (pz a + pz b).
Definition xyz_sub (a b : XYZ) : XYZ :=
  mkXYZ (px a - px b) (py a - py b) (pz a - pz b).
(** [v / a]: each coordinate divided by [a] (for [a = 2.0] this is the
    same double as the coordinate times [1 / a], whichever of the two the
    vector class computes). *)
Definition xyz_div (v : XYZ) (a : float) : XYZ :=
  mkXYZ (px v / a) (py v / a) (pz v / a).
Definition SetZ (z : float) (p : XYZ) : XYZ := mkXYZ (px p) (py p) z.

Definition coord (ax : axis) (p : XYZ) : float :=
  match ax with AxX => px p | AxY => py p | AxZ => pz p end.

Module SupportLayer.

Record t : Type := mk {
  center_ : XYZ;
  size_ : XYZ;
  material_ : string;
  hole_size_ : XYZ;
  offset_ : XYZ;
  hole_offset_ : XYVector;
  location_ : string
}.

Definition getCenter (l : t) : XYZ := center_ l.
Definition getSize (l : t) : XYZ := size_ l.

Definition set_center (c : XYZ) (l : t) : t :=
  mk c (size_ l) (material_ l) (hole_size_ l) (offset_ l) (hole_offset_ l)
     (location_ l).

End SupportLayer.

(** [std::array<double, 4>] with its accessor [at]. *)
Record array4 : Type :=
  mkArray4 { a0 : float; a1 : float; a2 : float; a3 : float }.

Definition at4 (a : array4) (i : nat) : float :=
  match i with
  | O => a0 a
  | 1%nat => a1 a
  | 2%nat => a2 a
  | _ => a3 a
  end.

Module DetectorModel.

Record t : Type := mk {
  type_ : string;
  number_of_pixels_ : XYInt;
  pixel_size_ : XYVector;
  sensor_thickness_ : float;
  sensor_excess_ : array4;
  chip_thickness_ : float;
  support_layers_ : list SupportLayer.t
}.

Definition getNPixels (m : t) : XYInt := number_of_pixels_ m.
Definition getPixelSize (m : t) : XYVector := pixel_size_ m.

Definition getGridSize (m : t) : XYZ :=
  mkXYZ (of_int (ix (getNPixels m)) * vx (getPixelSize m))
        (of_int (iy (getNPixels m)) * vy (getPixelSize m)) 0.

Definition getCenter (m : t) : XYZ :=
  mkXYZ (px (getGridSize m) / 2 - vx (getPixelSize m) / 2)
        (py (getGridSize m) / 2 - vy (getPixelSize m) / 2) 0.

Definition getSensorSize (m : t) : XYZ :=
  let excess_thickness :=
    mkXYZ (at4 (sensor_excess_ m) 1 + at4 (sensor_excess_ m) 3)
          (at4 (sensor_excess_ m) 0 + at4 (sensor_excess_ m) 2)
          (sensor_thickness_ m) in
  xyz_add (getGridSize m) excess_thickness.

Definition getSensorCenter (m : t) : XYZ :=
  let offset :=
    mkXYZ ((at4 (sensor_excess_ m) 1 - at4 (sensor_excess_ m) 3) / 2)
          ((at4 (sensor_excess_ m) 0 - at4 (sensor_excess_ m) 2) / 2) 0 in
  xyz_add (getCenter m) offset.

Definition getChipSize (m : t) : XYZ :=
  let excess_thickness :=
    mkXYZ (at4 (sensor_excess_ m) 1 + at4 (sensor_excess_ m) 3)
          (at4 (sensor_excess_ m) 0 + at4 (sensor_excess_ m) 2)
          (chip_thickness_ m) in
  xyz_add (getGridSize m) excess_thickness.

Definition getChipCenter (m : t) : XYZ :=
  let offset :=
    mkXYZ ((at4 (sensor_excess_ m) 1 - at4 (sensor_excess_ m) 3) / 2)
          ((at4 (sensor_excess_ m) 0 - at4 (sensor_excess_ m) 2) / 2)
          (pz (getSensorSize m) / 2 + pz (getChipSize m) / 2) in
  xyz_add (getCenter m) offset.

(** The body of the loop of [getSupportLayers]. *)
Definition place_layer (center : XYZ) (offsets : float * float)
    (layer : SupportLayer.t) : (float * float) * SupportLayer.t :=
  let '(sensor_offset, chip_offset) := offsets in
  let offset := SupportLayer.offset_ layer in
  let thickness := pz (SupportLayer.size_ layer) in
  if String.eqb (SupportLayer.location_ layer) "sensor" then
    ((sensor_offset - thickness, chip_offset),
     SupportLayer.set_center
       (xyz_add center (SetZ (sensor_offset - thickness / 2) offset)) layer)
  else if String.eqb (SupportLayer.location_ layer) "chip" then
    ((sensor_offset, chip_offset + thickness),
     SupportLayer.set_center
       (xyz_add center (SetZ (chip_offset + thickness / 2) offset)) layer)
  else
    ((sensor_offset, chip_offset),
     SupportLayer.set_center (xyz_add center offset) layer).

Fixpoint place_layers (center : XYZ) (offsets : float * float)
    (layers : list SupportLayer.t) : list SupportLayer.t :=
  match layers with
  | [] => []
  | layer :: rest =>
      let '(offsets', layer') := place_layer center offsets layer in
      layer' :: place_layers center offsets' rest
  end.

Definition getSupportLayers (m : t) : list SupportLayer.t :=
  let sensor_offset := (- pz (getSensorSize m) / 2)%float in
  let chip_offset := (pz (getSensorSize m) / 2 + pz (getChipSize m))%float in
  place_layers (getCenter m) (sensor_offset, chip_offset) (support_layers_ m).

(** One step of the two loops of [getSize]. *)
Definition track (acc : XYZ * XYZ) (center size : XYZ) : XYZ * XYZ :=
  let '(max, min) := acc in
  let upper := xyz_add center (xyz_div size 2) in
  let lower := xyz_sub center (xyz_div size 2) in
  (mkXYZ (fmax (px max) (px upper)) (fmax (py max) (py upper))
         (fmax (pz max) (pz upper)),
   mkXYZ (fmin (px min) (px lower)) (fmin (py min) (py lower))
         (fmin (pz min) (pz lower))).

Definition extent (m : t) : XYZ * XYZ :=
  let max := mkXYZ dbl_lowest dbl_lowest dbl_lowest in
  let min := mkXYZ dbl_max dbl_max dbl_max in
  let centers := [getSensorCenter m; getChipCenter m] in
  let sizes := [getSensorSize m; getChipSize m] in
  let acc :=
    fold_left (fun acc cs => track acc (fst cs) (snd cs))
              (combine centers sizes) (max, min) in
  fold_left (fun acc support_layer =>
               track acc (SupportLayer.getCenter support_layer)
                         (SupportLayer.getSize support_layer))
            (getSupportLayers m) acc.

Definition getSize (m : t) : XYZ :=
  let '(max, min) := extent m in
  mkXYZ (2 * fmax (px max - px (getCenter m)) (px (getCenter m) - px min))
        (2 * fmax (py max - py (getCenter m)) (py (getCenter m) - py min))
        (2 * fmax (pz max - pz (getCenter m)) (pz (getCenter m) - pz min)).

End DetectorModel.

End Binary64.

(** ** Objects and addresses *)

(** An address of the store; what a [std::shared_ptr] or a raw pointer
    holds. *)
Definition ptr : Type := nat.

(** The dynamic type of a model object.  [parse_config] only creates the two
    derived classes; the base class has a public constructor as well. *)
Inductive ModelKind : Type := Base | Hybrid | Monolithic.

(** Modelled from the spec: the derived classes [HybridPixelDetectorModel] and
    [MonolithicPixelDetectorModel] (their headers are not among the sources).
    They "override only the subset of placement rules that differ": what
    their constructors do after the base constructor (it may throw) and the
    virtual [getCenter] and [getSize] they answer with are parameters, each
    a function of the base object, which holds the reader the extra
    parameters are read from. *)
Class DerivedModels : Type := {
  derived_init : ModelKind -> ConfigReader.t -> outcome unit;
  derived_getCenter : ModelKind -> DetectorModel.t -> XYZPoint;
  derived_getSize : ModelKind -> DetectorModel.t -> XYZVector
}.

Module ModelObject.

Record t : Type := mk { kind : ModelKind; base : DetectorModel.t }.

Section virtual.
Context {derived : DerivedModels}.

(** Virtual dispatch of [getCenter] and [getSize]. *)
Definition getCenter (o : t) : XYZPoint :=
  match kind o with
  | Base => DetectorModel.getCenter (base o)
  | k => derived_getCenter k (base o)
  end.

Definition getSize (o : t) : XYZVector :=
  match kind o with
  | Base => DetectorModel.getSize (base o)
  | k => derived_getSize k (base o)
  end.
End virtual.

Definition getType (o : t) : string := DetectorModel.getType (base o).

End ModelObject.

(** [ROOT::Math::Rotation3D]: a 3x3 matrix, row by row. *)
Record Rotation3D : Type := mkRotation3D {
  xx : Q; xy : Q; xz : Q;
  yx : Q; yy : Q; yz : Q;
  zx : Q; zy : Q; zz : Q
}.

Definition rotate (r : Rotation3D) (p : XYZ) : XYZ :=
  mkXYZ (xx r * px p + xy r * py p + xz r * pz p)
        (yx r * px p + yy r * py p + yz r * pz p)
        (zx r * px p + zy r * py p + zz r * pz p).

Definition identity_rotation : Rotation3D :=
  mkRotation3D 1 0 0 0 1 0 0 0 1.

(** Modelled from the spec: [Detector] ([core/geometry/Detector.hpp] is not
    among the sources): "unique name; global position (point); global
    orientation (rotation); reference to its resolved DetectorModel (set
    exactly once, after geometry closing)", and [getGlobalPosition]: "apply
    orientation rotation then position translation". *)
Module Detector.

Record t : Type := mk {
  name_ : string;
  position_ : XYZPoint;
  orientation_ : Rotation3D;
  model_ : option ptr
}.

(** The private constructor used by the manager: no model yet. *)
Definition new (name : string) (position : XYZPoint)
    (orientation : Rotation3D) : t :=
  mk name position orientation None.

Definition getName (d : t) : string := name_ d.
Definition getPosition (d : t) : XYZPoint := position_ d.
Definition getOrientation (d : t) : Rotation3D := orientation_ d.
Definition getModel (d : t) : option ptr := model_ d.

Definition set_model (model : ptr) (d : t) : t :=
  mk (name_ d) (position_ d) (orientation_ d) (Some model).

Definition getGlobalPosition (local_pos : XYZPoint) (d : t) : XYZPoint :=
  rotate (orientation_ d) local_pos +v position_ d.

End Detector.

(** ** The geometry manager *)

Module GeometryManager.

(** The member variables. *)
Record t : Type := mk {
  closed_ : bool;
  points_ : list XYZPoint;
  model_paths_ : list string;
  models_ : list ptr;
  model_names_ : gset string;
  nonresolved_models_ : gmap string (list (Configuration.t * ptr));
  detectors_ : list ptr;
  detector_names_ : gset string
}.

(** [GeometryManager::GeometryManager() : closed_{false}] *)
Definition new : t := mk false [] [] [] ∅ ∅ [] ∅.

Definition set_closed (b : bool) (g : t) : t :=
  mk b (points_ g) (model_paths_ g) (models_ g) (model_names_ g)
     (nonresolved_models_ g) (detectors_ g) (detector_names_ g).
Definition set_points (ps : list XYZPoint) (g : t) : t :=
  mk (closed_ g) ps (model_paths_ g) (models_ g) (model_names_ g)
     (nonresolved_models_ g) (detectors_ g) (detector_names_ g).
Definition set_model_paths (ps : list string) (g : t) : t :=
  mk (closed_ g) (points_ g) ps (models_ g) (model_names_ g)
     (nonresolved_models_ g) (detectors_ g) (detector_names_ g).
Definition set_models (ms : list ptr) (names : gset string) (g : t) : t :=
  mk (closed_ g) (points_ g) (model_paths_ g) ms names
     (nonresolved_models_ g) (detectors_ g) (detector_names_ g).
Definition set_nonresolved_models
    (nr : gmap string (list (Configuration.t * ptr))) (g : t) : t :=
  mk (closed_ g) (points_ g) (model_paths_ g) (models_ g) (model_names_ g)
     nr (detectors_ g) (detector_names_ g).
Definition set_detectors (ds : list ptr) (names : gset string) (g : t) : t :=
  mk (closed_ g) (points_ g) (model_paths_ g) (models_ g) (model_names_ g)
     (nonresolved_models_ g) ds names.

End GeometryManager.

(** The state a member function of the manager runs in: the manager and the
    objects its pointers refer to. *)
Record World : Type := mkWorld {
  model_store : gmap ptr ModelObject.t;
  detector_store : gmap ptr Detector.t;
  geo : GeometryManager.t
}.

Definition empty_world : World := mkWorld ∅ ∅ GeometryManager.new.

(** A member function: it returns or throws, and leaves a state. *)
Definition M (A : Type) : Type := World -> outcome A * World.

#[global] Instance M_ret : MRet M := fun _ a w => (Ok a, w).
#[global] Instance M_bind : MBind M := fun _ _ f c w =>
  match c w with
  | (Ok a, w') => f a w'
  | (Throw e, w') => (Throw e, w')
  end.

Definition throw {A} (e : exn) : M A := fun w => (Throw e, w).
Definition lift {A} (o : outcome A) : M A := fun w => (o, w).
Definition get_geo : M GeometryManager.t := fun w => (Ok (geo w), w).
Definition modify_geo (f : GeometryManager.t -> GeometryManager.t) : M unit :=
  fun w => (Ok tt, mkWorld (model_store w) (detector_store w) (f (geo w))).

(** Dereferencing: an address without an object behind it does not occur
    with shared pointers; it is reported like a null pointer. *)
Definition deref_model (p : ptr) : M ModelObject.t := fun w =>
  match model_store w !! p with
  | Some o => (Ok o, w)
  | None => (Throw NullPointer, w)
  end.
Definition deref_detector (p : ptr) : M Detector.t := fun w =>
  match detector_store w !! p with
  | Some d => (Ok d, w)
  | None => (Throw NullPointer, w)
  end.

(** [std::make_shared] and [new]: the object gets an address no object
    has. *)
Definition alloc_model (o : ModelObject.t) : M ptr := fun w =>
  let p := fresh (dom (model_store w)) in
  (Ok p, mkWorld (<[p := o]> (model_store w)) (detector_store w) (geo w)).
Definition alloc_detector (d : Detector.t) : M ptr := fun w =>
  let p := fresh (dom (detector_store w)) in
  (Ok p, mkWorld (model_store w) (<[p := d]> (detector_store w)) (geo w)).

(** [detector->set_model(model)] through a pointer. *)
Definition set_model (detector : ptr) (model : ptr) : M unit := fun w =>
  match detector_store w !! detector with
  | Some d =>
      (Ok tt, mkWorld (model_store w)
                (<[detector := Detector.set_model model d]> (detector_store w))
                (geo w))
  | None => (Throw NullPointer, w)
  end.

(** A range-based [for] whose body can throw. *)
Fixpoint for_each {A} (l : list A) (body : A -> M unit) : M unit :=
  match l with
  | [] => mret tt
  | a :: rest => body a;; for_each rest body
  end.

(** The file system as [load_models] sees it ([core/utils/file.h] is not
    among the sources), the constructor [ConfigReader(file, path)], which
    parses a file, and the build constant [ALLPIX_MODEL_SUFFIX]. *)
Class FileSystem : Type := {
  path_is_directory : string -> bool;
  get_files_in_directory : string -> list string;
  get_file_name_extension : string -> string * string;
  read_config : string -> outcome ConfigReader.t;
  ALLPIX_MODEL_SUFFIX : string
}.

Section member_functions.
Context {conv : FromString} {derived : DerivedModels} {fs : FileSystem}.

Import GeometryManager.

Definition closed_msg : string :=
  "Geometry is already closed before adding detector".

Definition addPoint (point : XYZPoint) : M unit :=
  g ← get_geo;
  if closed_ g then throw (ModuleError closed_msg)
  else modify_geo (fun g => set_points (points_ g ++ [point]) g).

Definition addModel (model : option ptr) : M unit :=
  g ← get_geo;
  if closed_ g then throw (ModuleError closed_msg)
  else
    match model with
    | None =>
        throw (InvalidModuleActionException
                 "Added model cannot be a null pointer")
    | Some p =>
        o ← deref_model p;
        if bool_decide (ModelObject.getType o ∈ model_names_ g)
        then throw (DetectorModelExistsError (ModelObject.getType o))
        else modify_geo (fun g =>
               set_models (models_ g ++ [p])
                          ({[ModelObject.getType o]} ∪ model_names_ g) g)
    end.

Definition needsModel (name : string) : M bool :=
  g ← get_geo;
  mret (bool_decide (is_Some (nonresolved_models_ g !! name))).

Definition hasModel (name : string) : M bool :=
  g ← get_geo;
  mret (bool_decide (name ∈ model_names_ g)).

(** [getModels() const] *)
Definition getModels : M (list ptr) :=
  g ← get_geo;
  mret (models_ g).

(** The linear search of [getModel] and [getDetector]. *)
Fixpoint find_model (name : string) (models : list ptr) : M (option ptr) :=
  match models with
  | [] => mret None
  | model :: rest =>
      o ← deref_model model;
      if String.eqb (ModelObject.getType o) name then mret (Some model)
      else find_model name rest
  end.

Definition getModel (name : string) : M ptr :=
  g ← get_geo;
  found ← find_model name (models_ g);
  match found with
  | Some model => mret model
  | None => throw (InvalidModelError name)
  end.

Definition addDetector (detector : option ptr) : M unit :=
  g ← get_geo;
  if closed_ g then throw (ModuleError closed_msg)
  else
    match detector with
    | None =>
        throw (InvalidModuleActionException
                 "Added detector cannot be a null pointer")
    | Some p =>
        d ← deref_detector p;
        if String.eqb (Detector.getName d) "global"
        then throw (DetectorInvalidNameError (Detector.getName d))
        else if bool_decide (Detector.getName d ∈ detector_names_ g)
        then throw (DetectorExistsError (Detector.getName d))
        else modify_geo (fun g =>
               set_detectors (detectors_ g ++ [p])
                             ({[Detector.getName d]} ∪ detector_names_ g) g)
    end.

Definition hasDetector (name : string) : M bool :=
  g ← get_geo;
  mret (bool_decide (name ∈ detector_names_ g)).

(** [parse_config]: the header must name one of the two derived classes;
    the object is created with [std::make_shared]. *)
Definition make_model (kind : ModelKind) (name : string)
    (reader : ConfigReader.t) : M ptr :=
  m ← lift (DetectorModel.new name reader);
  lift (derived_init kind reader);;
  alloc_model (ModelObject.mk kind m).

Definition parse_config (name : string) (reader : ConfigReader.t) : M ptr :=
  let config := ConfigReader.getHeaderConfiguration reader in
  type ← lift (Configuration.get as_string "type" config);
  if String.eqb type "hybrid" then make_model Hybrid name reader
  else if String.eqb type "monolithic" then make_model Monolithic name reader
  else throw (InvalidValueError "type" "model type is not supported").

(** The first loop of [load_models]: one reader per model file found
    under the paths. *)
Fixpoint read_directory (sub_paths : list string)
  : outcome (list (string * ConfigReader.t)) :=
  match sub_paths with
  | [] => mret []
  | sub_path :: rest =>
      let name_ext := get_file_name_extension sub_path in
      if negb (String.eqb (snd name_ext) ALLPIX_MODEL_SUFFIX)
      then read_directory rest
      else
        reader ← read_config sub_path;
        readers ← read_directory rest;
        mret ((fst name_ext, reader) :: readers)
  end.

Fixpoint read_models (paths : list string)
  : outcome (list (string * ConfigReader.t)) :=
  match paths with
  | [] => mret []
  | path :: rest =>
      found ←
        (if path_is_directory path
         then read_directory (get_files_in_directory path)
         else
           reader ← read_config path;
           mret [(fst (get_file_name_extension path), reader)]);
      readers ← read_models rest;
      mret (found ++ readers)
  end.

(** The body of the second loop of [load_models]. *)
Definition load_model_file (name_reader : string * ConfigReader.t)
  : M unit :=
  known ← hasModel (fst name_reader);
  if (known : bool) then mret tt
  else
    needs ← needsModel (fst name_reader);
    if negb (needs : bool) then mret tt
    else
      model ← parse_config (fst name_reader) (snd name_reader);
      addModel (Some model).

Definition load_models : M unit :=
  g ← get_geo;
  let paths := model_paths_ g in
  readers ← lift (read_models paths);
  for_each readers load_model_file.

(** The keys of a detector section that place the detector and do not
    specialise its model. *)
Definition is_internal (key : string) : bool :=
  (String.eqb key "type" || String.eqb key "position" ||
   String.eqb key "orientation_mode" || String.eqb key "orientation")%bool.

(** The configuration [new_config] of [close_geometry]: every other key of
    the detector section. *)
Definition specialisation (config : Configuration.t) : Configuration.t :=
  fold_left
    (fun new_config key_value =>
       if is_internal (fst key_value) then new_config
       else Configuration.setText (fst key_value) (snd key_value) new_config)
    (Configuration.getAll config) (Configuration.new "").

(** The reader a specialised model is parsed from. *)
Definition specialised_reader (new_config : Configuration.t)
    (model_configs : list Configuration.t) : ConfigReader.t :=
  fold_left (fun reader model_config =>
               ConfigReader.addConfiguration model_config reader)
            model_configs
            (ConfigReader.addConfiguration new_config ConfigReader.new).

(** The body of the inner loop of [close_geometry]. *)
Definition resolve_model (type : string)
    (config_detector : Configuration.t * ptr) : M unit :=
  let config := fst config_detector in
  model ← getModel type;
  o ← deref_model model;
  let model_configs := DetectorModel.getConfigurations (ModelObject.base o) in
  let new_config := specialisation config in
  model ←
    (if negb (Configuration.countSettings new_config =? 0)%nat
     then parse_config type (specialised_reader new_config model_configs)
     else mret model);
  set_model (snd config_detector) model.

(** The body of the outer loop of [close_geometry]. *)
Definition resolve_models
    (detectors_types : string * list (Configuration.t * ptr)) : M unit :=
  for_each (snd detectors_types) (resolve_model (fst detectors_types)).

Definition close_geometry : M unit :=
  load_models;;
  g ← get_geo;
  for_each (std_map_items (nonresolved_models_ g)) resolve_models;;
  modify_geo (set_closed true).

Definition close_if_open : M unit :=
  g ← get_geo;
  if negb (closed_ g) then close_geometry else mret tt.

Definition getDetectors : M (list ptr) :=
  close_if_open;;
  g ← get_geo;
  mret (detectors_ g).

Fixpoint find_detector (name : string) (detectors : list ptr)
  : M (option ptr) :=
  match detectors with
  | [] => mret None
  | detector :: rest =>
      d ← deref_detector detector;
      if String.eqb (Detector.getName d) name then mret (Some detector)
      else find_detector name rest
  end.

Definition getDetector (name : string) : M ptr :=
  close_if_open;;
  g ← get_geo;
  found ← find_detector name (detectors_ g);
  match found with
  | Some detector => mret detector
  | None => throw (InvalidDetectorError name)
  end.

(** [detector->getModel()] followed by a use of the model: a detector
    without a model is a null pointer dereference. *)
Definition model_of (detector : ptr) : M ModelObject.t :=
  d ← deref_detector detector;
  match Detector.getModel d with
  | Some model => deref_model model
  | None => throw NullPointer
  end.

(** Modelled from the spec: [Detector::getType], the type of the model of
    the detector. *)
Definition detector_type (detector : ptr) : M string :=
  o ← model_of detector;
  mret (ModelObject.getType o).

Fixpoint filter_by_type (type : string) (detectors : list ptr)
  : M (list ptr) :=
  match detectors with
  | [] => mret []
  | detector :: rest =>
      ty ← detector_type detector;
      result ← filter_by_type type rest;
      mret (if String.eqb ty type then detector :: result else result)
  end.

Definition getDetectorsByType (type : string) : M (list ptr) :=
  close_if_open;;
  g ← get_geo;
  result ← filter_by_type type (detectors_ g);
  match result with
  | [] => throw (InvalidModelError type)
  | _ => mret result
  end.
(** The corners of the box of a model, as the loops of
    [getMinimumCoordinate] and [getMaximumCoordinate] enumerate them. *)
Definition offset_x : list Z := [1; 1; 1; 1; -1; -1; -1; -1]%Z.
Definition offset_y : list Z := [1; 1; -1; -1; 1; 1; -1; -1]%Z.
Definition offset_z : list Z := [1; -1; 1; -1; 1; -1; 1; -1]%Z.

Definition corner (model : ModelObject.t) (i : nat) : XYZPoint :=
  let point := ModelObject.getCenter model in
  let point :=
    SetX (px point +
          inject_Z (nth i offset_x 0%Z) * px (ModelObject.getSize model) / 2)
         point in
  let point :=
    SetY (py point +
          inject_Z (nth i offset_y 0%Z) * py (ModelObject.getSize model) / 2)
         point in
  SetZ (pz point +
        inject_Z (nth i offset_z 0%Z) * pz (ModelObject.getSize model) / 2)
       point.

Definition lower (min_point point : XYZPoint) : XYZPoint :=
  mkXYZ (Qmin (px min_point) (px point)) (Qmin (py min_point) (py point))
        (Qmin (pz min_point) (pz point)).

Definition raise (max_point point : XYZPoint) : XYZPoint :=
  mkXYZ (Qmax (px max_point) (px point)) (Qmax (py max_point) (py point))
        (Qmax (pz max_point) (pz point)).

(** The eight corners of one detector in global coordinates, in the order
    of the loop [for (size_t i = 0; i < 8; ++i)]. *)
Definition global_corners (model : ModelObject.t) (d : Detector.t)
  : list XYZPoint :=
  List.map (fun i => Detector.getGlobalPosition (corner model i) d)
           (seq 0 8).

(** The loop over the detectors, for either function: [widen] is [lower]
    or [raise]. *)
Fixpoint fold_detectors (widen : XYZPoint -> XYZPoint -> XYZPoint)
    (detectors : list ptr) (acc : XYZPoint) : M XYZPoint :=
  match detectors with
  | [] => mret acc
  | detector :: rest =>
      d ← deref_detector detector;
      model ← model_of detector;
      fold_detectors widen rest (fold_left widen (global_corners model d) acc)
  end.

Definition getMinimumCoordinate : M XYZPoint :=
  close_if_open;;
  g ← get_geo;
  min_point ← fold_detectors lower (detectors_ g) (mkXYZ 0 0 0);
  mret (fold_left lower (points_ g) min_point).

Definition getMaximumCoordinate : M XYZPoint :=
  close_if_open;;
  g ← get_geo;
  max_point ← fold_detectors raise (detectors_ g) (mkXYZ 0 0 0);
  mret (fold_left raise (points_ g) max_point).

(** [load], one detector section: the body of its loop once the position
    and the orientation are known.  The misalignment drawn from the random
    generator and the composition of the angles into a rotation are left
    to the caller, which passes their results. *)
Definition load_detector
    (section : Configuration.t * XYZPoint * Rotation3D) : M unit :=
  let '(detector_section, position, orientation) := section in
  orientation_mode ← lift (Configuration.get_def as_string
                             "orientation_mode" "xyz" detector_section);
  if (negb (String.eqb orientation_mode "zyx") &&
      negb (String.eqb orientation_mode "xyz") &&
      negb (String.eqb orientation_mode "zxz"))%bool
  then throw (InvalidValueError "orientation_mode"
         "orientation_mode should be either 'zyx', xyz' or 'zxz'")
  else
    detector ← alloc_detector
      (Detector.new (Configuration.getName detector_section) position
                    orientation);
    addDetector (Some detector);;
    type ← lift (Configuration.get as_string "type" detector_section);
    modify_geo (fun g =>
      set_nonresolved_models
        (<[type := default [] (nonresolved_models_ g !! type) ++
                   [(detector_section, detector)]]>
           (nonresolved_models_ g)) g).

(** [load]: every detector section, then the model paths ([model_paths]:
    the paths of the global configuration, the installation directory and
    the data directories that exist, in this order). *)
Definition load
    (detector_sections : list (Configuration.t * XYZPoint * Rotation3D))
    (model_paths : list string) : M unit :=
  for_each detector_sections load_detector;;
  modify_geo (fun g => set_model_paths (model_paths_ g ++ model_paths) g).

Definition getModelsPath : M (list string) :=
  g ← get_geo;
  mret (model_paths_ g).
End member_functions.

(** ** A sample environment

    Concrete conversions, derived classes and files, to run the member
    functions on examples.  Numbers are written as unsigned decimal integers
    (lengths in micrometres), vectors as numbers separated by one space,
    strings as they are. *)
Module Sample.

Fixpoint digits (s : string) (acc : N) : option N :=
  match s with
  | EmptyString => Some acc
  | String c rest =>
      let n := N_of_ascii c in
      if ((48 <=? n)%N && (n <=? 57)%N)%bool
      then digits rest (acc * 10 + (n - 48))%N
      else None
  end.

Definition number (s : string) : option Z :=
  match s with
  | EmptyString => None
  | _ => Z.of_N <$> digits s 0%N
  end.

(** The words of [s] between single spaces; [cur] is the word being read,
    reversed. *)
Fixpoint words (s : string) (cur : string) : list string :=
  match s with
  | EmptyString => [cur]
  | String c rest =>
      if Ascii.eqb c " "%char then cur :: words rest EmptyString
      else words rest (cur +:+ String c EmptyString)
  end.

Definition numbers (s : string) : option (list Z) :=
  mapM number (words s EmptyString).

#[export] Instance conv : FromString := {|
  as_string s := Some s;
  as_double s := inject_Z <$> number s;
  as_XYVector s :=
    match numbers s with
    | Some [a; b] => Some (mkXY (inject_Z a) (inject_Z b))
    | _ => None
    end;
  as_XYZVector s :=
    match numbers s with
    | Some [a; b; c] => Some (mkXYZ (inject_Z a) (inject_Z b) (inject_Z c))
    | _ => None
    end;
  as_XYInt s :=
    match numbers s with
    | Some [a; b] => Some (mkXYInt a b)
    | _ => None
    end
|}.

(** Derived classes that add nothing to the base class. *)
#[export] Instance derived : DerivedModels := {|
  derived_init _ _ := Ok tt;
  derived_getCenter _ m := DetectorModel.getCenter m;
  derived_getSize _ m := DetectorModel.getSize m
|}.

(** The model file "X.conf": a hybrid model of 2 x 2 pixels of 100 um, a
    sensor of 300 um and three support layers. *)
Definition X_header : Configuration.t :=
  Configuration.setText "type" "hybrid"
    (Configuration.setText "number_of_pixels" "2 2"
      (Configuration.setText "pixel_size" "100 100"
        (Configuration.setText "sensor_thickness" "300"
          (Configuration.new "")))).

Definition X_support (thickness location : string) : Configuration.t :=
  Configuration.setText "thickness" thickness
    (Configuration.setText "size" "300 300"
      (Configuration.setText "location" location
        (Configuration.setText "hole_size" "20 10"
          (Configuration.new "support")))).

(** Two support layers on the chip side and one on the sensor side. *)
Definition X_reader : ConfigReader.t :=
  ConfigReader.addConfiguration (X_support "70" "chip")
    (ConfigReader.addConfiguration (X_support "30" "Sensor")
      (ConfigReader.addConfiguration (X_support "50" "chip")
        (ConfigReader.addConfiguration X_header ConfigReader.new))).

(** One directory "models" that holds "X.conf" and a file of another
    suffix. *)
#[export] Instance fs : FileSystem := {|
  path_is_directory p := String.eqb p "models";
  get_files_in_directory p :=
    if String.eqb p "models" then ["models/X.conf"; "models/README.md"]
    else [];
  get_file_name_extension p :=
    if String.eqb p "models/X.conf" then ("X", ".conf")
    else if String.eqb p "models/README.md" then ("README", ".md")
    else (p, "");
  read_config p :=
    if String.eqb p "models/X.conf" then Ok X_reader
    else Throw (ConfigParseError p);
  ALLPIX_MODEL_SUFFIX := ".conf"
|}.

(** Detector sections: [detector_section name settings]. *)
Definition detector_section (name : string)
    (settings : list (string * string)) : Configuration.t :=
  fold_left (fun c kv => Configuration.setText (fst kv) (snd kv) c)
            settings (Configuration.new name).

Definition plain (name : string)
  : Configuration.t * XYZPoint * Rotation3D :=
  (detector_section name [("type", "X"); ("position", "0 0 0")],
   mkXYZ 0 0 0, identity_rotation).

Definition thick (name : string)
  : Configuration.t * XYZPoint * Rotation3D :=
  (detector_section name [("type", "X"); ("sensor_thickness", "500")],
   mkXYZ 0 0 1000, identity_rotation).

(** The state after [load] of these sections. *)
Definition loaded
    (sections : list (Configuration.t * XYZPoint * Rotation3D)) : World :=
  snd (load sections ["models"] empty_world).

End Sample.

(** ** Notions the properties are stated with *)

(** The two faces of a part along an axis: center plus and minus half the
    size. *)
Definition upper_face (ax : axis) (p : XYZPoint * XYZVector) : Q :=
  coord ax (fst p +v snd p /s 2).
Definition lower_face (ax : axis) (p : XYZPoint * XYZVector) : Q :=
  coord ax (fst p -v snd p /s 2).

(** A hole as thick as its layer. *)
Definition full_hole (l : SupportLayer.t) : Prop :=
  pz (SupportLayer.getHoleSize l) = pz (SupportLayer.getSize l).

(** The sample model: what the constructor makes of "X.conf". *)
Definition sample_model : outcome DetectorModel.t :=
  DetectorModel.new (conv := Sample.conv) "X" Sample.X_reader.

Definition sample : DetectorModel.t :=
  match sample_model with
  | Ok m => m
  | Throw _ =>
      DetectorModel.mk "" (mkXYInt 0 0) (mkXY 0 0) 0 (mkArray4 0 0 0 0) 0 [] []
  end.

(** A member function that leaves every object as it found it. *)
Definition read_only {A} (c : M A) : Prop := forall w, snd (c w) = w.

(** The empty geometry: no detector was loaded or added, no point added. *)
Definition empty_geometry (w : World) : Prop :=
  GeometryManager.detectors_ (geo w) = []
  /\ GeometryManager.points_ (geo w) = []
  /\ GeometryManager.nonresolved_models_ (geo w) = ∅.

(** Component-wise order of points. *)
Definition xyz_le (a b : XYZ) : Prop :=
  px a <= px b /\ py a <= py b /\ pz a <= pz b.

(** The corner of the box of a model with the given signs, in the local
    frame: center plus or minus half the size on each axis. *)
Definition signed_corner {derived : DerivedModels} (model : ModelObject.t)
    (sx sy sz : Z) : XYZPoint :=
  mkXYZ (px (ModelObject.getCenter model)
         + inject_Z sx * px (ModelObject.getSize model) / 2)
        (py (ModelObject.getCenter model)
         + inject_Z sy * py (ModelObject.getSize model) / 2)
        (pz (ModelObject.getCenter model)
         + inject_Z sz * pz (ModelObject.getSize model) / 2).

Definition sign (s : Z) : Prop := s = 1%Z \/ s = (-1)%Z.

(** Sample states: one detector "d1" of type "X" loaded; the same with the
    models loaded; the same closed by a first call of [getDetectors]; and an
    open state whose store holds a detector named "global" that was not
    added. *)
Definition one_loaded : World := Sample.loaded [Sample.plain "d1"].
Definition one_with_models : World :=
  snd (load_models (conv := Sample.conv) (derived := Sample.derived)
         (fs := Sample.fs) one_loaded).
Definition one_closed : World :=
  snd (getDetectors (conv := Sample.conv) (derived := Sample.derived)
         (fs := Sample.fs) one_loaded).
Definition with_global : World :=
  snd (alloc_detector
         (Detector.new "global" (mkXYZ 0 0 0) identity_rotation) one_loaded).

(** Two detectors of type "X" loaded, the second with a thicker sensor. *)
Definition two_loaded : World :=
  Sample.loaded [Sample.plain "d1"; Sample.thick "d2"].

(** The pending (requested type, detector section, detector) entries, in
    the order in which [close_geometry] goes through them. *)
Definition pending (g : GeometryManager.t)
  : list (string * (Configuration.t * ptr)) :=
  flat_map (fun detectors_types =>
              List.map (fun config_detector =>
                          (fst detectors_types, config_detector))
                       (snd detectors_types))
           (std_map_items (GeometryManager.nonresolved_models_ g)).

Definition pending_detectors (g : GeometryManager.t) : list ptr :=
  List.map (fun entry => snd (snd entry)) (pending g).

(** A detector section specialises its model when it has a key that is not
    one of the placement keys: the test [new_config.countSettings() != 0]. *)
Definition specialised (config : Configuration.t) : bool :=
  negb (Configuration.countSettings (specialisation config) =? 0)%nat.

(** Every registered model is an object (what a [std::shared_ptr]
    guarantees). *)
Definition models_stored (w : World) : Prop :=
  forall p, p ∈ GeometryManager.models_ (geo w) -> is_Some (model_store w !! p).

(** The model a pending detector has after closing.  [w1] is the state in
    which the loop over the pending detectors starts (the models are
    loaded), [w'] the state after closing: the detector has the generic
    model of its type, or, when its section specialises the model, a model
    object that did not exist in [w1], made by the constructor from the
    overlay followed by the configurations of the generic model. *)
Definition assigned {conv : FromString} (w1 w' : World) (type : string)
    (config : Configuration.t) (det : ptr) : Prop :=
  exists d generic og,
    detector_store w' !! det = Some d
    /\ getModel type w' = (Ok generic, w')
    /\ generic ∈ GeometryManager.models_ (geo w')
    /\ model_store w' !! generic = Some og
    /\ if specialised config
       then exists p o,
              Detector.getModel d = Some p
              /\ p <> generic
              /\ model_store w1 !! p = None
              /\ model_store w' !! p = Some o
              /\ (ModelObject.kind o = Hybrid \/ ModelObject.kind o = Monolithic)
              /\ DetectorModel.new type
                   (specialised_reader (specialisation config)
                      (DetectorModel.getConfigurations (ModelObject.base og)))
                 = Ok (ModelObject.base o)
       else Detector.getModel d = Some generic.

(** What [load_models] keeps: the pending entries, the detectors, the model
    objects there are, and that every registered model is an object. *)
Definition models_loaded (w w1 : World) : Prop :=
  GeometryManager.nonresolved_models_ (geo w1)
  = GeometryManager.nonresolved_models_ (geo w)
  /\ detector_store w1 = detector_store w
  /\ model_store w ⊆ model_store w1
  /\ (models_stored w -> models_stored w1).

(** Two detectors of type "X" whose sections override the same parameter
    with the same value. *)
Definition twins_loaded : World :=
  Sample.loaded [Sample.thick "d2"; Sample.thick "d3"].

(** What [load] and the registry functions maintain: a pending detector is
    pending once, is an object, and every registered model is an object. *)
Definition well_formed (w : World) : Prop :=
  NoDup (pending_detectors (geo w))
  /\ (forall det, det ∈ pending_detectors (geo w) ->
        is_Some (detector_store w !! det))
  /\ models_stored w.

(** The points the bounding box is computed from: the origin, the points
    that were added, and the corners of the box of the model of every
    detector, in global coordinates. *)
Definition candidate {derived : DerivedModels} (w : World) (q : XYZPoint)
  : Prop :=
  q = mkXYZ 0 0 0
  \/ q ∈ GeometryManager.points_ (geo w)
  \/ exists det d mp o,
       det ∈ GeometryManager.detectors_ (geo w)
       /\ detector_store w !! det = Some d
       /\ Detector.getModel d = Some mp
       /\ model_store w !! mp = Some o
       /\ q ∈ global_corners o d.

(** Two models with the same data, whatever reader each keeps. *)
Definition same_geometry (m m' : DetectorModel.t) : Prop :=
  DetectorModel.type_ m = DetectorModel.type_ m'
  /\ DetectorModel.number_of_pixels_ m = DetectorModel.number_of_pixels_ m'
  /\ DetectorModel.pixel_size_ m = DetectorModel.pixel_size_ m'
  /\ DetectorModel.sensor_thickness_ m = DetectorModel.sensor_thickness_ m'
  /\ DetectorModel.sensor_excess_ m = DetectorModel.sensor_excess_ m'
  /\ DetectorModel.chip_thickness_ m = DetectorModel.chip_thickness_ m'
  /\ DetectorModel.support_layers_ m = DetectorModel.support_layers_ m'.

(** Two calls of the constructor with the same result: the same exception,
    or two models with the same data. *)
Definition same_result (o o' : outcome DetectorModel.t) : Prop :=
  match o, o' with
  | Ok m, Ok m' => same_geometry m m'
  | Throw e, Throw e' => e = e'
  | _, _ => False
  end.

(** The registry of models is consistent: every registered model is an
    object, the registered names are the type names of the registered
    models, and no two registered models have the same type name. *)
Definition registry_consistent (w : World) : Prop :=
  models_stored w
  /\ (forall name,
        name ∈ GeometryManager.model_names_ (geo w)
        <-> exists p o,
              p ∈ GeometryManager.models_ (geo w)
              /\ model_store w !! p = Some o
              /\ ModelObject.getType o = name)
  /\ (forall i j p q o o',
        GeometryManager.models_ (geo w) !! i = Some p ->
        GeometryManager.models_ (geo w) !! j = Some q ->
        model_store w !! p = Some o -> model_store w !! q = Some o' ->
        ModelObject.getType o = ModelObject.getType o' -> i = j).

(** What every step of closing keeps, whether it returns or throws: the
    model objects there are, the registered models (more may follow), and
    everything that was registered about detectors, points and paths; the
    geometry stays open or closed as it was. *)
Definition closing_keeps (w w' : World) : Prop :=
  model_store w ⊆ model_store w'
  /\ (exists new,
        GeometryManager.models_ (geo w')
        = GeometryManager.models_ (geo w) ++ new)
  /\ GeometryManager.closed_ (geo w') = GeometryManager.closed_ (geo w)
  /\ GeometryManager.detectors_ (geo w') = GeometryManager.detectors_ (geo w)
  /\ GeometryManager.detector_names_ (geo w')
     = GeometryManager.detector_names_ (geo w)
  /\ GeometryManager.points_ (geo w') = GeometryManager.points_ (geo w)
  /\ GeometryManager.model_paths_ (geo w')
     = GeometryManager.model_paths_ (geo w)
  /\ GeometryManager.nonresolved_models_ (geo w')
     = GeometryManager.nonresolved_models_ (geo w)
  /\ dom (detector_store w') = dom (detector_store w)
  /\ (registry_consistent w -> registry_consistent w').








(** * Properties *)

(** ** The center of a model *)

(** C1: for a pixel grid of n x m pixels of size (w, h), [getCenter] is
    (n w / 2 - w / 2, m h / 2 - h / 2, 0), which is the corner
    (-w / 2, -h / 2, 0) of the grid moved by half the grid; with 2 x 2 pixels
    of 100 um (whatever the length [um] of a micrometre is) it is
    (50 um, 50 um, 0). *)
Theorem getCenter_formula (m : DetectorModel.t) :
  let n := inject_Z (ix (DetectorModel.getNPixels m)) in
  let k := inject_Z (iy (DetectorModel.getNPixels m)) in
  let w := vx (DetectorModel.getPixelSize m) in
  let h := vy (DetectorModel.getPixelSize m) in
  DetectorModel.getCenter m = mkXYZ (n * w / 2 - w / 2) (k * h / 2 - h / 2) 0
  /\ DetectorModel.getCenter m =v
       mkXYZ (- (w / 2)) (- (h / 2)) 0 +v DetectorModel.getGridSize m /s 2
  /\ (forall um : Q,
        DetectorModel.getNPixels m = mkXYInt 2 2 ->
        w == 100 * um -> h == 100 * um ->
        DetectorModel.getCenter m =v mkXYZ (50 * um) (50 * um) 0).
Proof.
  cbn zeta. split; [reflexivity|]. split.
  - unfold DetectorModel.getCenter, DetectorModel.getGridSize, xyz_eq; cbn.
    repeat split; field.
  - intros um Hn Hw Hh.
    unfold DetectorModel.getCenter, DetectorModel.getGridSize, xyz_eq; cbn.
    rewrite Hn; cbn. rewrite Hw, Hh. repeat split; field.
Qed.

Lemma getCenter_formula_witness :
  sample_model = Ok sample /\
  DetectorModel.getCenter sample =v mkXYZ (50 * 1) (50 * 1) 0.
Proof.
  split; [vm_compute; reflexivity|].
  apply (getCenter_formula sample); vm_compute; reflexivity.
Defined.

(** ** Support layers keep their data when they are placed *)

Lemma place_layer_fields center offsets layer :
  exists c, snd (DetectorModel.place_layer center offsets layer)
            = SupportLayer.set_center c layer.
Proof.
  destruct offsets as [so co]. unfold DetectorModel.place_layer.
  repeat case_match; cbn; eauto.
Qed.

Lemma place_layers_fields center layers : forall offsets,
  Forall2 (fun l l' => exists c, l' = SupportLayer.set_center c l)
          layers (DetectorModel.place_layers center offsets layers).
Proof.
  induction layers as [|l layers IH]; intros offsets; cbn.
  - constructor.
  - destruct (DetectorModel.place_layer center offsets l) as [offsets' l'] eqn:E.
    constructor; [|apply IH].
    destruct (place_layer_fields center offsets l) as [c Hc].
    rewrite E in Hc. eauto.
Qed.

Lemma place_layer_location center offsets layer :
  SupportLayer.location_ (snd (DetectorModel.place_layer center offsets layer))
  = SupportLayer.location_ layer.
Proof.
  destruct (place_layer_fields center offsets layer) as [c ->]. reflexivity.
Qed.

Lemma getSupportLayers_fields (m : DetectorModel.t) :
  Forall2 (fun l l' => exists c, l' = SupportLayer.set_center c l)
          (DetectorModel.support_layers_ m) (DetectorModel.getSupportLayers m).
Proof. apply place_layers_fields. Qed.

Lemma addSupportLayer_full_hole size t offset material location hole_size
    hole_offset m :
  Forall full_hole (DetectorModel.support_layers_ m) ->
  Forall full_hole
    (DetectorModel.support_layers_
       (DetectorModel.addSupportLayer size t offset material location
          hole_size hole_offset m)).
Proof.
  intros H. cbn. apply Forall_app. split; [assumption|].
  repeat constructor.
Qed.

(** Case analysis on a sequence of steps that may throw. *)
Ltac outcome_inv H :=
  repeat match type of H with
  | mbind _ ?o = Ok _ =>
      let E := fresh "E" in
      destruct o eqn:E; cbn in H; [|discriminate H]
  | (if ?b then _ else _) = Ok _ =>
      let E := fresh "E" in destruct b eqn:E; cbn in H; try discriminate H
  | mret _ = Ok _ => injection H as H
  | Ok _ = Ok _ => injection H as H
  end.

Section constructor_facts.
Context {conv : FromString}.

Lemma read_support_full_hole support_config m m' :
  DetectorModel.read_support support_config m = Ok m' ->
  Forall full_hole (DetectorModel.support_layers_ m) ->
  Forall full_hole (DetectorModel.support_layers_ m').
Proof.
  unfold DetectorModel.read_support. intros H Hm.
  outcome_inv H. subst m'. now apply addSupportLayer_full_hole.
Qed.

Lemma read_supports_full_hole configs : forall m m',
  DetectorModel.read_supports configs m = Ok m' ->
  Forall full_hole (DetectorModel.support_layers_ m) ->
  Forall full_hole (DetectorModel.support_layers_ m').
Proof.
  induction configs as [|c configs IH]; intros m m' H Hm; cbn in H.
  - injection H as <-. assumption.
  - outcome_inv H. eapply IH; [eassumption|].
    eapply read_support_full_hole; eassumption.
Qed.

Lemma new_full_hole type reader m :
  DetectorModel.new type reader = Ok m ->
  Forall full_hole (DetectorModel.support_layers_ m).
Proof.
  unfold DetectorModel.new. intros H. outcome_inv H.
  eapply read_supports_full_hole; [eassumption|]. constructor.
Qed.
End constructor_facts.

(** C10: [addSupportLayer] with thickness [t] appends a layer whose hole has
    the in-plane size that was passed and the thickness [t] of the layer,
    whatever that in-plane size is, also as [getSupportLayers] returns the
    layer. *)
Theorem addSupportLayer_hole_thickness
    (size : XYVector) (t : Q) (offset : XYZVector) (material location : string)
    (hole_size hole_offset : XYVector) (m : DetectorModel.t) :
  let m' := DetectorModel.addSupportLayer size t offset material location
              hole_size hole_offset m in
  (exists l,
     DetectorModel.support_layers_ m' = DetectorModel.support_layers_ m ++ [l]
     /\ SupportLayer.getHoleSize l = mkXYZ (vx hole_size) (vy hole_size) t
     /\ pz (SupportLayer.getSize l) = t)
  /\ (exists l,
        last (DetectorModel.getSupportLayers m') = Some l
        /\ SupportLayer.getHoleSize l = mkXYZ (vx hole_size) (vy hole_size) t
        /\ pz (SupportLayer.getSize l) = t).
Proof.
  cbn zeta. split.
  - eexists. split; [reflexivity|]. split; reflexivity.
  - pose proof (getSupportLayers_fields
                  (DetectorModel.addSupportLayer size t offset material
                     location hole_size hole_offset m)) as F.
    cbn [DetectorModel.addSupportLayer DetectorModel.set_support_layers
         DetectorModel.support_layers_] in F.
    apply Forall2_app_inv_l in F as (k1 & k2 & _ & F2 & ->).
    apply Forall2_cons_inv_l in F2 as (l' & k3 & [c ->] & F3 & ->).
    apply Forall2_nil_inv_l in F3 as ->.
    eexists. split; [apply last_snoc|]. split; reflexivity.
Qed.

(** Every layer of a model made by the constructor went through
    [addSupportLayer]: its hole is as thick as the layer. *)
Lemma constructor_full_hole (conv : FromString) type reader m :
  DetectorModel.new type reader = Ok m ->
  Forall full_hole (DetectorModel.getSupportLayers m).
Proof.
  intros H.
  pose proof (new_full_hole _ _ _ H) as Hm.
  pose proof (getSupportLayers_fields m) as F.
  revert Hm. induction F as [|l l' ls ls' [c ->] _ IH]; intros Hm.
  - constructor.
  - apply Forall_cons in Hm as [Hl Hls]. constructor; [exact Hl|auto].
Qed.

Example sample_full_hole :
  length (DetectorModel.getSupportLayers sample) = 3%nat /\
  Forall full_hole (DetectorModel.getSupportLayers sample).
Proof.
  split; [reflexivity|].
  apply (constructor_full_hole Sample.conv "X" Sample.X_reader).
  vm_compute; reflexivity.
Qed.

(** ** The stacking of the support layers in double arithmetic *)










(** ** The order of doubles *)

(** The comparisons of binary64, from their specification: [<=] is a total
    preorder on the doubles that are not NaN. *)
Section double_order.
Local Open Scope float_scope.









End double_order.

(** ** The box of a model in double arithmetic *)

Section double_extremes.
Local Open Scope float_scope.


End double_extremes.









(** A maximum of two rationals is one of them. *)
Lemma Qmax_cases a x : Qmax a x = a \/ Qmax a x = x.
Proof. unfold Qmax, GenericMinMax.gmax. destruct (a ?= x); auto. Qed.

Lemma Qmin_cases a x : Qmin a x = a \/ Qmin a x = x.
Proof. unfold Qmin, GenericMinMax.gmin. destruct (a ?= x); auto. Qed.

(** ** Member functions step by step *)

Lemma bind_Ok {A B} (c : M A) (f : A -> M B) w b w2 :
  (c ≫= f) w = (Ok b, w2) ->
  exists a w1, c w = (Ok a, w1) /\ f a w1 = (Ok b, w2).
Proof.
  unfold mbind, M_bind. destruct (c w) as [[a|e] w1]; [eauto|discriminate].
Qed.

Lemma bind_run {A B} (c : M A) (f : A -> M B) w a w1 :
  c w = (Ok a, w1) -> (c ≫= f) w = f a w1.
Proof. unfold mbind, M_bind. now intros ->. Qed.

(** *** Functions that only read *)

Create HintDb read_only.

Lemma read_only_ret {A} (a : A) : read_only (mret a).
Proof. intros w. reflexivity. Qed.

Lemma read_only_throw {A} e : read_only (@throw A e).
Proof. intros w. reflexivity. Qed.

Lemma read_only_lift {A} (o : outcome A) : read_only (lift o).
Proof. intros w. reflexivity. Qed.

Lemma read_only_get_geo : read_only get_geo.
Proof. intros w. reflexivity. Qed.

Lemma read_only_deref_model p : read_only (deref_model p).
Proof. intros w. unfold deref_model. now destruct (_ !! _). Qed.

Lemma read_only_deref_detector p : read_only (deref_detector p).
Proof. intros w. unfold deref_detector. now destruct (_ !! _). Qed.

Lemma read_only_bind {A B} (c : M A) (f : A -> M B) :
  read_only c -> (forall a, read_only (f a)) -> read_only (c ≫= f).
Proof.
  intros Hc Hf w. unfold mbind, M_bind. specialize (Hc w).
  destruct (c w) as [[a|e] w1]; cbn in Hc; subst w1; [apply Hf|reflexivity].
Qed.

Lemma read_only_if {A} (b : bool) (c1 c2 : M A) :
  read_only c1 -> read_only c2 -> read_only (if b then c1 else c2).
Proof. now destruct b. Qed.

#[local] Hint Resolve read_only_ret read_only_throw read_only_lift
  read_only_get_geo read_only_deref_model read_only_deref_detector
  read_only_if : read_only.
#[local] Hint Extern 2 (read_only (_ ≫= _)) =>
  apply read_only_bind; [|intros ?] : read_only.
#[local] Hint Extern 3 (read_only (match ?x with _ => _ end)) =>
  destruct x : read_only.

Section reading.
Context {conv : FromString} {derived : DerivedModels} {fs : FileSystem}.

Lemma read_only_getModels : read_only getModels.
Proof. unfold getModels. auto with read_only. Qed.

Lemma read_only_find_model name models : read_only (find_model name models).
Proof. induction models; cbn; auto with read_only. Qed.

Lemma read_only_getModel name : read_only (getModel name).
Proof.
  unfold getModel. pose proof (read_only_find_model name).
  auto with read_only.
Qed.

Lemma read_only_find_detector name ds : read_only (find_detector name ds).
Proof. induction ds; cbn; auto with read_only. Qed.

Lemma read_only_model_of d : read_only (model_of d).
Proof. unfold model_of. auto with read_only. Qed.

Lemma read_only_filter_by_type type ds : read_only (filter_by_type type ds).
Proof.
  pose proof read_only_model_of.
  induction ds; cbn; unfold detector_type; auto 10 with read_only.
Qed.

Lemma read_only_fold_detectors widen ds :
  forall acc, read_only (fold_detectors widen ds acc).
Proof.
  pose proof read_only_model_of.
  induction ds; intros acc; cbn; auto with read_only.
Qed.
End reading.

(** ** Adding to the registries *)

Section registry.
Context {conv : FromString} {derived : DerivedModels} {fs : FileSystem}.

Lemma addPoint_throws point w e w' :
  addPoint point w = (Throw e, w') -> w' = w.
Proof.
  unfold addPoint, mbind, M_bind, get_geo, throw, modify_geo.
  destruct (GeometryManager.closed_ (geo w)); now intros [= _ <-].
Qed.

Lemma addModel_throws model w e w' :
  addModel model w = (Throw e, w') -> w' = w.
Proof.
  unfold addModel, mbind, M_bind, get_geo, throw, modify_geo, deref_model.
  destruct (GeometryManager.closed_ (geo w)); [now intros [= _ <-]|].
  destruct model as [p|]; [|now intros [= _ <-]].
  destruct (model_store w !! p); [|now intros [= _ <-]].
  case_bool_decide; now intros [= _ <-].
Qed.

Lemma addDetector_throws detector w e w' :
  addDetector detector w = (Throw e, w') -> w' = w.
Proof.
  unfold addDetector, mbind, M_bind, get_geo, throw, modify_geo,
    deref_detector.
  destruct (GeometryManager.closed_ (geo w)); [now intros [= _ <-]|].
  destruct detector as [p|]; [|now intros [= _ <-]].
  destruct (detector_store w !! p); [|now intros [= _ <-]].
  destruct (String.eqb _ _); [now intros [= _ <-]|].
  case_bool_decide; now intros [= _ <-].
Qed.
End registry.

(** C7: [addModel], [addDetector] and [addPoint] throw on a closed geometry;
    on an open one [addModel] and [addDetector] throw for a null pointer
    ([addPoint] takes its point by value: there is no null point),
    [addDetector] throws for the name "global" and for a name that is
    registered, [addModel] throws for a type that is registered; and
    whenever one of the three throws, the manager and the objects are what
    they were. *)
Theorem add_rejects (conv : FromString) (derived : DerivedModels)
    (fs : FileSystem) (w : World) :
  let g := geo w in
  (GeometryManager.closed_ g = true ->
   forall point model detector,
     addPoint point w = (Throw (ModuleError closed_msg), w)
     /\ addModel model w = (Throw (ModuleError closed_msg), w)
     /\ addDetector detector w = (Throw (ModuleError closed_msg), w))
  /\ (GeometryManager.closed_ g = false ->
      addModel None w
      = (Throw (InvalidModuleActionException
                  "Added model cannot be a null pointer"), w)
      /\ addDetector None w
         = (Throw (InvalidModuleActionException
                     "Added detector cannot be a null pointer"), w)
      /\ (forall p d, detector_store w !! p = Some d ->
            Detector.getName d = "global" ->
            addDetector (Some p) w
            = (Throw (DetectorInvalidNameError "global"), w))
      /\ (forall p d, detector_store w !! p = Some d ->
            Detector.getName d <> "global" ->
            Detector.getName d ∈ GeometryManager.detector_names_ g ->
            addDetector (Some p) w
            = (Throw (DetectorExistsError (Detector.getName d)), w))
      /\ (forall p o, model_store w !! p = Some o ->
            ModelObject.getType o ∈ GeometryManager.model_names_ g ->
            addModel (Some p) w
            = (Throw (DetectorModelExistsError (ModelObject.getType o)), w)))
  /\ (forall e w' point model detector,
        addPoint point w = (Throw e, w')
        \/ addModel model w = (Throw e, w')
        \/ addDetector detector w = (Throw e, w') ->
        w' = w).
Proof.
  cbn zeta. split; [|split].
  - intros Hc point model detector.
    unfold addPoint, addModel, addDetector, mbind, M_bind, get_geo, throw.
    rewrite Hc. repeat split.
  - intros Hc.
    unfold addPoint, addModel, addDetector, mbind, M_bind, get_geo, throw,
      deref_detector, deref_model.
    rewrite Hc. split; [reflexivity|]. split; [reflexivity|].
    split; [|split].
    + intros p d -> Hname. rewrite Hname. reflexivity.
    + intros p d -> Hname%String.eqb_neq Hin. rewrite Hname.
      rewrite bool_decide_eq_true_2 by exact Hin. reflexivity.
    + intros p o -> Hin.
      rewrite bool_decide_eq_true_2 by exact Hin. reflexivity.
  - intros e w' point model detector [H|[H|H]].
    + eapply addPoint_throws, H.
    + eapply addModel_throws, H.
    + eapply addDetector_throws, H.
Qed.

Lemma add_rejects_witness :
  addPoint (mkXYZ 1 2 3) one_closed = (Throw (ModuleError closed_msg), one_closed)
  /\ addModel None one_loaded
     = (Throw (InvalidModuleActionException
                 "Added model cannot be a null pointer"), one_loaded)
  /\ addDetector (Some 1%nat) with_global
     = (Throw (DetectorInvalidNameError "global"), with_global)
  /\ (exists d, detector_store one_loaded !! 0%nat = Some d
       /\ Detector.getName d = "d1"
       /\ addDetector (Some 0%nat) one_loaded
          = (Throw (DetectorExistsError (Detector.getName d)), one_loaded))
  /\ (exists o, model_store one_with_models !! 0%nat = Some o
       /\ ModelObject.getType o = "X"
       /\ addModel (Some 0%nat) one_with_models
          = (Throw (DetectorModelExistsError (ModelObject.getType o)),
             one_with_models)).
Proof.
  split; [|split; [|split; [|split]]].
  - apply (add_rejects Sample.conv Sample.derived Sample.fs one_closed);
      [reflexivity|exact None|exact None].
  - apply (add_rejects Sample.conv Sample.derived Sample.fs one_loaded).
    reflexivity.
  - eapply (add_rejects Sample.conv Sample.derived Sample.fs with_global);
      [reflexivity|vm_compute; reflexivity|reflexivity].
  - destruct (detector_store one_loaded !! 0%nat) as [d|] eqn:E;
      [|vm_compute in E; discriminate E].
    assert (Detector.getName d = "d1") as Hd
      by (vm_compute in E; injection E as <-; reflexivity).
    exists d. split; [reflexivity|]. split; [exact Hd|].
    apply (add_rejects Sample.conv Sample.derived Sample.fs one_loaded);
      [reflexivity|exact E|rewrite Hd; discriminate|].
    rewrite Hd. apply (bool_decide_unpack _). vm_compute. exact I.
  - destruct (model_store one_with_models !! 0%nat) as [o|] eqn:E;
      [|vm_compute in E; discriminate E].
    assert (ModelObject.getType o = "X") as Ho
      by (vm_compute in E; injection E as <-; reflexivity).
    exists o. split; [reflexivity|]. split; [exact Ho|].
    apply (add_rejects Sample.conv Sample.derived Sample.fs one_with_models);
      [reflexivity|exact E|].
    rewrite Ho. apply (bool_decide_unpack _). vm_compute. exact I.
Defined.

(** ** Closing on first read *)

Section closing.
Context {conv : FromString} {derived : DerivedModels} {fs : FileSystem}.

Lemma close_geometry_closes w w' :
  close_geometry w = (Ok tt, w') -> GeometryManager.closed_ (geo w') = true.
Proof.
  unfold close_geometry. intros H.
  apply bind_Ok in H as (_ & w1 & _ & H).
  apply bind_Ok in H as (g & w2 & _ & H).
  apply bind_Ok in H as (_ & w3 & _ & H).
  unfold modify_geo in H. injection H as <-. reflexivity.
Qed.

Lemma close_if_open_closed w :
  GeometryManager.closed_ (geo w) = true -> close_if_open w = (Ok tt, w).
Proof.
  intros H. unfold close_if_open, mbind, M_bind, get_geo. now rewrite H.
Qed.

Lemma close_if_open_open w :
  GeometryManager.closed_ (geo w) = false ->
  close_if_open w = close_geometry w.
Proof.
  intros H. unfold close_if_open, mbind at 1, M_bind at 1, get_geo.
  now rewrite H.
Qed.

Lemma close_if_open_closes w w' :
  close_if_open w = (Ok tt, w') -> GeometryManager.closed_ (geo w') = true.
Proof.
  destruct (GeometryManager.closed_ (geo w)) eqn:E.
  - rewrite (close_if_open_closed w E). now intros [= <-].
  - rewrite (close_if_open_open w E). apply close_geometry_closes.
Qed.

(** What follows the closing in an accessor only reads. *)
Lemma after_close {A} (rest : M A) w w1 :
  read_only rest -> close_if_open w = (Ok tt, w1) ->
  (close_if_open ≫= fun _ => rest) w = (fst (rest w1), w1).
Proof.
  intros Hr Hc. rewrite (bind_run _ _ _ _ _ Hc).
  specialize (Hr w1). destruct (rest w1) as [r w2]. cbn in *. now subst.
Qed.

Lemma accessor_Ok {A} (rest : M A) w r w' :
  read_only rest -> (close_if_open ≫= fun _ => rest) w = (Ok r, w') ->
  close_if_open w = (Ok tt, w').
Proof.
  intros Hr H. apply bind_Ok in H as ([] & w1 & Hc & H).
  specialize (Hr w1). rewrite H in Hr. cbn in Hr. now subst.
Qed.

Lemma read_only_getDetectors_rest :
  read_only (get_geo ≫= fun g => mret (GeometryManager.detectors_ g)).
Proof. auto with read_only. Qed.

Lemma read_only_getDetector_rest name :
  read_only (get_geo ≫= fun g =>
             find_detector name (GeometryManager.detectors_ g) ≫= fun found =>
             match found with
             | Some detector => mret detector
             | None => throw (InvalidDetectorError name)
             end).
Proof. pose proof (read_only_find_detector name). auto with read_only. Qed.

Lemma read_only_getDetectorsByType_rest type :
  read_only (get_geo ≫= fun g =>
             filter_by_type type (GeometryManager.detectors_ g) ≫= fun result =>
             match result with
             | [] => throw (InvalidModelError type)
             | _ => mret result
             end).
Proof. pose proof (read_only_filter_by_type type). auto with read_only. Qed.

Lemma read_only_getCoordinate_rest widen :
  read_only (get_geo ≫= fun g =>
             fold_detectors widen (GeometryManager.detectors_ g)
               (mkXYZ 0 0 0) ≫= fun point =>
             mret (fold_left widen (GeometryManager.points_ g) point)).
Proof. pose proof (read_only_fold_detectors widen). auto with read_only. Qed.
End closing.

(** C8: on a closed manager the closing step of an accessor does nothing:
    [getDetectors] returns the detectors, the other accessors that close
    return or throw, and all leave the manager (closed flag, detectors,
    models, points) and the objects as they are; in particular a second call
    of [getDetectors] returns what the first returned and changes
    nothing. *)
Theorem closing_idempotent (conv : FromString) (derived : DerivedModels)
    (fs : FileSystem) :
  (forall w, GeometryManager.closed_ (geo w) = true ->
     close_if_open w = (Ok tt, w)
     /\ getDetectors w = (Ok (GeometryManager.detectors_ (geo w)), w)
     /\ (forall name, snd (getDetector name w) = w)
     /\ (forall type, snd (getDetectorsByType type w) = w)
     /\ snd (getMinimumCoordinate w) = w
     /\ snd (getMaximumCoordinate w) = w)
  /\ (forall w r w', getDetectors w = (Ok r, w') ->
        GeometryManager.closed_ (geo w') = true
        /\ getDetectors w' = (Ok r, w')).
Proof.
  assert (forall w, GeometryManager.closed_ (geo w) = true ->
            getDetectors w = (Ok (GeometryManager.detectors_ (geo w)), w))
    as Hget.
  { intros w Hc. unfold getDetectors.
    rewrite (after_close _ w w read_only_getDetectors_rest
               (close_if_open_closed w Hc)). reflexivity. }
  split.
  - intros w Hc. pose proof (close_if_open_closed w Hc) as Hclose.
    split; [exact Hclose|]. split; [exact (Hget w Hc)|].
    split; [|split; [|split]].
    + intros name. unfold getDetector.
      now rewrite (after_close _ w w (read_only_getDetector_rest name) Hclose).
    + intros type. unfold getDetectorsByType.
      now rewrite (after_close _ w w (read_only_getDetectorsByType_rest type)
                     Hclose).
    + unfold getMinimumCoordinate.
      now rewrite (after_close _ w w (read_only_getCoordinate_rest lower)
                     Hclose).
    + unfold getMaximumCoordinate.
      now rewrite (after_close _ w w (read_only_getCoordinate_rest raise)
                     Hclose).
  - intros w r w' H.
    pose proof (accessor_Ok _ w r w' read_only_getDetectors_rest H) as Hclose.
    pose proof (close_if_open_closes w w' Hclose) as Hc.
    split; [exact Hc|]. rewrite (Hget w' Hc).
    unfold getDetectors in H.
    rewrite (after_close _ w w' read_only_getDetectors_rest Hclose) in H.
    cbn in H. injection H as <-. reflexivity.
Qed.

Lemma closing_idempotent_witness :
  GeometryManager.closed_ (geo one_closed) = true
  /\ getDetectors (conv := Sample.conv) (derived := Sample.derived)
       (fs := Sample.fs) one_loaded = (Ok [0%nat], one_closed)
  /\ getDetectors (conv := Sample.conv) (derived := Sample.derived)
       (fs := Sample.fs) one_closed = (Ok [0%nat], one_closed)
  /\ snd (getDetectorsByType (conv := Sample.conv) (derived := Sample.derived)
            (fs := Sample.fs) "Y" one_closed) = one_closed.
Proof.
  split; [reflexivity|].
  assert (getDetectors (conv := Sample.conv) (derived := Sample.derived)
            (fs := Sample.fs) one_loaded = (Ok [0%nat], one_closed)) as H
    by (vm_compute; reflexivity).
  split; [exact H|]. split.
  - apply (proj2 (closing_idempotent Sample.conv Sample.derived Sample.fs)
             one_loaded [0%nat] one_closed H).
  - apply (proj1 (closing_idempotent Sample.conv Sample.derived Sample.fs)
             one_closed eq_refl).
Defined.

(** ** Which accessors close *)

(** C6, as the code has it: [getDetectors], [getDetector],
    [getDetectorsByType], [getMinimumCoordinate] and [getMaximumCoordinate]
    start by closing an open geometry; when that closing step succeeds the
    manager is closed after the call (also when the accessor then throws for
    an unknown name or type), so it is closed after every call that returns.
    [getModels] and [getModel] are const: they return the registered models
    and close nothing. *)
Theorem closing_accessors (conv : FromString) (derived : DerivedModels)
    (fs : FileSystem) (w : World) :
  (GeometryManager.closed_ (geo w) = false ->
   close_if_open w = close_geometry w)
  /\ (forall w1, close_if_open w = (Ok tt, w1) ->
        GeometryManager.closed_ (geo w1) = true
        /\ getDetectors w = (Ok (GeometryManager.detectors_ (geo w1)), w1)
        /\ (forall name, snd (getDetector name w) = w1)
        /\ (forall type, snd (getDetectorsByType type w) = w1)
        /\ snd (getMinimumCoordinate w) = w1
        /\ snd (getMaximumCoordinate w) = w1)
  /\ (forall w',
        (exists r, getDetectors w = (Ok r, w'))
        \/ (exists name r, getDetector name w = (Ok r, w'))
        \/ (exists type r, getDetectorsByType type w = (Ok r, w'))
        \/ (exists r, getMinimumCoordinate w = (Ok r, w'))
        \/ (exists r, getMaximumCoordinate w = (Ok r, w')) ->
        GeometryManager.closed_ (geo w') = true)
  /\ getModels w = (Ok (GeometryManager.models_ (geo w)), w)
  /\ (forall name, snd (getModel name w) = w).
Proof.
  split; [apply close_if_open_open|]. split; [|split; [|split]].
  - intros w1 Hclose. split; [eapply close_if_open_closes, Hclose|].
    split; [|split; [|split; [|split]]].
    + unfold getDetectors.
      now rewrite (after_close _ w w1 read_only_getDetectors_rest Hclose).
    + intros name. unfold getDetector.
      now rewrite (after_close _ w w1 (read_only_getDetector_rest name) Hclose).
    + intros type. unfold getDetectorsByType.
      now rewrite (after_close _ w w1 (read_only_getDetectorsByType_rest type)
                     Hclose).
    + unfold getMinimumCoordinate.
      now rewrite (after_close _ w w1 (read_only_getCoordinate_rest lower)
                     Hclose).
    + unfold getMaximumCoordinate.
      now rewrite (after_close _ w w1 (read_only_getCoordinate_rest raise)
                     Hclose).
  - intros w' H. apply (close_if_open_closes w).
    destruct H as [[r H]|[(name & r & H)|[(type & r & H)|[[r H]|[r H]]]]].
    + eapply accessor_Ok, H. apply read_only_getDetectors_rest.
    + eapply accessor_Ok, H. apply read_only_getDetector_rest.
    + eapply accessor_Ok, H. apply read_only_getDetectorsByType_rest.
    + eapply accessor_Ok, H. apply (read_only_getCoordinate_rest lower).
    + eapply accessor_Ok, H. apply (read_only_getCoordinate_rest raise).
  - reflexivity.
  - intros name. apply read_only_getModel.
Qed.

Lemma closing_accessors_witness :
  GeometryManager.closed_ (geo one_loaded) = false
  /\ getDetector (conv := Sample.conv) (derived := Sample.derived)
       (fs := Sample.fs) "d1" one_loaded = (Ok 0%nat, one_closed)
  /\ GeometryManager.closed_ (geo one_closed) = true.
Proof.
  split; [reflexivity|].
  assert (getDetector (conv := Sample.conv) (derived := Sample.derived)
            (fs := Sample.fs) "d1" one_loaded = (Ok 0%nat, one_closed)) as H
    by (vm_compute; reflexivity).
  split; [exact H|].
  apply (closing_accessors Sample.conv Sample.derived Sample.fs one_loaded).
  right. left. exists "d1", 0%nat. exact H.
Defined.

(** [getModels] on an open manager with a detector loaded returns the (still
    empty) list of models and leaves the manager open: a read accessor that
    returns a model list and does not close. *)
Lemma getModels_leaves_open :
  GeometryManager.closed_ (geo one_loaded) = false
  /\ getModels one_loaded = (Ok [], one_loaded)
  /\ GeometryManager.closed_ (geo (snd (getModels one_loaded))) = false.
Proof. vm_compute. repeat split. Qed.

(** ** The bounding box of the geometry *)

Lemma xyz_le_refl a : xyz_le a a.
Proof. repeat split; apply Qle_refl. Qed.

Lemma xyz_le_trans a b c : xyz_le a b -> xyz_le b c -> xyz_le a c.
Proof.
  intros (H1 & H2 & H3) (K1 & K2 & K3).
  repeat split; eapply Qle_trans; eassumption.
Qed.

Lemma lower_le acc q : xyz_le (lower acc q) acc /\ xyz_le (lower acc q) q.
Proof.
  unfold lower, xyz_le; cbn.
  repeat split; first [apply Q.le_min_l | apply Q.le_min_r].
Qed.

Lemma raise_ge acc q : xyz_le acc (raise acc q) /\ xyz_le q (raise acc q).
Proof.
  unfold raise, xyz_le; cbn.
  repeat split; first [apply Q.le_max_l | apply Q.le_max_r].
Qed.

Lemma fold_lower_le qs : forall acc,
  xyz_le (fold_left lower qs acc) acc
  /\ Forall (fun q => xyz_le (fold_left lower qs acc) q) qs.
Proof.
  induction qs as [|q qs IH]; intros acc; cbn.
  - split; [apply xyz_le_refl|constructor].
  - destruct (IH (lower acc q)) as [H1 H2].
    destruct (lower_le acc q) as [L1 L2].
    split; [eapply xyz_le_trans; eassumption|].
    constructor; [eapply xyz_le_trans; eassumption|exact H2].
Qed.

Lemma fold_raise_ge qs : forall acc,
  xyz_le acc (fold_left raise qs acc)
  /\ Forall (fun q => xyz_le q (fold_left raise qs acc)) qs.
Proof.
  induction qs as [|q qs IH]; intros acc; cbn.
  - split; [apply xyz_le_refl|constructor].
  - destruct (IH (raise acc q)) as [H1 H2].
    destruct (raise_ge acc q) as [L1 L2].
    split; [eapply xyz_le_trans; eassumption|].
    constructor; [eapply xyz_le_trans; eassumption|exact H2].
Qed.

Lemma widen_coord (below : bool) ax acc q :
  coord ax ((if below then lower else raise) acc q)
  = (if below then Qmin else Qmax) (coord ax acc) (coord ax q).
Proof. destruct below, ax; reflexivity. Qed.

(** A running minimum or maximum of points is, on each axis, the start or
    one of the points. *)
Lemma fold_widen_attained (below : bool) ax qs : forall acc,
  let widen := if below then lower else raise in
  coord ax (fold_left widen qs acc) = coord ax acc
  \/ exists q, q ∈ qs /\ coord ax (fold_left widen qs acc) = coord ax q.
Proof.
  cbn zeta. induction qs as [|q0 qs IH]; intros acc; cbn [fold_left];
    [now left|].
  destruct (IH ((if below then lower else raise) acc q0)) as [H|(q & Hq & H)].
  - rewrite H, widen_coord.
    assert ((if below then Qmin else Qmax) (coord ax acc) (coord ax q0)
            = coord ax acc
            \/ (if below then Qmin else Qmax) (coord ax acc) (coord ax q0)
               = coord ax q0) as [E|E]
      by (destruct below; [apply Qmin_cases|apply Qmax_cases]).
    + left. exact E.
    + right. exists q0. split; [left|exact E].
  - right. exists q. split; [now right|exact H].
Qed.

Section bounding_box.
Context {conv : FromString} {derived : DerivedModels} {fs : FileSystem}.

(** The loop enumerates the corners of all eight sign combinations. *)
Lemma signed_corner_enumerated model d sx sy sz :
  sign sx -> sign sy -> sign sz ->
  Detector.getGlobalPosition (signed_corner model sx sy sz) d
  ∈ global_corners model d.
Proof.
  intros [-> | ->] [-> | ->] [-> | ->];
    [apply (list_elem_of_lookup_2 _ 0%nat)
    |apply (list_elem_of_lookup_2 _ 1%nat)
    |apply (list_elem_of_lookup_2 _ 2%nat)
    |apply (list_elem_of_lookup_2 _ 3%nat)
    |apply (list_elem_of_lookup_2 _ 4%nat)
    |apply (list_elem_of_lookup_2 _ 5%nat)
    |apply (list_elem_of_lookup_2 _ 6%nat)
    |apply (list_elem_of_lookup_2 _ 7%nat)]; reflexivity.
Qed.

Lemma model_of_Ok det w o w' :
  model_of det w = (Ok o, w') ->
  w' = w /\ exists d mp, detector_store w !! det = Some d
                         /\ Detector.getModel d = Some mp
                         /\ model_store w !! mp = Some o.
Proof.
  unfold model_of, mbind, M_bind, deref_detector, deref_model, throw.
  destruct (detector_store w !! det) as [d|]; [|discriminate].
  destruct (Detector.getModel d) as [mp|] eqn:Em; [|discriminate].
  destruct (model_store w !! mp) as [o'|] eqn:Eo; [|discriminate].
  intros [= <- <-]. split; [reflexivity|]. exists d, mp. auto.
Qed.

(** What the loop over the detectors computes, for the minimum
    ([below := true]) and for the maximum. *)
Lemma fold_detectors_bound (below : bool) ds : forall acc w p w',
  let widen := if below then lower else raise in
  let le a b := if below then xyz_le a b else xyz_le b a in
  fold_detectors widen ds acc w = (Ok p, w') ->
  w' = w /\ le p acc
  /\ forall det d mp o q,
       det ∈ ds -> detector_store w !! det = Some d ->
       Detector.getModel d = Some mp -> model_store w !! mp = Some o ->
       q ∈ global_corners o d -> le p q.
Proof.
  cbn zeta. induction ds as [|det0 ds IH]; intros acc w p w' H; cbn in H.
  - injection H as <- <-. split; [reflexivity|].
    split; [destruct below; apply xyz_le_refl|].
    intros det d mp o q Hin. inversion Hin.
  - apply bind_Ok in H as (d0 & w1 & Hd & H).
    unfold deref_detector in Hd.
    destruct (detector_store w !! det0) as [d0'|] eqn:Ed; [|discriminate].
    injection Hd as -> <-.
    apply bind_Ok in H as (o0 & w1 & Ho & H).
    apply model_of_Ok in Ho as (-> & d1 & mp0 & Ed1 & Em & Eo).
    assert (d1 = d0) as -> by congruence.
    apply IH in H as (-> & Hacc & Hrest). split; [reflexivity|].
    assert (forall q, (if below then xyz_le p q else xyz_le q p) ->
              forall q', (if below then xyz_le q q' else xyz_le q' q) ->
              if below then xyz_le p q' else xyz_le q' p) as Htrans
      by (destruct below; intros; eapply xyz_le_trans; eassumption).
    assert ((if below
             then xyz_le (fold_left lower (global_corners o0 d0) acc) acc
             else xyz_le acc (fold_left raise (global_corners o0 d0) acc))
            /\ forall q, q ∈ global_corners o0 d0 ->
                 if below
                 then xyz_le (fold_left lower (global_corners o0 d0) acc) q
                 else xyz_le q (fold_left raise (global_corners o0 d0) acc))
      as [Hstart Hcorners].
    { destruct below.
      - destruct (fold_lower_le (global_corners o0 d0) acc) as [F1 F2].
        split; [exact F1|]. now apply Forall_forall.
      - destruct (fold_raise_ge (global_corners o0 d0) acc) as [F1 F2].
        split; [exact F1|]. now apply Forall_forall. }
    split.
    + destruct below; eapply Htrans; eassumption.
    + intros det d mp o q [->|Hin]%elem_of_cons Hd Hm Hmo Hq.
      * assert (d = d0) as -> by congruence.
        assert (mp = mp0) as -> by congruence.
        assert (o = o0) as -> by congruence.
        destruct below; eapply Htrans; [exact Hacc|now apply Hcorners
                                       |exact Hacc|now apply Hcorners].
      * eapply Hrest; eassumption.
Qed.

Lemma fold_detectors_attained (below : bool) ax ds : forall acc w p w',
  let widen := if below then lower else raise in
  fold_detectors widen ds acc w = (Ok p, w') ->
  coord ax p = coord ax acc
  \/ exists det d mp o q,
       det ∈ ds /\ detector_store w !! det = Some d
       /\ Detector.getModel d = Some mp /\ model_store w !! mp = Some o
       /\ q ∈ global_corners o d /\ coord ax p = coord ax q.
Proof.
  cbn zeta. induction ds as [|det0 ds IH]; intros acc w p w' H; cbn in H.
  - injection H as <- <-. now left.
  - apply bind_Ok in H as (d0 & w1 & Hd & H).
    unfold deref_detector in Hd.
    destruct (detector_store w !! det0) as [d0'|] eqn:Ed; [|discriminate].
    injection Hd as -> <-.
    apply bind_Ok in H as (o0 & w1 & Ho & H).
    apply model_of_Ok in Ho as (-> & d1 & mp0 & Ed1 & Em & Eo).
    assert (d1 = d0) as -> by congruence.
    apply IH in H as [H|(det & d & mp & o & q & Hin & Hd & Hm & Ho & Hq & H)].
    + destruct (fold_widen_attained below ax (global_corners o0 d0) acc)
        as [E|(q & Hq & E)].
      * left. now rewrite H.
      * right. exists det0, d0, mp0, o0, q.
        repeat (split; [assumption || left|]). now rewrite H.
    + right. exists det, d, mp, o, q.
      split; [now right|]. auto.
Qed.

(** A model file nobody asked for is skipped. *)
Lemma load_model_file_unneeded name_reader w :
  GeometryManager.nonresolved_models_ (geo w) = ∅ ->
  load_model_file name_reader w = (Ok tt, w).
Proof.
  intros H.
  unfold load_model_file, hasModel, needsModel, mbind, M_bind, get_geo, mret,
    M_ret.
  case_bool_decide; [reflexivity|]. rewrite H, lookup_empty.
  rewrite bool_decide_eq_false_2 by (intros [? ?]; discriminate).
  reflexivity.
Qed.

Lemma load_models_unneeded w :
  GeometryManager.nonresolved_models_ (geo w) = ∅ ->
  is_Ok (read_models (GeometryManager.model_paths_ (geo w))) = true ->
  load_models w = (Ok tt, w).
Proof.
  intros Hnone Hread. unfold load_models.
  rewrite (bind_run get_geo _ w (geo w) w eq_refl).
  destruct (read_models _) as [readers|] eqn:E; [clear Hread|discriminate].
  rewrite (bind_run (lift (Ok readers)) _ w readers w eq_refl). clear E.
  induction readers as [|r readers IH]; cbn [for_each]; [reflexivity|].
  rewrite (bind_run _ _ _ _ _ (load_model_file_unneeded r w Hnone)).
  exact IH.
Qed.

Lemma close_geometry_empty w :
  GeometryManager.nonresolved_models_ (geo w) = ∅ ->
  is_Ok (read_models (GeometryManager.model_paths_ (geo w))) = true ->
  close_geometry w
  = (Ok tt, mkWorld (model_store w) (detector_store w)
              (GeometryManager.set_closed true (geo w))).
Proof.
  intros Hnone Hread. unfold close_geometry.
  rewrite (bind_run _ _ _ _ _ (load_models_unneeded w Hnone Hread)).
  rewrite (bind_run get_geo _ w (geo w) w eq_refl).
  rewrite Hnone. unfold std_map_items. rewrite map_to_list_empty.
  reflexivity.
Qed.

Lemma close_if_open_empty w :
  GeometryManager.nonresolved_models_ (geo w) = ∅ ->
  GeometryManager.closed_ (geo w) = true
  \/ is_Ok (read_models (GeometryManager.model_paths_ (geo w))) = true ->
  exists w1, close_if_open w = (Ok tt, w1)
             /\ GeometryManager.detectors_ (geo w1)
                = GeometryManager.detectors_ (geo w)
             /\ GeometryManager.points_ (geo w1)
                = GeometryManager.points_ (geo w).
Proof.
  intros Hnone Hok.
  destruct (GeometryManager.closed_ (geo w)) eqn:Ec.
  - exists w. split; [now apply close_if_open_closed|]. split; reflexivity.
  - destruct Hok as [Hok|Hok]; [discriminate|].
    eexists. rewrite close_if_open_open by exact Ec.
    split; [apply close_geometry_empty; assumption|]. split; reflexivity.
Qed.
End bounding_box.

Section bounding_box_result.
Context {conv : FromString} {derived : DerivedModels} {fs : FileSystem}.

Lemma getCoordinate_Ok widen w p w' :
  (close_if_open ≫= fun _ =>
   get_geo ≫= fun g =>
   fold_detectors widen (GeometryManager.detectors_ g) (mkXYZ 0 0 0)
     ≫= fun point =>
   mret (fold_left widen (GeometryManager.points_ g) point)) w = (Ok p, w') ->
  exists point,
    fold_detectors widen (GeometryManager.detectors_ (geo w')) (mkXYZ 0 0 0) w'
    = (Ok point, w')
    /\ p = fold_left widen (GeometryManager.points_ (geo w')) point.
Proof.
  intros H.
  pose proof (accessor_Ok _ w p w' (read_only_getCoordinate_rest widen) H)
    as Hclose.
  rewrite (bind_run _ _ _ _ _ Hclose) in H.
  rewrite (bind_run get_geo _ w' (geo w') w' eq_refl) in H.
  apply bind_Ok in H as (point & w1 & Hfold & H).
  pose proof (read_only_fold_detectors widen
                (GeometryManager.detectors_ (geo w')) (mkXYZ 0 0 0) w') as Hr.
  rewrite Hfold in Hr. cbn in Hr. subst w1.
  injection H as Hp. eauto.
Qed.

Lemma getCoordinate_empty widen w :
  empty_geometry w ->
  GeometryManager.closed_ (geo w) = true
  \/ is_Ok (read_models (GeometryManager.model_paths_ (geo w))) = true ->
  fst ((close_if_open ≫= fun _ =>
        get_geo ≫= fun g =>
        fold_detectors widen (GeometryManager.detectors_ g) (mkXYZ 0 0 0)
          ≫= fun point =>
        mret (fold_left widen (GeometryManager.points_ g) point)) w)
  = Ok (mkXYZ 0 0 0).
Proof.
  intros (Hd & Hp & Hn) Hok.
  destruct (close_if_open_empty w Hn Hok) as (w1 & Hclose & Hd1 & Hp1).
  rewrite (bind_run _ _ _ _ _ Hclose).
  rewrite (bind_run get_geo _ w1 (geo w1) w1 eq_refl).
  rewrite Hd1, Hp1, Hd, Hp. reflexivity.
Qed.
End bounding_box_result.

(** C9: the minimum that [getMinimumCoordinate] returns is at or below the
    origin on each axis; it is the greatest such point below the origin, the
    points that were added and the corners of the box of the model of every
    detector in global coordinates (on each axis it is at or below all of
    them and equal to one of them), these corners being center plus or minus
    half the size on each axis in all eight sign combinations.  The maximum
    of [getMaximumCoordinate] is the same from above.  For an empty geometry
    (whose closing has no file to fail on) both are the origin. *)
Theorem bounding_box_contains_origin (conv : FromString)
    (derived : DerivedModels) (fs : FileSystem) (w : World) :
  let covered (le : XYZ -> XYZ -> Prop) (p : XYZPoint) (w' : World) :=
    le p (mkXYZ 0 0 0)
    /\ (forall q, candidate w' q -> le p q)
    /\ (forall ax, exists q, candidate w' q /\ coord ax p = coord ax q)
    /\ (forall det d mp o sx sy sz,
          det ∈ GeometryManager.detectors_ (geo w') ->
          detector_store w' !! det = Some d ->
          Detector.getModel d = Some mp -> model_store w' !! mp = Some o ->
          sign sx -> sign sy -> sign sz ->
          candidate w' (Detector.getGlobalPosition
                          (signed_corner o sx sy sz) d)) in
  (forall p w', getMinimumCoordinate w = (Ok p, w') -> covered xyz_le p w')
  /\ (forall p w', getMaximumCoordinate w = (Ok p, w') ->
        covered (fun a b => xyz_le b a) p w')
  /\ (empty_geometry w ->
      GeometryManager.closed_ (geo w) = true
      \/ is_Ok (read_models (GeometryManager.model_paths_ (geo w))) = true ->
      fst (getMinimumCoordinate w) = Ok (mkXYZ 0 0 0)
      /\ fst (getMaximumCoordinate w) = Ok (mkXYZ 0 0 0)).
Proof.
  cbn zeta.
  assert (forall (below : bool) p w',
            (close_if_open ≫= fun _ =>
             get_geo ≫= fun g =>
             fold_detectors (if below then lower else raise)
               (GeometryManager.detectors_ g) (mkXYZ 0 0 0) ≫= fun point =>
             mret (fold_left (if below then lower else raise)
                     (GeometryManager.points_ g) point)) w = (Ok p, w') ->
            let le a b := if below then xyz_le a b else xyz_le b a in
            le p (mkXYZ 0 0 0)
            /\ (forall q, candidate w' q -> le p q)
            /\ (forall ax, exists q, candidate w' q /\ coord ax p = coord ax q)
            /\ (forall det d mp o sx sy sz,
                  det ∈ GeometryManager.detectors_ (geo w') ->
                  detector_store w' !! det = Some d ->
                  Detector.getModel d = Some mp ->
                  model_store w' !! mp = Some o ->
                  sign sx -> sign sy -> sign sz ->
                  candidate w' (Detector.getGlobalPosition
                                  (signed_corner o sx sy sz) d))) as Hboth.
  { intros below p w' H. cbn zeta.
    apply getCoordinate_Ok in H as (point & Hfold & ->).
    pose proof (fold_detectors_bound below _ _ _ _ _ Hfold)
      as (_ & Hpoint & Hcorners).
    assert (forall a b c,
              (if below then xyz_le a b else xyz_le b a) ->
              (if below then xyz_le b c else xyz_le c b) ->
              if below then xyz_le a c else xyz_le c a) as Htrans
      by (destruct below; intros; eapply xyz_le_trans; eassumption).
    set (points := GeometryManager.points_ (geo w')) in *.
    set (result := fold_left (if below then lower else raise) points point).
    assert ((if below then xyz_le result point else xyz_le point result)
            /\ forall q, q ∈ points ->
                 if below then xyz_le result q else xyz_le q result)
      as [Hle Hpoints].
    { subst result. destruct below.
      - destruct (fold_lower_le points point) as [F1 F2].
        split; [exact F1|]. now apply Forall_forall.
      - destruct (fold_raise_ge points point) as [F1 F2].
        split; [exact F1|]. now apply Forall_forall. }
    split; [eapply Htrans; eassumption|]. split; [|split].
    - intros q [->|[Hq|(det & d & mp & o & Hdet & Hd & Hm & Ho & Hq)]].
      + eapply Htrans; eassumption.
      + now apply Hpoints.
      + eapply Htrans; [exact Hle|]. eapply Hcorners; eassumption.
    - intros ax.
      destruct (fold_widen_attained below ax points point) as [E|(q & Hq & E)].
      + destruct (fold_detectors_attained below ax _ _ _ _ _ Hfold)
          as [E'|(det & d & mp & o & q & Hdet & Hd & Hm & Ho & Hq & E')].
        * exists (mkXYZ 0 0 0). split; [now left|]. subst result.
          now rewrite E, E'.
        * exists q. split; [right; right; eauto 10|]. subst result.
          now rewrite E, E'.
      + exists q. split; [right; now left|exact E].
    - intros det d mp o sx sy sz Hdet Hd Hm Ho Hx Hy Hz.
      right. right. exists det, d, mp, o.
      repeat (split; [assumption|]). now apply signed_corner_enumerated. }
  split; [|split].
  - intros p w' H. apply (Hboth true p w' H).
  - intros p w' H. apply (Hboth false p w' H).
  - intros Hempty Hok. split.
    + apply (getCoordinate_empty lower w Hempty Hok).
    + apply (getCoordinate_empty raise w Hempty Hok).
Qed.

Lemma bounding_box_contains_origin_witness :
  (exists p w',
     getMinimumCoordinate (conv := Sample.conv) (derived := Sample.derived)
       (fs := Sample.fs) two_loaded = (Ok p, w')
     /\ xyz_le p (mkXYZ 0 0 0))
  /\ (exists p w',
        getMaximumCoordinate (conv := Sample.conv) (derived := Sample.derived)
          (fs := Sample.fs) two_loaded = (Ok p, w')
        /\ xyz_le (mkXYZ 0 0 0) p)
  /\ fst (getMinimumCoordinate (conv := Sample.conv)
            (derived := Sample.derived) (fs := Sample.fs) empty_world)
     = Ok (mkXYZ 0 0 0).
Proof.
  pose proof (bounding_box_contains_origin Sample.conv Sample.derived
                Sample.fs two_loaded) as (Hmin & Hmax & _).
  split; [|split].
  - destruct (getMinimumCoordinate two_loaded) as [[p|e] w'] eqn:E;
      [|vm_compute in E; discriminate E].
    exists p, w'. split; [reflexivity|]. apply (proj1 (Hmin p w' eq_refl)).
  - destruct (getMaximumCoordinate two_loaded) as [[p|e] w'] eqn:E;
      [|vm_compute in E; discriminate E].
    exists p, w'. split; [reflexivity|]. apply (proj1 (Hmax p w' eq_refl)).
  - apply (bounding_box_contains_origin Sample.conv Sample.derived Sample.fs
             empty_world).
    + repeat split.
    + right. reflexivity.
Defined.

(** ** Closing: how the models are resolved *)

(** The constructor keeps the type name and the reader it was given. *)
Section constructor_keeps.
Context {conv : FromString}.

Lemma read_support_keeps support_config m m' :
  DetectorModel.read_support support_config m = Ok m' ->
  DetectorModel.type_ m' = DetectorModel.type_ m
  /\ DetectorModel.reader_ m' = DetectorModel.reader_ m.
Proof.
  unfold DetectorModel.read_support. intros H.
  outcome_inv H. subst m'. split; reflexivity.
Qed.

Lemma read_supports_keeps configs : forall m m',
  DetectorModel.read_supports configs m = Ok m' ->
  DetectorModel.type_ m' = DetectorModel.type_ m
  /\ DetectorModel.reader_ m' = DetectorModel.reader_ m.
Proof.
  induction configs as [|c configs IH]; intros m m' H; cbn in H.
  - injection H as <-. split; reflexivity.
  - outcome_inv H. apply IH in H as [-> ->].
    eapply read_support_keeps; eassumption.
Qed.

Lemma new_keeps type reader m :
  DetectorModel.new type reader = Ok m ->
  DetectorModel.type_ m = type /\ DetectorModel.reader_ m = reader.
Proof.
  unfold DetectorModel.new. intros H. outcome_inv H.
  apply read_supports_keeps in H as [-> ->]. split; reflexivity.
Qed.
End constructor_keeps.

Section resolving.
Context {conv : FromString} {derived : DerivedModels} {fs : FileSystem}.

Lemma parse_config_Ok name reader w p w' :
  parse_config name reader w = (Ok p, w') ->
  exists kind m,
    (kind = Hybrid \/ kind = Monolithic)
    /\ DetectorModel.new name reader = Ok m
    /\ p = fresh (dom (model_store w))
    /\ w' = mkWorld (<[p := ModelObject.mk kind m]> (model_store w))
                    (detector_store w) (geo w).
Proof.
  unfold parse_config. intros H.
  apply bind_Ok in H as (type & w1 & Htype & H).
  unfold lift in Htype. injection Htype as _ <-.
  assert (forall kind, make_model kind name reader w = (Ok p, w') ->
            exists m, DetectorModel.new name reader = Ok m
              /\ p = fresh (dom (model_store w))
              /\ w' = mkWorld (<[p := ModelObject.mk kind m]> (model_store w))
                              (detector_store w) (geo w)) as Hmake.
  { intros kind Hk. unfold make_model in Hk.
    apply bind_Ok in Hk as (m & w2 & Hm & Hk).
    unfold lift in Hm. injection Hm as Hm <-.
    apply bind_Ok in Hk as ([] & w2 & Hi & Hk).
    unfold lift in Hi. injection Hi as _ <-.
    unfold alloc_model in Hk. injection Hk as <- <-. eauto. }
  destruct (String.eqb type "hybrid").
  - apply Hmake in H as (m & ? & ? & ?). exists Hybrid, m. auto.
  - destruct (String.eqb type "monolithic"); [|discriminate H].
    apply Hmake in H as (m & ? & ? & ?). exists Monolithic, m. auto.
Qed.

Lemma find_model_Ok name models : forall w r w',
  find_model name models w = (Ok r, w') ->
  w' = w
  /\ match r with
     | Some g => g ∈ models
                 /\ exists og, model_store w !! g = Some og
                               /\ ModelObject.getType og = name
     | None => True
     end.
Proof.
  induction models as [|model models IH]; intros w r w' H; cbn in H.
  - injection H as <- <-. auto.
  - apply bind_Ok in H as (o & w1 & Ho & H). unfold deref_model in Ho.
    destruct (model_store w !! model) as [o'|] eqn:E; [|discriminate].
    injection Ho as -> <-.
    destruct (String.eqb (ModelObject.getType o) name) eqn:En.
    + injection H as <- <-. split; [reflexivity|].
      split; [left|]. exists o. split; [exact E|now apply String.eqb_eq].
    + apply IH in H as [-> Hr]. split; [reflexivity|].
      destruct r as [g|]; [|exact I]. destruct Hr as [Hin Hog].
      split; [now right|exact Hog].
Qed.

Lemma find_model_grow name models : forall w w2 r,
  model_store w ⊆ model_store w2 ->
  find_model name models w = (Ok r, w) ->
  find_model name models w2 = (Ok r, w2).
Proof.
  induction models as [|model models IH]; intros w w2 r Hsub H; cbn in *.
  - now injection H as <-.
  - apply bind_Ok in H as (o & w1 & Ho & H). unfold deref_model in Ho.
    destruct (model_store w !! model) as [o'|] eqn:E; [|discriminate].
    injection Ho as -> <-.
    assert (deref_model model w2 = (Ok o, w2)) as Hd.
    { unfold deref_model.
      now rewrite (lookup_weaken _ _ _ _ E Hsub). }
    rewrite (bind_run _ _ _ _ _ Hd).
    destruct (String.eqb (ModelObject.getType o) name).
    + now injection H as <-.
    + eapply IH; eassumption.
Qed.

Lemma getModel_Ok name w generic w' :
  getModel name w = (Ok generic, w') ->
  w' = w /\ generic ∈ GeometryManager.models_ (geo w)
  /\ exists og, model_store w !! generic = Some og
                /\ ModelObject.getType og = name.
Proof.
  unfold getModel. intros H.
  rewrite (bind_run get_geo _ w (geo w) w eq_refl) in H.
  apply bind_Ok in H as (found & w1 & Hf & H).
  apply find_model_Ok in Hf as [-> Hf].
  destruct found as [g|]; [|discriminate H].
  injection H as <- <-. auto.
Qed.

Lemma getModel_grow name w w2 generic :
  model_store w ⊆ model_store w2 ->
  GeometryManager.models_ (geo w2) = GeometryManager.models_ (geo w) ->
  getModel name w = (Ok generic, w) ->
  getModel name w2 = (Ok generic, w2).
Proof.
  unfold getModel. intros Hsub Hgeo H.
  rewrite (bind_run get_geo _ w (geo w) w eq_refl) in H.
  rewrite (bind_run get_geo _ w2 (geo w2) w2 eq_refl). rewrite Hgeo.
  apply bind_Ok in H as (found & w1 & Hf & H).
  pose proof (find_model_Ok _ _ _ _ _ Hf) as [-> _].
  rewrite (bind_run _ _ _ _ _ (find_model_grow _ _ _ _ _ Hsub Hf)).
  destruct found; [|discriminate H]. now injection H as <-.
Qed.
End resolving.

Section resolving_loop.
Context {conv : FromString} {derived : DerivedModels} {fs : FileSystem}.

(** One pending detector: what [resolve_model] does when it returns. *)
Lemma resolve_model_Ok type config det w w' :
  resolve_model type (config, det) w = (Ok tt, w') ->
  exists generic og d,
    getModel type w = (Ok generic, w)
    /\ generic ∈ GeometryManager.models_ (geo w)
    /\ model_store w !! generic = Some og
    /\ detector_store w !! det = Some d
    /\ if specialised config
       then exists o,
              (ModelObject.kind o = Hybrid \/ ModelObject.kind o = Monolithic)
              /\ DetectorModel.new type
                   (specialised_reader (specialisation config)
                      (DetectorModel.getConfigurations (ModelObject.base og)))
                 = Ok (ModelObject.base o)
              /\ w' = mkWorld
                        (<[fresh (dom (model_store w)) := o]> (model_store w))
                        (<[det := Detector.set_model
                                    (fresh (dom (model_store w))) d]>
                           (detector_store w))
                        (geo w)
       else w' = mkWorld (model_store w)
                   (<[det := Detector.set_model generic d]> (detector_store w))
                   (geo w).
Proof.
  unfold resolve_model. cbn [fst snd]. intros H.
  apply bind_Ok in H as (generic & w1 & Hg & H).
  pose proof (getModel_Ok _ _ _ _ Hg) as (-> & Hin & og & Hog & _).
  assert (deref_model generic w = (Ok og, w)) as Hd
    by (unfold deref_model; now rewrite Hog).
  rewrite (bind_run _ _ _ _ _ Hd) in H.
  apply bind_Ok in H as (model & w1 & Hm & H).
  assert (exists d, detector_store w1 !! det = Some d
                    /\ w' = mkWorld (model_store w1)
                              (<[det := Detector.set_model model d]>
                                 (detector_store w1)) (geo w1))
    as (d & Hdet & ->).
  { unfold set_model in H.
    destruct (detector_store w1 !! det) as [d|]; [|discriminate H].
    injection H as <-. eauto. }
  exists generic, og. unfold specialised.
  destruct (negb _).
  - apply parse_config_Ok in Hm as (kind & m & Hkind & Hnew & -> & ->).
    cbn [model_store detector_store geo] in *.
    exists d. repeat (split; [assumption|]).
    exists (ModelObject.mk kind m). auto.
  - injection Hm as <- <-. exists d. auto.
Qed.

Lemma for_each_app {A} (l1 l2 : list A) (body : A -> M unit) w :
  for_each (l1 ++ l2) body w
  = (for_each l1 body ≫= fun _ => for_each l2 body) w.
Proof.
  revert w. induction l1 as [|a l1 IH]; intros w; cbn [for_each app].
  - reflexivity.
  - unfold mbind, M_bind. destruct (body a w) as [[[]|e] w1]; [|reflexivity].
    apply IH.
Qed.

Lemma for_each_map {A B} (f : A -> B) (l : list A) (body : B -> M unit) w :
  for_each (List.map f l) body w = for_each l (fun a => body (f a)) w.
Proof.
  revert w. induction l as [|a l IH]; intros w; cbn; [reflexivity|].
  unfold mbind, M_bind. destruct (body (f a) w) as [[[]|e] w1];
    [apply IH|reflexivity].
Qed.

(** The two nested loops of [close_geometry] are one loop over the pending
    entries. *)
Lemma resolve_loop_flat items w :
  for_each items resolve_models w
  = for_each
      (flat_map (fun detectors_types =>
                   List.map (fun config_detector =>
                               (fst detectors_types, config_detector))
                            (snd detectors_types)) items)
      (fun entry => resolve_model (fst entry) (snd entry)) w.
Proof.
  revert w. induction items as [|[type cds] items IH]; intros w;
    cbn [for_each flat_map fst snd]; [reflexivity|].
  rewrite for_each_app. unfold mbind, M_bind.
  rewrite for_each_map. cbn [fst snd].
  change (resolve_models (type, cds) w)
    with (for_each cds (resolve_model type) w).
  destruct (for_each cds _ w) as [[[]|e] w1]; [apply IH|reflexivity].
Qed.
End resolving_loop.

Section resolving_all.
Context {conv : FromString} {derived : DerivedModels} {fs : FileSystem}.

Lemma fresh_model_None w : model_store w !! fresh (dom (model_store w)) = None.
Proof. apply not_elem_of_dom, is_fresh. Qed.

Lemma assigned_earlier w0 w1 w' type config det :
  model_store w0 ⊆ model_store w1 ->
  assigned w1 w' type config det -> assigned w0 w' type config det.
Proof.
  intros Hsub (d & generic & og & Hd & Hg & Hin & Hog & H).
  exists d, generic, og. repeat (split; [assumption|]).
  destruct (specialised config); [|exact H].
  destruct H as (p & o & Hp & Hne & Hnew & Ho & Hk & Hc).
  exists p, o. repeat (split; [assumption|]).
  split; [|auto].
  destruct (model_store w0 !! p) as [x|] eqn:E; [|reflexivity].
  rewrite (lookup_weaken _ _ _ _ E Hsub) in Hnew. discriminate.
Qed.

(** One step of the loop, as a change of the state. *)
Lemma resolve_model_step type config det w w' :
  resolve_model type (config, det) w = (Ok tt, w') ->
  exists generic og d model,
    getModel type w = (Ok generic, w)
    /\ generic ∈ GeometryManager.models_ (geo w)
    /\ model_store w !! generic = Some og
    /\ geo w' = geo w
    /\ model_store w ⊆ model_store w'
    /\ detector_store w'
       = <[det := Detector.set_model model d]> (detector_store w)
    /\ if specialised config
       then model <> generic
            /\ model_store w !! model = None
            /\ exists o,
                 model_store w' !! model = Some o
                 /\ (ModelObject.kind o = Hybrid
                     \/ ModelObject.kind o = Monolithic)
                 /\ DetectorModel.new type
                      (specialised_reader (specialisation config)
                         (DetectorModel.getConfigurations
                            (ModelObject.base og)))
                    = Ok (ModelObject.base o)
       else model = generic.
Proof.
  intros Hstep.
  apply resolve_model_Ok in Hstep
    as (generic & og & d & Hg & Hin & Hog & Hd & Hstep).
  exists generic, og, d.
  destruct (specialised config).
  - destruct Hstep as (o & Hk & Hnew & ->).
    cbn [geo model_store detector_store].
    exists (fresh (dom (model_store w))).
    repeat (split; [assumption || reflexivity|]).
    split; [apply insert_subseteq, fresh_model_None|].
    split; [reflexivity|].
    split; [|split; [apply fresh_model_None|]].
    + intros E. pose proof (fresh_model_None w) as F.
      rewrite E, Hog in F. discriminate.
    + exists o. split; [apply lookup_insert_eq|]. auto.
  - subst w'. cbn [geo model_store detector_store].
    exists generic. repeat (split; [assumption || reflexivity|]).
    reflexivity.
Qed.

(** The loop over the pending entries. *)
Lemma resolve_loop_Ok entries : forall w w',
  for_each entries (fun entry => resolve_model (fst entry) (snd entry)) w
  = (Ok tt, w') ->
  let detectors := List.map (fun entry => snd (snd entry)) entries in
  geo w' = geo w
  /\ model_store w ⊆ model_store w'
  /\ (forall det, det ∉ detectors ->
        detector_store w' !! det = detector_store w !! det)
  /\ (NoDup detectors ->
      forall type config det, (type, (config, det)) ∈ entries ->
        assigned w w' type config det).
Proof.
  cbn zeta.
  induction entries as [|[type0 [config0 det0]] entries IH]; intros w w' H.
  - cbn in H. injection H as <-.
    split; [reflexivity|]. split; [reflexivity|]. split; [reflexivity|].
    intros _ type config det Hin. inversion Hin.
  - cbn [for_each fst snd] in H.
    apply bind_Ok in H as ([] & wa & Hstep & H).
    apply IH in H as (Hgeo & Hsub & Hother & Hassigned). clear IH.
    apply resolve_model_step in Hstep
      as (generic & og & d & model & Hg & Hin & Hog & Hgeoa & Hsuba & Hdets
          & Hmodel).
    cbn [List.map fst snd].
    split; [congruence|]. split; [etransitivity; eassumption|]. split.
    + intros det Hdet. apply not_elem_of_cons in Hdet as [Hne Hdet].
      rewrite (Hother det Hdet), Hdets. now apply lookup_insert_ne.
    + intros Hnodup type config det Hentry.
      apply NoDup_cons in Hnodup as [Hfirst Hnodup].
      apply elem_of_cons in Hentry as [E|Hentry].
      * injection E as -> -> ->.
        exists (Detector.set_model model d), generic, og.
        split; [rewrite (Hother det0 Hfirst), Hdets; apply lookup_insert_eq|].
        split; [apply (getModel_grow type0 w w' generic);
                [etransitivity; eassumption|congruence|exact Hg]|].
        split; [now rewrite Hgeo, Hgeoa|].
        split; [eapply lookup_weaken; [exact Hog|];
                etransitivity; eassumption|].
        destruct (specialised config0).
        -- destruct Hmodel as (Hne & Hnone & o & Ho & Hk & Hnew).
           exists model, o. split; [reflexivity|].
           repeat (split; [assumption|]).
           split; [eapply lookup_weaken; eassumption|]. auto.
        -- now subst model.
      * eapply assigned_earlier; [exact Hsuba|].
        eapply Hassigned; eassumption.
Qed.

(** Two pending detectors that both specialise never get the same
    object. *)
Lemma resolve_loop_distinct entries : forall w w',
  for_each entries (fun entry => resolve_model (fst entry) (snd entry)) w
  = (Ok tt, w') ->
  NoDup (List.map (fun entry => snd (snd entry)) entries) ->
  forall t1 c1 det1 t2 c2 det2 d1 d2,
    (t1, (c1, det1)) ∈ entries -> (t2, (c2, det2)) ∈ entries ->
    det1 <> det2 -> specialised c1 = true -> specialised c2 = true ->
    detector_store w' !! det1 = Some d1 ->
    detector_store w' !! det2 = Some d2 ->
    Detector.getModel d1 <> Detector.getModel d2.
Proof.
  induction entries as [|[type0 [config0 det0]] entries IH];
    intros w w' H Hnodup t1 c1 det1 t2 c2 det2 d1 d2 H1 H2 Hne S1 S2 Hd1 Hd2;
    [inversion H1|].
  cbn [for_each fst snd] in H.
  apply bind_Ok in H as ([] & wa & Hstep & H).
  cbn [List.map fst snd] in Hnodup.
  apply NoDup_cons in Hnodup as [Hfirst Hnodup].
  pose proof (resolve_loop_Ok entries wa w' H) as (_ & Hsub & Hother & Hass).
  specialize (Hass Hnodup).
  apply resolve_model_step in Hstep
    as (generic & og & d & model & _ & _ & _ & _ & _ & Hdets & Hmodel).
  (* the head entry, specialised, against an entry of the tail *)
  assert (forall t c det dh dt,
            (t, (c, det)) ∈ entries -> specialised config0 = true ->
            specialised c = true ->
            detector_store w' !! det0 = Some dh ->
            detector_store w' !! det = Some dt ->
            Detector.getModel dh <> Detector.getModel dt) as Hhead.
  { intros t c det dh dt Hin Sh St Hdh Hdt.
    rewrite Sh in Hmodel. destruct Hmodel as (_ & _ & o & Ho & _).
    rewrite (Hother det0 Hfirst), Hdets, lookup_insert_eq in Hdh.
    injection Hdh as <-. cbn.
    destruct (Hass t c det Hin) as (dt' & g & og' & Hdt' & _ & _ & _ & Hspec).
    rewrite St in Hspec. destruct Hspec as (p & o' & Hp & _ & Hnone & _).
    assert (dt' = dt) as -> by congruence. rewrite Hp.
    intros [= <-]. rewrite Ho in Hnone. discriminate. }
  apply elem_of_cons in H1 as [E1|H1]; apply elem_of_cons in H2 as [E2|H2].
  - injection E1 as -> -> ->. injection E2 as -> -> ->. congruence.
  - injection E1 as -> -> ->. eapply Hhead; eassumption.
  - injection E2 as -> -> ->. intros E. symmetry in E. revert E.
    eapply Hhead; eassumption.
  - eapply (IH wa w' H Hnodup t1 c1 det1 t2 c2 det2); eassumption.
Qed.
End resolving_all.

(** ** Loading the models changes no detector and no pending entry *)

Section loading.
Context {conv : FromString} {derived : DerivedModels} {fs : FileSystem}.

Lemma models_loaded_refl w : models_loaded w w.
Proof. repeat split; auto. Qed.

Lemma models_loaded_trans w w1 w2 :
  models_loaded w w1 -> models_loaded w1 w2 -> models_loaded w w2.
Proof.
  intros (H1 & H2 & H3 & H4) (K1 & K2 & K3 & K4).
  split; [congruence|]. split; [congruence|].
  split; [etransitivity; eassumption|auto].
Qed.

Lemma addModel_Ok p w w1 :
  addModel (Some p) w = (Ok tt, w1) ->
  is_Some (model_store w !! p)
  /\ model_store w1 = model_store w
  /\ detector_store w1 = detector_store w
  /\ GeometryManager.nonresolved_models_ (geo w1)
     = GeometryManager.nonresolved_models_ (geo w)
  /\ GeometryManager.models_ (geo w1) = GeometryManager.models_ (geo w) ++ [p].
Proof.
  unfold addModel, mbind, M_bind, get_geo, throw, modify_geo, deref_model.
  destruct (GeometryManager.closed_ (geo w)); [discriminate|].
  destruct (model_store w !! p) as [o|]; [|discriminate].
  case_bool_decide; [discriminate|].
  intros [= <-]. cbn. eauto 10.
Qed.

Lemma load_model_file_Ok name_reader w w1 :
  load_model_file name_reader w = (Ok tt, w1) -> models_loaded w w1.
Proof.
  unfold load_model_file. intros H.
  apply bind_Ok in H as (known & w2 & Hk & H).
  unfold hasModel, mbind, M_bind, get_geo in Hk. injection Hk as _ <-.
  destruct known; [injection H as <-; apply models_loaded_refl|].
  apply bind_Ok in H as (needs & w2 & Hn & H).
  unfold needsModel, mbind, M_bind, get_geo in Hn. injection Hn as _ <-.
  destruct needs; cbn [negb] in H;
    [|injection H as <-; apply models_loaded_refl].
  apply bind_Ok in H as (model & w2 & Hp & H).
  apply parse_config_Ok in Hp as (kind & m & _ & _ & -> & ->).
  apply addModel_Ok in H as (_ & Hms & Hds & Hnr & Hmodels).
  cbn [model_store detector_store geo] in *.
  split; [exact Hnr|]. split; [exact Hds|].
  split; [rewrite Hms; apply insert_subseteq, fresh_model_None|].
  intros Hstored p. rewrite Hmodels, Hms.
  intros [Hp| ->%list_elem_of_singleton]%elem_of_app.
  - destruct (Hstored p Hp) as [o Ho]. exists o.
    eapply lookup_weaken;
      [exact Ho|apply insert_subseteq, fresh_model_None].
  - rewrite lookup_insert_eq. eauto.
Qed.

Lemma load_models_Ok w w1 :
  load_models w = (Ok tt, w1) -> models_loaded w w1.
Proof.
  unfold load_models. intros H.
  rewrite (bind_run get_geo _ w (geo w) w eq_refl) in H.
  apply bind_Ok in H as (readers & w2 & Hr & H).
  unfold lift in Hr. injection Hr as _ <-.
  revert w H. induction readers as [|r readers IH]; intros w H; cbn in H.
  - injection H as <-. apply models_loaded_refl.
  - apply bind_Ok in H as ([] & w2 & Hfile & H).
    eapply models_loaded_trans;
      [eapply load_model_file_Ok, Hfile|apply IH, H].
Qed.

(** [close_geometry], when it returns: the models were loaded, then the
    loop over the pending entries ran, then the flag was set. *)
Lemma close_geometry_Ok w w' :
  close_geometry w = (Ok tt, w') ->
  exists w1 w2,
    load_models w = (Ok tt, w1)
    /\ for_each (pending (geo w))
         (fun entry => resolve_model (fst entry) (snd entry)) w1
       = (Ok tt, w2)
    /\ w' = mkWorld (model_store w2) (detector_store w2)
              (GeometryManager.set_closed true (geo w2)).
Proof.
  unfold close_geometry. intros H.
  apply bind_Ok in H as ([] & w1 & Hload & H).
  rewrite (bind_run get_geo _ w1 (geo w1) w1 eq_refl) in H.
  apply bind_Ok in H as ([] & w2 & Hloop & H).
  unfold modify_geo in H. injection H as <-.
  exists w1, w2. split; [exact Hload|]. split; [|reflexivity].
  rewrite resolve_loop_flat in Hloop. unfold pending.
  destruct (load_models_Ok w w1 Hload) as (<- & _). exact Hloop.
Qed.
End loading.

(** ** The overlay of a specialised model *)

(** [std_map_items] goes through the keys in increasing order. *)
Lemma std_map_items_Sorted {V} (m : gmap string V) :
  Sorted key_le (std_map_items m).
Proof.
  apply Sorted_merge_sort. intros a b. unfold key_le.
  apply String.leb_total.
Qed.

Lemma std_map_items_Permutation {V} (m : gmap string V) :
  std_map_items m ≡ₚ map_to_list m.
Proof. apply merge_sort_Permutation. Qed.

Lemma std_map_items_NoDup {V} (m : gmap string V) :
  NoDup (std_map_items m).*1.
Proof.
  rewrite std_map_items_Permutation. apply NoDup_fst_map_to_list.
Qed.

Lemma std_map_items_to_map {V} (m : gmap string V) :
  list_to_map (std_map_items m) = m.
Proof.
  rewrite <- (list_to_map_to_list m) at 2.
  apply list_to_map_proper; [apply std_map_items_NoDup|].
  apply std_map_items_Permutation.
Qed.

(** The loop that copies the keys of a detector section into [new_config],
    from any start. *)
Lemma copy_extra_keys (settings : list (string * string)) :
  forall (new_config : Configuration.t) (key : string),
    NoDup settings.*1 ->
    Configuration.config_
      (fold_left
         (fun new_config key_value =>
            if is_internal (fst key_value) then new_config
            else Configuration.setText (fst key_value) (snd key_value)
                   new_config)
         settings new_config) !! key
    = if is_internal key then Configuration.config_ new_config !! key
      else match (list_to_map settings : gmap string string) !! key with
           | Some value => Some value
           | None => Configuration.config_ new_config !! key
           end.
Proof.
  induction settings as [|[k0 v0] settings IH]; intros new_config key Hnodup.
  - cbn. rewrite lookup_empty. now destruct (is_internal key).
  - cbn [fold_left fst snd]. cbn in Hnodup.
    apply NoDup_cons in Hnodup as [Hfirst Hnodup].
    rewrite (IH _ key Hnodup). clear IH. cbn [list_to_map foldr].
    change (foldr (fun '(k, v) => <[k := v]>) ∅ settings)
      with (list_to_map settings : gmap string string).
    destruct (is_internal key) eqn:Ekey.
    + destruct (is_internal k0) eqn:Ek0; [reflexivity|].
      cbn. apply lookup_insert_ne. intros ->. congruence.
    + destruct (decide (k0 = key)) as [->|Hne].
      * rewrite lookup_insert_eq, Ekey; cbn.
        rewrite (not_elem_of_list_to_map_1 _ _ Hfirst).
        apply lookup_insert_eq.
      * rewrite (lookup_insert_ne _ _ _ _ Hne).
        destruct (list_to_map settings !! key); [reflexivity|].
        destruct (is_internal k0); [reflexivity|].
        cbn. now apply lookup_insert_ne.
Qed.

(** The overlay has exactly the keys of the section that are not placement
    keys, with their values. *)
Lemma specialisation_lookup (config : Configuration.t) (key : string) :
  Configuration.config_ (specialisation config) !! key
  = if is_internal key then None
    else Configuration.config_ config !! key.
Proof.
  unfold specialisation, Configuration.getAll.
  rewrite copy_extra_keys by apply std_map_items_NoDup.
  rewrite std_map_items_to_map. cbn. rewrite lookup_empty.
  destruct (is_internal key); [reflexivity|].
  now destruct (Configuration.config_ config !! key).
Qed.

Lemma specialisation_name (config : Configuration.t) :
  Configuration.name_ (specialisation config) = "".
Proof.
  unfold specialisation.
  generalize (Configuration.getAll config) as settings.
  assert (Configuration.name_ (Configuration.new "") = "") as H
    by reflexivity.
  revert H. generalize (Configuration.new "") as c.
  intros c H settings. revert c H.
  induction settings as [|kv settings IH]; intros c H; cbn; [exact H|].
  apply IH. now destruct (is_internal (fst kv)).
Qed.

(** A section specialises its model exactly when it has a key that is not
    a placement key. *)
Lemma specialised_iff (config : Configuration.t) :
  specialised config = true
  <-> exists key value,
        Configuration.config_ config !! key = Some value
        /\ is_internal key = false.
Proof.
  unfold specialised, Configuration.countSettings.
  rewrite negb_true_iff, Nat.eqb_neq, map_size_ne_0_lookup. split.
  - intros (key & [value H]). rewrite specialisation_lookup in H.
    destruct (is_internal key) eqn:E; [discriminate|]. eauto.
  - intros (key & value & H & E). exists key, value.
    rewrite specialisation_lookup, E. exact H.
Qed.

Lemma merge_name other c :
  Configuration.name_ (Configuration.merge other c) = Configuration.name_ c.
Proof. reflexivity. Qed.

Lemma fold_merge_name configs : forall c,
  Configuration.name_
    (fold_left (fun h c => Configuration.merge c h) configs c)
  = Configuration.name_ c.
Proof.
  induction configs as [|c0 configs IH]; intros c; cbn; [reflexivity|].
  now rewrite IH.
Qed.

Lemma header_name (r : ConfigReader.t) :
  Configuration.name_ (ConfigReader.getHeaderConfiguration r) = "".
Proof.
  unfold ConfigReader.getHeaderConfiguration, ConfigReader.getConfigurationsNamed.
  destruct (List.filter _ r) as [|c0 rest] eqn:E; [reflexivity|].
  rewrite fold_merge_name.
  assert (In c0 (List.filter
                   (fun c => String.eqb (Configuration.getName c) "") r)) as H
    by (rewrite E; now left).
  apply filter_In in H as [_ H]. now apply String.eqb_eq in H.
Qed.

(** [getConfigurations]: the merged global section, then the sections with
    a name, in their order. *)
Lemma getConfigurations_shape (m : DetectorModel.t) :
  exists global,
    DetectorModel.getConfigurations m
    = global ::
      List.filter (fun c => negb (String.eqb (Configuration.getName c) ""))
                  (DetectorModel.reader_ m)
    /\ Configuration.name_ global = "".
Proof.
  unfold DetectorModel.getConfigurations, ConfigReader.getConfigurations.
  pose proof (header_name (DetectorModel.reader_ m)) as Hname.
  revert Hname.
  generalize (ConfigReader.getHeaderConfiguration (DetectorModel.reader_ m))
    as global.
  assert (forall l global acc,
            Configuration.name_ global = "" ->
            exists global',
              fold_left
                (fun acc config =>
                   if String.eqb (Configuration.getName config) ""
                   then (Configuration.merge config (fst acc), snd acc)
                   else (fst acc, snd acc ++ [config])) l (global, acc)
              = (global',
                 acc ++ List.filter
                          (fun c => negb (String.eqb (Configuration.getName c) ""))
                          l)
              /\ Configuration.name_ global' = "") as H.
  { induction l as [|c l IH]; intros global acc Hg; cbn [fold_left List.filter].
    - exists global. now rewrite List.app_nil_r.
    - destruct (String.eqb (Configuration.getName c) ""); cbn [fst snd negb].
      + apply IH. exact Hg.
      + destruct (IH global (acc ++ [c]) Hg) as (g' & -> & Hg').
        exists g'. now rewrite <- List.app_assoc. }
  intros global Hname.
  destruct (H (DetectorModel.reader_ m) global [] Hname) as (g' & -> & Hg').
  exists g'. auto.
Qed.

Lemma specialised_reader_shape new_config model_configs :
  specialised_reader new_config model_configs = new_config :: model_configs.
Proof.
  unfold specialised_reader, ConfigReader.addConfiguration, ConfigReader.new.
  change ([] ++ [new_config]) with [new_config].
  change (new_config :: model_configs) with ([new_config] ++ model_configs).
  generalize [new_config] as r. induction model_configs as [|c cs IH];
    intros r; cbn [fold_left]; [now rewrite List.app_nil_r|].
  rewrite IH, <- List.app_assoc. reflexivity.
Qed.

Lemma filter_named_unnamed (l : list Configuration.t) :
  List.filter (fun c => String.eqb (Configuration.getName c) "")
    (List.filter (fun c => negb (String.eqb (Configuration.getName c) "")) l)
  = [].
Proof.
  induction l as [|c l IH]; cbn; [reflexivity|].
  destruct (String.eqb (Configuration.getName c) "") eqn:E; cbn; [exact IH|].
  now rewrite E.
Qed.

Lemma filter_named_other name (l : list Configuration.t) :
  name <> "" ->
  List.filter (fun c => String.eqb (Configuration.getName c) name)
    (List.filter (fun c => negb (String.eqb (Configuration.getName c) "")) l)
  = List.filter (fun c => String.eqb (Configuration.getName c) name) l.
Proof.
  intros Hname. induction l as [|c l IH]; cbn; [reflexivity|].
  destruct (String.eqb (Configuration.getName c) "") eqn:E; cbn.
  - apply String.eqb_eq in E. rewrite E.
    assert (String.eqb "" name = false) as ->
      by (apply String.eqb_neq; congruence).
    exact IH.
  - now rewrite IH.
Qed.

(** The reader of a specialised model: in its header an overlay key comes
    first, any other key is that of the merged global section of the generic
    model; its sections with a name (the support layers) are those of the
    generic model. *)
Lemma specialised_reader_header (new_config : Configuration.t)
    (m : DetectorModel.t) (key : string) :
  Configuration.name_ new_config = "" ->
  let reader :=
    specialised_reader new_config (DetectorModel.getConfigurations m) in
  Configuration.config_ (ConfigReader.getHeaderConfiguration reader) !! key
  = match Configuration.config_ new_config !! key with
    | Some value => Some value
    | None =>
        Configuration.config_
          (hd (Configuration.new "") (DetectorModel.getConfigurations m))
        !! key
    end
  /\ forall name, name <> "" ->
       ConfigReader.getConfigurationsNamed name reader
       = ConfigReader.getConfigurationsNamed name (DetectorModel.reader_ m).
Proof.
  intros Hname. cbn zeta. rewrite specialised_reader_shape.
  destruct (getConfigurations_shape m) as (global & -> & Hglobal).
  cbn [hd]. split.
  - unfold ConfigReader.getHeaderConfiguration,
      ConfigReader.getConfigurationsNamed.
    cbn [List.filter].
    assert (String.eqb (Configuration.getName new_config) "" = true) as ->
      by (apply String.eqb_eq; exact Hname).
    assert (String.eqb (Configuration.getName global) "" = true) as ->
      by (apply String.eqb_eq; exact Hglobal).
    rewrite filter_named_unnamed.
    cbn. rewrite !lookup_union.
    destruct (Configuration.config_ new_config !! key);
      destruct (Configuration.config_ global !! key); reflexivity.
  - intros name Hn. unfold ConfigReader.getConfigurationsNamed.
    cbn [List.filter].
    assert (String.eqb (Configuration.getName new_config) name = false) as ->
      by (apply String.eqb_neq; unfold Configuration.getName; congruence).
    assert (String.eqb (Configuration.getName global) name = false) as ->
      by (apply String.eqb_neq; unfold Configuration.getName; congruence).
    now apply filter_named_other.
Qed.

(** ** Closing: every pending detector gets its model *)

Lemma elem_of_pending (g : GeometryManager.t) type config_detector :
  (type, config_detector) ∈ pending g
  <-> exists cds, GeometryManager.nonresolved_models_ g !! type = Some cds
                  /\ config_detector ∈ cds.
Proof.
  unfold pending. rewrite list_elem_of_In, in_flat_map. split.
  - intros ([t cds] & Hitem & Hin). cbn [fst snd] in Hin.
    apply in_map_iff in Hin as (cd & [= -> ->] & Hcd).
    exists cds. split; [|now apply list_elem_of_In].
    apply list_elem_of_In in Hitem.
    rewrite std_map_items_Permutation in Hitem.
    now apply elem_of_map_to_list in Hitem.
  - intros (cds & Hlookup & Hcd). exists (type, cds). split.
    + apply list_elem_of_In. rewrite std_map_items_Permutation.
      now apply elem_of_map_to_list.
    + cbn [fst snd]. apply in_map. now apply list_elem_of_In.
Qed.

Section closing_result.
Context {conv : FromString} {derived : DerivedModels} {fs : FileSystem}.

Lemma assigned_closed w1 w2 type config det :
  assigned w1 w2 type config det ->
  assigned w1 (mkWorld (model_store w2) (detector_store w2)
                 (GeometryManager.set_closed true (geo w2)))
           type config det.
Proof.
  intros (d & generic & og & Hd & Hg & Hin & Hog & H).
  exists d, generic, og. split; [exact Hd|].
  split; [|split; [exact Hin|split; [exact Hog|exact H]]].
  now apply (getModel_grow type w2 _ generic).
Qed.

(** What closing leaves: the state of the loop over the pending entries,
    started once the models are loaded. *)
Lemma close_geometry_result w w' :
  NoDup (pending_detectors (geo w)) ->
  close_geometry w = (Ok tt, w') ->
  exists w1 w2,
    load_models w = (Ok tt, w1)
    /\ models_loaded w w1
    /\ for_each (pending (geo w))
         (fun entry => resolve_model (fst entry) (snd entry)) w1
       = (Ok tt, w2)
    /\ geo w2 = geo w1
    /\ detector_store w' = detector_store w2
    /\ model_store w' = model_store w2
    /\ forall type config det, (type, (config, det)) ∈ pending (geo w) ->
         assigned w1 w2 type config det /\ assigned w1 w' type config det.
Proof.
  intros Hnodup H.
  apply close_geometry_Ok in H as (w1 & w2 & Hload & Hloop & ->).
  exists w1, w2. split; [exact Hload|].
  split; [eapply load_models_Ok, Hload|]. split; [exact Hloop|].
  destruct (resolve_loop_Ok _ _ _ Hloop) as (Hgeo & _ & _ & Hassigned).
  split; [exact Hgeo|]. split; [reflexivity|]. split; [reflexivity|].
  intros type config det Hin.
  pose proof (Hassigned Hnodup type config det Hin) as Ha.
  split; [exact Ha|now apply assigned_closed].
Qed.
End closing_result.

(** ** Which detectors share a model *)

(** C5, as the code has it: after closing, two pending detectors of one type
    whose sections have no key besides the placement keys have the same
    model, the generic one; a detector whose section has such a key has a
    model that no other pending detector has, whatever the section of the
    other detector holds (also the very same keys and values). *)
Theorem private_clones (conv : FromString) (derived : DerivedModels)
    (fs : FileSystem) (w w' : World) :
  NoDup (pending_detectors (geo w)) ->
  models_stored w ->
  close_geometry w = (Ok tt, w') ->
  forall type1 cds1 config1 det1 type2 cds2 config2 det2,
    GeometryManager.nonresolved_models_ (geo w) !! type1 = Some cds1 ->
    (config1, det1) ∈ cds1 ->
    GeometryManager.nonresolved_models_ (geo w) !! type2 = Some cds2 ->
    (config2, det2) ∈ cds2 ->
    det1 <> det2 ->
    exists d1 d2,
      detector_store w' !! det1 = Some d1
      /\ detector_store w' !! det2 = Some d2
      /\ (type1 = type2 -> specialised config1 = false ->
          specialised config2 = false ->
          Detector.getModel d1 = Detector.getModel d2
          /\ exists generic, Detector.getModel d1 = Some generic
                             /\ getModel type1 w' = (Ok generic, w'))
      /\ (specialised config1 = true ->
          Detector.getModel d1 <> Detector.getModel d2).
Proof.
  intros Hnodup Hstored H type1 cds1 config1 det1 type2 cds2 config2 det2
    Hl1 Hin1 Hl2 Hin2 Hne.
  apply close_geometry_result in H
    as (w1 & w2 & Hload & Hloaded & Hloop & Hgeo & Hdets & Hms & Hassigned);
    [|exact Hnodup].
  assert ((type1, (config1, det1)) ∈ pending (geo w)) as He1
    by (apply elem_of_pending; eauto).
  assert ((type2, (config2, det2)) ∈ pending (geo w)) as He2
    by (apply elem_of_pending; eauto).
  destruct (Hassigned _ _ _ He1) as [A1 (d1 & g1 & og1 & Hd1 & Hg1 & _ & _ & Hs1)].
  destruct (Hassigned _ _ _ He2) as [A2 (d2 & g2 & og2 & Hd2 & Hg2 & _ & _ & Hs2)].
  exists d1, d2. split; [exact Hd1|]. split; [exact Hd2|]. split.
  - intros <- S1 S2. rewrite S1 in Hs1. rewrite S2 in Hs2.
    assert (g2 = g1) as -> by congruence.
    split; [congruence|]. exists g1. auto.
  - intros S1. rewrite S1 in Hs1.
    destruct Hs1 as (p1 & o1 & Hp1 & _ & Hnone1 & _).
    destruct (specialised config2) eqn:S2.
    + rewrite Hdets in Hd1, Hd2.
      eapply (resolve_loop_distinct _ _ _ Hloop Hnodup
                type1 config1 det1 type2 config2 det2); eassumption.
    + destruct A2 as (d2' & g2' & og2' & Hd2' & _ & Hgin2 & _ & Hs2').
      rewrite S2 in Hs2'. rewrite Hdets in Hd2.
      assert (d2' = d2) as -> by congruence.
      rewrite Hp1, Hs2'. intros [= E]. rewrite E in Hnone1.
      destruct Hloaded as (_ & _ & _ & Hst). specialize (Hst Hstored g2').
      rewrite <- Hgeo in Hst. destruct (Hst Hgin2) as [x Hx]. congruence.
Qed.

Lemma private_clones_witness :
  exists w' d1 d2,
    close_geometry (conv := Sample.conv) (derived := Sample.derived)
      (fs := Sample.fs) two_loaded = (Ok tt, w')
    /\ detector_store w' !! 1%nat = Some d1
    /\ detector_store w' !! 0%nat = Some d2
    /\ Detector.getModel d1 <> Detector.getModel d2.
Proof.
  destruct (close_geometry (conv := Sample.conv) (derived := Sample.derived)
              (fs := Sample.fs) two_loaded) as [[[]|e] w'] eqn:E;
    [|vm_compute in E; discriminate E].
  assert (NoDup (pending_detectors (geo two_loaded))) as Hnodup
    by (apply (bool_decide_unpack _); vm_compute; exact I).
  assert (models_stored two_loaded) as Hstored
    by (intros p Hp; vm_compute in Hp; inversion Hp).
  assert (GeometryManager.nonresolved_models_ (geo two_loaded) !! "X"
          = Some [(fst (fst (Sample.plain "d1")), 0%nat);
                  (fst (fst (Sample.thick "d2")), 1%nat)]) as Hpending
    by (vm_compute; reflexivity).
  destruct (private_clones Sample.conv Sample.derived Sample.fs two_loaded w'
              Hnodup Hstored E "X" _ (fst (fst (Sample.thick "d2"))) 1%nat
              "X" _ (fst (fst (Sample.plain "d1"))) 0%nat
              Hpending ltac:(right; left) Hpending ltac:(left) ltac:(lia))
    as (d1 & d2 & Hd1 & Hd2 & _ & Hdistinct).
  exists w', d1, d2. split; [reflexivity|]. split; [exact Hd1|].
  split; [exact Hd2|]. apply Hdistinct. vm_compute. reflexivity.
Defined.

(** Two detectors of type "X" whose sections hold the same keys with the
    same values, so that their overrides are identical, have two different
    model objects after closing. *)
Lemma identical_overrides_distinct_instances :
  exists w' c2 c3 d2 d3,
    close_geometry (conv := Sample.conv) (derived := Sample.derived)
      (fs := Sample.fs) twins_loaded = (Ok tt, w')
    /\ GeometryManager.nonresolved_models_ (geo twins_loaded) !! "X"
       = Some [(c2, 0%nat); (c3, 1%nat)]
    /\ Configuration.config_ c2 = Configuration.config_ c3
    /\ specialisation c2 = specialisation c3
    /\ detector_store w' !! 0%nat = Some d2
    /\ detector_store w' !! 1%nat = Some d3
    /\ Detector.getModel d2 = Some 1%nat
    /\ Detector.getModel d3 = Some 2%nat
    /\ Detector.getModel d2 <> Detector.getModel d3.
Proof.
  do 5 eexists.
  split; [vm_compute; reflexivity|]. split; [vm_compute; reflexivity|].
  split; [vm_compute; reflexivity|]. split; [vm_compute; reflexivity|].
  split; [vm_compute; reflexivity|]. split; [vm_compute; reflexivity|].
  split; [reflexivity|]. split; [reflexivity|]. discriminate.
Qed.

(** The example of the specification: of two detectors of type "X", the one
    without extra parameters has the generic model, the one that overrides
    [sensor_thickness] has another object, with the thickness of its section
    and the pixel grid of the generic model. *)
Example specialisation_example :
  exists w' d1 d2 generic clone,
    getDetectors (conv := Sample.conv) (derived := Sample.derived)
      (fs := Sample.fs) two_loaded = (Ok [0%nat; 1%nat], w')
    /\ getModel "X" w' = (Ok 0%nat, w')
    /\ detector_store w' !! 0%nat = Some d1
    /\ detector_store w' !! 1%nat = Some d2
    /\ Detector.getModel d1 = Some 0%nat
    /\ Detector.getModel d2 = Some 1%nat
    /\ model_store w' !! 0%nat = Some generic
    /\ model_store w' !! 1%nat = Some clone
    /\ DetectorModel.sensor_thickness_ (ModelObject.base generic) = 300
    /\ DetectorModel.sensor_thickness_ (ModelObject.base clone) = 500
    /\ DetectorModel.getNPixels (ModelObject.base clone)
       = DetectorModel.getNPixels (ModelObject.base generic)
    /\ DetectorModel.getNPixels (ModelObject.base clone) = mkXYInt 2 2.
Proof.
  do 5 eexists.
  split; [vm_compute; reflexivity|]. split; [vm_compute; reflexivity|].
  split; [vm_compute; reflexivity|]. split; [vm_compute; reflexivity|].
  split; [reflexivity|]. split; [reflexivity|].
  split; [vm_compute; reflexivity|]. split; [vm_compute; reflexivity|].
  repeat split.
Qed.

(** ** The states that [load] builds *)

Lemma pending_Permutation (g g' : GeometryManager.t) :
  map_to_list (GeometryManager.nonresolved_models_ g)
  ≡ₚ map_to_list (GeometryManager.nonresolved_models_ g') ->
  pending g ≡ₚ pending g'.
Proof.
  intros H. unfold pending. apply Permutation_flat_map.
  now rewrite !std_map_items_Permutation.
Qed.

(** One more pending entry, whatever the type had pending before. *)
Lemma pending_emplace_back (g : GeometryManager.t) type entry :
  pending
    (GeometryManager.set_nonresolved_models
       (<[type := default [] (GeometryManager.nonresolved_models_ g !! type)
                  ++ [entry]]> (GeometryManager.nonresolved_models_ g)) g)
  ≡ₚ pending g ++ [(type, entry)].
Proof.
  unfold pending. cbn [GeometryManager.nonresolved_models_
                         GeometryManager.set_nonresolved_models].
  rewrite !std_map_items_Permutation.
  destruct (GeometryManager.nonresolved_models_ g !! type) as [old|] eqn:E;
    cbn [default].
  - rewrite <- insert_delete_eq.
    rewrite map_to_list_insert by apply lookup_delete_eq.
    rewrite <- (map_to_list_delete _ _ _ E).
    cbn [flat_map fst snd]. rewrite map_app. cbn [List.map].
    rewrite <- !List.app_assoc. apply Permutation_app_head.
    apply Permutation_app_comm.
  - rewrite map_to_list_insert by exact E.
    cbn [flat_map fst snd app List.map]. apply Permutation_cons_append.
Qed.

Section loaded_states.
Context {conv : FromString} {derived : DerivedModels} {fs : FileSystem}.

Lemma well_formed_empty : well_formed empty_world.
Proof.
  split; [|split].
  - unfold pending_detectors, pending. cbn.
    unfold std_map_items. rewrite map_to_list_empty. constructor.
  - unfold pending_detectors, pending. cbn.
    unfold std_map_items. rewrite map_to_list_empty.
    intros det Hdet. inversion Hdet.
  - intros p Hp. inversion Hp.
Qed.

(** A change of the manager that keeps the pending entries and the models,
    with more detector objects. *)
Lemma well_formed_frame w w' :
  well_formed w ->
  GeometryManager.nonresolved_models_ (geo w')
  = GeometryManager.nonresolved_models_ (geo w) ->
  GeometryManager.models_ (geo w') = GeometryManager.models_ (geo w) ->
  model_store w' = model_store w ->
  detector_store w ⊆ detector_store w' ->
  well_formed w'.
Proof.
  intros (Hnodup & Hobjects & Hmodels) Hnr Hms Hstore Hsub.
  assert (pending_detectors (geo w') = pending_detectors (geo w)) as Hp
    by (unfold pending_detectors, pending; now rewrite Hnr).
  split; [now rewrite Hp|]. split.
  - intros det Hdet. rewrite Hp in Hdet.
    destruct (Hobjects det Hdet) as [d Hd]. exists d.
    eapply lookup_weaken; eassumption.
  - intros p Hp'. rewrite Hms in Hp'. rewrite Hstore. now apply Hmodels.
Qed.

Lemma addDetector_Ok p w w' :
  addDetector (Some p) w = (Ok tt, w') ->
  model_store w' = model_store w
  /\ detector_store w' = detector_store w
  /\ GeometryManager.nonresolved_models_ (geo w')
     = GeometryManager.nonresolved_models_ (geo w)
  /\ GeometryManager.models_ (geo w') = GeometryManager.models_ (geo w)
  /\ GeometryManager.detectors_ (geo w')
     = GeometryManager.detectors_ (geo w) ++ [p].
Proof.
  unfold addDetector, mbind, M_bind, get_geo, throw, modify_geo,
    deref_detector.
  destruct (GeometryManager.closed_ (geo w)); [discriminate|].
  destruct (detector_store w !! p) as [d|]; [|discriminate].
  destruct (String.eqb _ _); [discriminate|].
  case_bool_decide; [discriminate|].
  intros [= <-]. cbn. auto.
Qed.

(** [load] of one detector section keeps the state well formed, whether it
    returns or throws. *)
Lemma load_detector_well_formed section w r w' :
  well_formed w -> load_detector section w = (r, w') -> well_formed w'.
Proof.
  destruct section as [[detector_section position] orientation].
  intros Hwf H. unfold load_detector in H.
  unfold mbind at 1, M_bind at 1, lift at 1 in H.
  destruct (Configuration.get_def _ _ _ _) as [mode|e];
    [|now injection H as _ <-].
  destruct (_ && _)%bool; [now injection H as _ <-|].
  unfold mbind at 1, M_bind at 1, alloc_detector at 1 in H.
  set (det := fresh (dom (detector_store w))) in H.
  set (wa := mkWorld _ _ _) in H.
  assert (detector_store w !! det = None) as Hfresh
    by apply not_elem_of_dom, is_fresh.
  assert (well_formed wa) as Hwa.
  { apply (well_formed_frame w); try reflexivity; [exact Hwf|].
    subst wa. cbn. now apply insert_subseteq. }
  assert (det ∉ pending_detectors (geo wa)) as Hnew.
  { intros Hin. destruct Hwf as (_ & Hobjects & _).
    destruct (Hobjects det Hin) as [d Hd]. congruence. }
  assert (is_Some (detector_store wa !! det)) as Hdet
    by (subst wa; cbn; rewrite lookup_insert_eq; eauto).
  clearbody wa det. clear Hfresh Hwf.
  unfold mbind at 1, M_bind at 1 in H.
  destruct (addDetector (Some det) wa) as [[[]|e] wb] eqn:Eadd.
  2:{ injection H as _ <-. apply addDetector_throws in Eadd. now subst. }
  apply addDetector_Ok in Eadd as (Hms & Hds & Hnr & Hmodels & _).
  assert (well_formed wb) as Hwb.
  { apply (well_formed_frame wa); try assumption. now rewrite Hds. }
  assert (det ∉ pending_detectors (geo wb)) as Hnewb
    by (unfold pending_detectors, pending in *; now rewrite Hnr).
  assert (is_Some (detector_store wb !! det)) as Hdetb by now rewrite Hds.
  clear Hwa Hnew Hdet Hms Hds Hnr Hmodels wa.
  unfold mbind at 1, M_bind at 1, lift at 1 in H.
  destruct (Configuration.get _ _ _) as [type|e];
    [|now injection H as _ <-].
  unfold modify_geo in H. injection H as _ <-.
  destruct Hwb as (Hnodup & Hobjects & Hmodels).
  assert (pending_detectors
            (GeometryManager.set_nonresolved_models
               (<[type := default []
                            (GeometryManager.nonresolved_models_ (geo wb)
                             !! type) ++ [(detector_section, det)]]>
                  (GeometryManager.nonresolved_models_ (geo wb))) (geo wb))
          ≡ₚ pending_detectors (geo wb) ++ [det]) as Hperm.
  { unfold pending_detectors. rewrite pending_emplace_back.
    now rewrite map_app. }
  split; [|split]; cbn [geo detector_store model_store].
  - rewrite Hperm. apply NoDup_app. split; [exact Hnodup|].
    split; [|apply NoDup_singleton].
    intros x Hx ->%list_elem_of_singleton. contradiction.
  - intros x Hx. rewrite Hperm in Hx.
    apply elem_of_app in Hx as [Hx| ->%list_elem_of_singleton]; auto.
  - exact Hmodels.
Qed.

Lemma load_well_formed sections model_paths w r w' :
  well_formed w -> load sections model_paths w = (r, w') -> well_formed w'.
Proof.
  unfold load. intros Hwf H.
  assert (forall w r w', well_formed w ->
            for_each sections load_detector w = (r, w') -> well_formed w')
    as Hloop.
  { clear. induction sections as [|s sections IH]; intros w r w' Hwf H;
      cbn in H.
    - now injection H as _ <-.
    - unfold mbind, M_bind in H.
      destruct (load_detector s w) as [[[]|e] wa] eqn:E.
      + eapply IH; [|exact H]. eapply load_detector_well_formed; eassumption.
      + injection H as _ <-. eapply load_detector_well_formed; eassumption. }
  unfold mbind, M_bind in H.
  destruct (for_each sections load_detector w) as [[[]|e] wa] eqn:E.
  - unfold modify_geo in H. injection H as _ <-.
    apply (well_formed_frame wa); try reflexivity.
    eapply Hloop; eassumption.
  - injection H as _ <-. eapply Hloop; eassumption.
Qed.
End loaded_states.

(** * Further properties of the constructor *)

(** ** What a getter throws *)

Lemma get_Ok {T} (conv : string -> option T) key c v :
  Configuration.get conv key c = Ok v ->
  exists txt, Configuration.config_ c !! key = Some txt /\ conv txt = Some v.
Proof.
  unfold Configuration.get. intros H.
  destruct (Configuration.config_ c !! key) as [txt|]; [|discriminate H].
  destruct (conv txt) as [v'|] eqn:E; [|discriminate H].
  injection H as ->. eauto.
Qed.

Lemma get_Throw {T} (conv : string -> option T) key c e :
  Configuration.get conv key c = Throw e ->
  (e = MissingKeyError key /\ Configuration.config_ c !! key = None)
  \/ (e = InvalidKeyError key
      /\ exists txt, Configuration.config_ c !! key = Some txt
                     /\ conv txt = None).
Proof.
  unfold Configuration.get. intros H.
  destruct (Configuration.config_ c !! key) as [txt|].
  - destruct (conv txt) eqn:E; [discriminate H|].
    injection H as <-. right. eauto.
  - injection H as <-. left. auto.
Qed.

Lemma has_lookup key c :
  Configuration.has key c = true <-> is_Some (Configuration.config_ c !! key).
Proof.
  unfold Configuration.has. apply bool_decide_eq_true.
Qed.

Lemma has_None key c :
  Configuration.has key c = false <-> Configuration.config_ c !! key = None.
Proof.
  rewrite <- not_true_iff_false, has_lookup, <- eq_None_not_Some. reflexivity.
Qed.

(** A getter with a default never misses its key. *)
Lemma get_def_Throw {T} (conv : string -> option T) key def c e :
  Configuration.get_def conv key def c = Throw e ->
  e = InvalidKeyError key
  /\ exists txt, Configuration.config_ c !! key = Some txt /\ conv txt = None.
Proof.
  unfold Configuration.get_def. intros H.
  destruct (Configuration.has key c) eqn:Ehas; [|discriminate H].
  apply get_Throw in H as [[_ H]|H]; [|exact H].
  apply has_lookup in Ehas as [txt Htxt]. congruence.
Qed.

Lemma get_def_None {T} (conv : string -> option T) key def c :
  Configuration.config_ c !! key = None ->
  Configuration.get_def conv key def c = Ok def.
Proof.
  intros H. unfold Configuration.get_def.
  apply has_None in H. now rewrite H.
Qed.

Lemma get_def_Some {T} (conv : string -> option T) key def c txt :
  Configuration.config_ c !! key = Some txt ->
  Configuration.get_def conv key def c
  = match conv txt with Some v => Ok v | None => Throw (InvalidKeyError key) end.
Proof.
  intros H. unfold Configuration.get_def.
  assert (Configuration.has key c = true) as ->
    by (apply has_lookup; eauto).
  unfold Configuration.get. now rewrite H.
Qed.

(** ** What the constructor makes of its sections *)

Section constructor_results.
Context {conv : FromString}.

(** One "support" section adds one layer, which depends on the section
    only, and leaves the rest of the model alone. *)
Lemma read_support_layer support_config m m' :
  DetectorModel.read_support support_config m = Ok m' ->
  exists l,
    m' = DetectorModel.set_support_layers
           (DetectorModel.support_layers_ m ++ [l]) m
    /\ (forall m2,
          DetectorModel.read_support support_config m2
          = Ok (DetectorModel.set_support_layers
                  (DetectorModel.support_layers_ m2 ++ [l]) m2))
    /\ Configuration.get as_double "thickness" support_config
       = Ok (pz (SupportLayer.getSize l))
    /\ (exists location,
          Configuration.get_def as_string "location" "chip" support_config
          = Ok location
          /\ SupportLayer.location_ l = tolower location)
    /\ (SupportLayer.location_ l = "sensor"
        \/ SupportLayer.location_ l = "chip"
        \/ SupportLayer.location_ l = "absolute")
    /\ (SupportLayer.location_ l <> "absolute" ->
        pz (SupportLayer.offset_ l) = 0)
    /\ (Configuration.has "hole_size" support_config = false ->
        SupportLayer.hasHole l = false).
Proof.
  unfold DetectorModel.read_support. intros H. outcome_inv H. subst m'.
  eexists. split; [reflexivity|]. split; [|split; [|split; [|split; [|split]]]].
  - intros m2. unfold mbind, outcome_bind. rewrite E2.
    unfold mbind, outcome_bind in E3. rewrite E3. reflexivity.
  - reflexivity.
  - eexists. split; reflexivity.
  - cbn. rewrite !andb_false_iff, !negb_false_iff, !String.eqb_eq in E2.
    tauto.
  - cbn. intros Hloc.
    match type of E3 with
    | (if ?b then _ else _) = _ => destruct b eqn:Eabs
    end.
    + apply String.eqb_eq in Eabs. contradiction.
    + outcome_inv E3. subst. reflexivity.
  - intros Hhole. cbn.
    unfold Configuration.get_def in E5. rewrite Hhole in E5.
    injection E5 as <-. reflexivity.
Qed.

Lemma read_supports_layers configs : forall m m',
  DetectorModel.read_supports configs m = Ok m' ->
  exists ls,
    m' = DetectorModel.set_support_layers
           (DetectorModel.support_layers_ m ++ ls) m
    /\ (forall m2,
          DetectorModel.read_supports configs m2
          = Ok (DetectorModel.set_support_layers
                  (DetectorModel.support_layers_ m2 ++ ls) m2))
    /\ Forall2
         (fun c l =>
            Configuration.get as_double "thickness" c
            = Ok (pz (SupportLayer.getSize l))
            /\ (exists location,
                  Configuration.get_def as_string "location" "chip" c
                  = Ok location
                  /\ SupportLayer.location_ l = tolower location)
            /\ (SupportLayer.location_ l = "sensor"
                \/ SupportLayer.location_ l = "chip"
                \/ SupportLayer.location_ l = "absolute")
            /\ (SupportLayer.location_ l <> "absolute" ->
                pz (SupportLayer.offset_ l) = 0)
            /\ (Configuration.has "hole_size" c = false ->
                SupportLayer.hasHole l = false))
         configs ls.
Proof.
  induction configs as [|c configs IH]; intros m m' H; cbn in H.
  - injection H as <-. exists []. split; [|split; [|constructor]].
    + destruct m; cbn. now rewrite List.app_nil_r.
    + intros m2. destruct m2; cbn. now rewrite List.app_nil_r.
  - outcome_inv H.
    apply read_support_layer in E as (l & -> & Hany & Hl).
    apply IH in H as (ls & -> & Hanys & Hls).
    exists (l :: ls). split; [|split; [|constructor; assumption]].
    + cbn. now rewrite <- List.app_assoc.
    + intros m2. cbn. rewrite Hany. cbn. rewrite Hanys. cbn.
      now rewrite <- List.app_assoc.
Qed.
End constructor_results.

Section constructor_model.
Context {conv : FromString}.

(** The model the constructor returns, field by field. *)
Lemma new_Ok type reader m :
  DetectorModel.new type reader = Ok m ->
  let config := ConfigReader.getHeaderConfiguration reader in
  exists default_sensor_excess ls,
    Configuration.get as_XYInt "number_of_pixels" config
    = Ok (DetectorModel.number_of_pixels_ m)
    /\ Configuration.get as_XYVector "pixel_size" config
       = Ok (DetectorModel.pixel_size_ m)
    /\ Configuration.get as_double "sensor_thickness" config
       = Ok (DetectorModel.sensor_thickness_ m)
    /\ Configuration.get_def as_double "sensor_excess" 0 config
       = Ok default_sensor_excess
    /\ Configuration.get_def as_double "sensor_excess_top"
         default_sensor_excess config
       = Ok (at4 (DetectorModel.sensor_excess_ m) 0)
    /\ Configuration.get_def as_double "sensor_excess_right"
         default_sensor_excess config
       = Ok (at4 (DetectorModel.sensor_excess_ m) 1)
    /\ Configuration.get_def as_double "sensor_excess_bottom"
         default_sensor_excess config
       = Ok (at4 (DetectorModel.sensor_excess_ m) 2)
    /\ Configuration.get_def as_double "sensor_excess_left"
         default_sensor_excess config
       = Ok (at4 (DetectorModel.sensor_excess_ m) 3)
    /\ Configuration.get_def as_double "chip_thickness" 0 config
       = Ok (DetectorModel.chip_thickness_ m)
    /\ DetectorModel.support_layers_ m = ls
    /\ forall m2,
         DetectorModel.read_supports
           (ConfigReader.getConfigurationsNamed "support" reader) m2
         = Ok (DetectorModel.set_support_layers
                 (DetectorModel.support_layers_ m2 ++ ls) m2).
Proof.
  unfold DetectorModel.new. intros H. cbn zeta. outcome_inv H.
  apply read_supports_layers in H as (ls & -> & Hany & _).
  eexists _, ls. cbn. repeat (split; [first [reflexivity|eassumption]|]).
  exact Hany.
Qed.
End constructor_model.

(** X6: the constructor makes one support layer of every section named
    "support", in the order of the sections, and [getSupportLayers] returns
    them in that order.  A layer is as thick as the key "thickness" of its
    section says; its location is the key "location" in lower case ("chip"
    when the key is absent) and is one of "sensor", "chip" and "absolute";
    a layer that is not "absolute" has no offset along z of its own, so that
    its height is that of the stack alone; and a layer whose section has no
    key "hole_size" has no hole. *)
Theorem constructor_support_layers (conv : FromString) (type : string)
    (reader : ConfigReader.t) (m : DetectorModel.t) :
  DetectorModel.new type reader = Ok m ->
  Forall2
    (fun c l =>
       Configuration.get as_double "thickness" c
       = Ok (pz (SupportLayer.getSize l))
       /\ (exists location,
             Configuration.get_def as_string "location" "chip" c = Ok location
             /\ SupportLayer.location_ l = tolower location)
       /\ (SupportLayer.location_ l = "sensor"
           \/ SupportLayer.location_ l = "chip"
           \/ SupportLayer.location_ l = "absolute")
       /\ (SupportLayer.location_ l <> "absolute" ->
           pz (SupportLayer.offset_ l) = 0)
       /\ (Configuration.has "hole_size" c = false ->
           SupportLayer.hasHole l = false))
    (ConfigReader.getConfigurationsNamed "support" reader)
    (DetectorModel.getSupportLayers m).
Proof.
  intros H. pose proof (getSupportLayers_fields m) as F.
  unfold DetectorModel.new in H. outcome_inv H.
  apply read_supports_layers in H as (ls & -> & _ & Hls).
  cbn [DetectorModel.set_support_layers DetectorModel.support_layers_
       app] in F.
  eapply Forall2_trans; [|exact Hls|exact F].
  intros c l l' Hc [center ->]. exact Hc.
Qed.

Lemma constructor_support_layers_witness :
  DetectorModel.new (conv := Sample.conv) "X" Sample.X_reader = Ok sample
  /\ Forall (fun l => SupportLayer.location_ l = "sensor"
                      \/ SupportLayer.location_ l = "chip"
                      \/ SupportLayer.location_ l = "absolute")
            (DetectorModel.getSupportLayers sample).
Proof.
  assert (DetectorModel.new (conv := Sample.conv) "X" Sample.X_reader
          = Ok sample) as H by (vm_compute; reflexivity).
  split; [exact H|].
  eapply Forall2_Forall_r;
    [exact (constructor_support_layers Sample.conv "X" Sample.X_reader
              sample H)|].
  apply Forall_forall. intros c _ l (_ & _ & Hl & _). exact Hl.
Defined.

(** X7: the model the constructor returns has the type name it was given
    and the values of the header: the number and the size of the pixels are
    the keys "number_of_pixels" and "pixel_size", which are there and
    convert; the sensor is as thick as "sensor_thickness" says, the chip as
    thick as "chip_thickness" says, and a header without "chip_thickness"
    gives a chip without thickness, whose two faces along z are the upper
    face of the sensor. *)
Theorem constructor_header (conv : FromString) (type : string)
    (reader : ConfigReader.t) (m : DetectorModel.t) :
  DetectorModel.new type reader = Ok m ->
  let config := ConfigReader.getHeaderConfiguration reader in
  let sensor := (DetectorModel.getSensorCenter m, DetectorModel.getSensorSize m) in
  let chip := (DetectorModel.getChipCenter m, DetectorModel.getChipSize m) in
  DetectorModel.getType m = type
  /\ Configuration.get as_XYInt "number_of_pixels" config
     = Ok (DetectorModel.getNPixels m)
  /\ Configuration.get as_XYVector "pixel_size" config
     = Ok (DetectorModel.getPixelSize m)
  /\ (exists thickness,
        Configuration.get as_double "sensor_thickness" config = Ok thickness
        /\ pz (DetectorModel.getSensorSize m) == thickness)
  /\ (exists thickness,
        Configuration.get_def as_double "chip_thickness" 0 config
        = Ok thickness
        /\ pz (DetectorModel.getChipSize m) == thickness)
  /\ (Configuration.has "chip_thickness" config = false ->
      lower_face AxZ chip == upper_face AxZ sensor
      /\ upper_face AxZ chip == upper_face AxZ sensor).
Proof.
  intros H. cbn zeta.
  destruct (new_keeps _ _ _ H) as [Htype _].
  destruct (new_Ok _ _ _ H)
    as (d & ls & Hn & Hp & Hs & _ & _ & _ & _ & _ & Hc & _).
  split; [exact Htype|]. split; [exact Hn|]. split; [exact Hp|].
  split; [|split].
  - eexists. split; [exact Hs|]. cbn. ring.
  - eexists. split; [exact Hc|]. cbn. ring.
  - intros Hnone. unfold Configuration.get_def in Hc. rewrite Hnone in Hc.
    injection Hc as Hc. unfold lower_face, upper_face; cbn. rewrite <- Hc.
    split; field.
Qed.

Lemma constructor_header_witness :
  DetectorModel.getType sample = "X"
  /\ pz (DetectorModel.getSensorSize sample) == 300
  /\ pz (DetectorModel.getChipSize sample) == 0.
Proof.
  destruct (constructor_header Sample.conv "X" Sample.X_reader sample)
    as (Htype & _ & _ & (t & Ht & Hs) & (c & Hc & Hchip) & _).
  - vm_compute. reflexivity.
  - split; [exact Htype|]. split.
    + rewrite Hs. vm_compute in Ht. injection Ht as <-. reflexivity.
    + rewrite Hchip. vm_compute in Hc. injection Hc as <-. reflexivity.
Defined.

(** X8: the excess of the sensor.  An edge whose own key is absent from
    the header has the excess that "sensor_excess" gives for all edges, and
    none when that key is absent too.  When none of the four edges has a key
    of its own, the sensor is centered where the grid is, and exceeds it by
    that one excess on every side. *)
Theorem constructor_excess (conv : FromString) (type : string)
    (reader : ConfigReader.t) (m : DetectorModel.t) :
  DetectorModel.new type reader = Ok m ->
  let config := ConfigReader.getHeaderConfiguration reader in
  let excess := DetectorModel.sensor_excess_ m in
  exists e,
    Configuration.get_def as_double "sensor_excess" 0 config = Ok e
    /\ (Configuration.has "sensor_excess" config = false -> e = 0)
    /\ (Configuration.has "sensor_excess_top" config = false ->
        at4 excess 0 = e)
    /\ (Configuration.has "sensor_excess_right" config = false ->
        at4 excess 1 = e)
    /\ (Configuration.has "sensor_excess_bottom" config = false ->
        at4 excess 2 = e)
    /\ (Configuration.has "sensor_excess_left" config = false ->
        at4 excess 3 = e)
    /\ (Configuration.has "sensor_excess_top" config = false ->
        Configuration.has "sensor_excess_right" config = false ->
        Configuration.has "sensor_excess_bottom" config = false ->
        Configuration.has "sensor_excess_left" config = false ->
        DetectorModel.getSensorCenter m =v DetectorModel.getCenter m
        /\ DetectorModel.getSensorSize m =v
             DetectorModel.getGridSize m
             +v mkXYZ (2 * e) (2 * e) (DetectorModel.sensor_thickness_ m)).
Proof.
  intros H. cbn zeta.
  destruct (new_Ok _ _ _ H)
    as (e & ls & _ & _ & _ & He & Ht & Hr & Hb & Hl & _).
  unfold Configuration.get_def in Ht, Hr, Hb, Hl.
  assert (Configuration.has "sensor_excess_top"
            (ConfigReader.getHeaderConfiguration reader) = false ->
          at4 (DetectorModel.sensor_excess_ m) 0 = e) as Et
    by (intros Hk; rewrite Hk in Ht; congruence).
  assert (Configuration.has "sensor_excess_right"
            (ConfigReader.getHeaderConfiguration reader) = false ->
          at4 (DetectorModel.sensor_excess_ m) 1 = e) as Er
    by (intros Hk; rewrite Hk in Hr; congruence).
  assert (Configuration.has "sensor_excess_bottom"
            (ConfigReader.getHeaderConfiguration reader) = false ->
          at4 (DetectorModel.sensor_excess_ m) 2 = e) as Eb
    by (intros Hk; rewrite Hk in Hb; congruence).
  assert (Configuration.has "sensor_excess_left"
            (ConfigReader.getHeaderConfiguration reader) = false ->
          at4 (DetectorModel.sensor_excess_ m) 3 = e) as El
    by (intros Hk; rewrite Hk in Hl; congruence).
  exists e. split; [exact He|]. split.
  { intros Hk. unfold Configuration.get_def in He. rewrite Hk in He.
    congruence. }
  repeat (split; [assumption|]).
  intros Kt Kr Kb Kl.
  unfold DetectorModel.getSensorCenter, DetectorModel.getSensorSize, xyz_eq.
  cbn [px py pz xyz_add]. rewrite (Et Kt), (Er Kr), (Eb Kb), (El Kl).
  cbn. repeat split; field.
Qed.

Lemma constructor_excess_witness :
  DetectorModel.getSensorCenter sample =v DetectorModel.getCenter sample.
Proof.
  destruct (constructor_excess Sample.conv "X" Sample.X_reader sample)
    as (e & _ & _ & _ & _ & _ & _ & Hall).
  - vm_compute. reflexivity.
  - apply Hall; vm_compute; reflexivity.
Defined.

(** ** What the constructor throws *)

Section constructor_errors.
Context {conv : FromString}.

Lemma read_support_Throw support_config m e :
  DetectorModel.read_support support_config m = Throw e ->
  (exists key, e = MissingKeyError key
               /\ In key ["thickness"; "size"; "offset"]
               /\ Configuration.config_ support_config !! key = None)
  \/ (exists key, e = InvalidKeyError key
                  /\ Configuration.has key support_config = true)
  \/ (e = InvalidValueError "location"
            "location of the support should be 'chip', 'sensor' or 'absolute'"
      /\ exists location,
           Configuration.get_def as_string "location" "chip" support_config
           = Ok location
           /\ tolower location <> "sensor" /\ tolower location <> "chip"
           /\ tolower location <> "absolute").
Proof.
  assert (forall T (c : string -> option T) key e0,
            Configuration.get c key support_config = Throw e0 ->
            In key ["thickness"; "size"; "offset"] ->
            (exists key, e0 = MissingKeyError key
                         /\ In key ["thickness"; "size"; "offset"]
                         /\ Configuration.config_ support_config !! key = None)
            \/ (exists key, e0 = InvalidKeyError key
                            /\ Configuration.has key support_config = true)
            \/ (e0 = InvalidValueError "location"
                  "location of the support should be 'chip', 'sensor' or 'absolute'"
                /\ exists location,
                     Configuration.get_def as_string "location" "chip"
                       support_config = Ok location
                     /\ tolower location <> "sensor"
                     /\ tolower location <> "chip"
                     /\ tolower location <> "absolute")) as Hget.
  { intros T c key e0 H Hkey.
    apply get_Throw in H as [[-> H]|[-> (txt & H & _)]].
    - left. eauto.
    - right. left. eexists. split; [reflexivity|]. apply has_lookup. eauto. }
  assert (forall T (c : string -> option T) key def e0,
            Configuration.get_def c key def support_config = Throw e0 ->
            exists key, e0 = InvalidKeyError key
                        /\ Configuration.has key support_config = true)
    as Hdef.
  { intros T c key def e0 H.
    apply get_def_Throw in H as [-> (txt & H & _)].
    eexists. split; [reflexivity|]. apply has_lookup. eauto. }
  unfold DetectorModel.read_support. intros H.
  destruct (Configuration.get as_double "thickness" support_config) eqn:E1;
    cbn in H; [|injection H as <-; eapply Hget; [exact E1|cbn; tauto]].
  destruct (Configuration.get as_XYVector "size" support_config) eqn:E2;
    cbn in H; [|injection H as <-; eapply Hget; [exact E2|cbn; tauto]].
  destruct (Configuration.get_def as_string "location" "chip" support_config)
    as [location|] eqn:E3;
    cbn in H; [|injection H as <-; right; left; eapply Hdef; exact E3].
  destruct (negb (tolower location =? "sensor")
            && negb (tolower location =? "chip")
            && negb (tolower location =? "absolute"))%bool eqn:E4.
  { injection H as <-. right. right. split; [reflexivity|].
    exists location. split; [reflexivity|].
    rewrite !andb_true_iff, !negb_true_iff, !String.eqb_neq in E4. tauto. }
  destruct (tolower location =? "absolute") eqn:E5.
  - destruct (Configuration.get as_XYZVector "offset" support_config) eqn:E6;
      cbn in H; [|injection H as <-; eapply Hget; [exact E6|cbn; tauto]].
    destruct (Configuration.get_def as_string "material" "g10" support_config)
      eqn:E7;
      cbn in H; [|injection H as <-; right; left; eapply Hdef; exact E7].
    destruct (Configuration.get_def as_XYVector "hole_size" (mkXY 0 0)
                support_config) eqn:E8;
      cbn in H; [|injection H as <-; right; left; eapply Hdef; exact E8].
    destruct (Configuration.get_def as_XYVector "hole_offset" (mkXY 0 0)
                support_config) eqn:E9;
      cbn in H; [|injection H as <-; right; left; eapply Hdef; exact E9].
    discriminate H.
  - destruct (Configuration.get_def as_XYVector "offset" (mkXY 0 0)
                support_config) eqn:E6;
      cbn in H; [|injection H as <-; right; left; eapply Hdef; exact E6].
    destruct (Configuration.get_def as_string "material" "g10" support_config)
      eqn:E7;
      cbn in H; [|injection H as <-; right; left; eapply Hdef; exact E7].
    destruct (Configuration.get_def as_XYVector "hole_size" (mkXY 0 0)
                support_config) eqn:E8;
      cbn in H; [|injection H as <-; right; left; eapply Hdef; exact E8].
    destruct (Configuration.get_def as_XYVector "hole_offset" (mkXY 0 0)
                support_config) eqn:E9;
      cbn in H; [|injection H as <-; right; left; eapply Hdef; exact E9].
    discriminate H.
Qed.
End constructor_errors.

Section constructor_errors_all.
Context {conv : FromString}.

Lemma read_supports_Throw configs : forall m e,
  DetectorModel.read_supports configs m = Throw e ->
  exists support_config m0,
    In support_config configs
    /\ DetectorModel.read_support support_config m0 = Throw e.
Proof.
  induction configs as [|c configs IH]; intros m e H; cbn in H;
    [discriminate H|].
  destruct (DetectorModel.read_support c m) as [m1|e1] eqn:E; cbn in H.
  - apply IH in H as (c' & m0 & Hin & H). exists c', m0. split; [now right|].
    exact H.
  - injection H as <-. exists c, m. split; [now left|exact E].
Qed.
End constructor_errors_all.

(** X9: the only exceptions of the constructor.  When the constructor
    throws, then either a required key is missing (number_of_pixels,
    pixel_size or sensor_thickness in the header; thickness, size or offset
    in a section named "support"), or a key that is there does not convert,
    or the location of a support section is none of "sensor", "chip" and
    "absolute" in lower case.  A key with a default never counts as
    missing. *)
Theorem constructor_throws (conv : FromString) (type : string)
    (reader : ConfigReader.t) (e : exn) :
  DetectorModel.new type reader = Throw e ->
  let config := ConfigReader.getHeaderConfiguration reader in
  let supports := ConfigReader.getConfigurationsNamed "support" reader in
  (exists key,
     e = MissingKeyError key
     /\ ((In key ["number_of_pixels"; "pixel_size"; "sensor_thickness"]
          /\ Configuration.config_ config !! key = None)
         \/ (In key ["thickness"; "size"; "offset"]
             /\ exists support_config,
                  In support_config supports
                  /\ Configuration.config_ support_config !! key = None)))
  \/ (exists key,
        e = InvalidKeyError key
        /\ (Configuration.has key config = true
            \/ exists support_config,
                 In support_config supports
                 /\ Configuration.has key support_config = true))
  \/ (e = InvalidValueError "location"
            "location of the support should be 'chip', 'sensor' or 'absolute'"
      /\ exists support_config location,
           In support_config supports
           /\ Configuration.get_def as_string "location" "chip" support_config
              = Ok location
           /\ tolower location <> "sensor" /\ tolower location <> "chip"
           /\ tolower location <> "absolute").
Proof.
  cbn zeta. unfold DetectorModel.new.
  set (config := ConfigReader.getHeaderConfiguration reader).
  set (supports := ConfigReader.getConfigurationsNamed "support" reader).
  assert (forall T (c : string -> option T) key e0,
            Configuration.get c key config = Throw e0 ->
            In key ["number_of_pixels"; "pixel_size"; "sensor_thickness"] ->
            (exists key,
               e0 = MissingKeyError key
               /\ ((In key ["number_of_pixels"; "pixel_size";
                            "sensor_thickness"]
                    /\ Configuration.config_ config !! key = None)
                   \/ (In key ["thickness"; "size"; "offset"]
                       /\ exists support_config,
                            In support_config supports
                            /\ Configuration.config_ support_config !! key
                               = None)))
            \/ (exists key,
                  e0 = InvalidKeyError key
                  /\ (Configuration.has key config = true
                      \/ exists support_config,
                           In support_config supports
                           /\ Configuration.has key support_config = true))
            \/ (e0 = InvalidValueError "location"
                  "location of the support should be 'chip', 'sensor' or 'absolute'"
                /\ exists support_config location,
                     In support_config supports
                     /\ Configuration.get_def as_string "location" "chip"
                          support_config = Ok location
                     /\ tolower location <> "sensor"
                     /\ tolower location <> "chip"
                     /\ tolower location <> "absolute")) as Hget.
  { intros T c key e0 H Hkey.
    apply get_Throw in H as [[-> H]|[-> (txt & H & _)]].
    - left. eauto.
    - right. left. eexists. split; [reflexivity|]. left.
      apply has_lookup. eauto. }
  assert (forall T (c : string -> option T) key def e0,
            Configuration.get_def c key def config = Throw e0 ->
            exists key,
              e0 = InvalidKeyError key
              /\ (Configuration.has key config = true
                  \/ exists support_config,
                       In support_config supports
                       /\ Configuration.has key support_config = true))
    as Hdef.
  { intros T c key def e0 H.
    apply get_def_Throw in H as [-> (txt & H & _)].
    eexists. split; [reflexivity|]. left. apply has_lookup. eauto. }
  intros H.
  destruct (Configuration.get as_XYInt "number_of_pixels" config) eqn:E1;
    cbn in H; [|injection H as <-; eapply Hget; [exact E1|cbn; tauto]].
  destruct (Configuration.get as_XYVector "pixel_size" config) eqn:E2;
    cbn in H; [|injection H as <-; eapply Hget; [exact E2|cbn; tauto]].
  destruct (Configuration.get as_double "sensor_thickness" config) eqn:E3;
    cbn in H; [|injection H as <-; eapply Hget; [exact E3|cbn; tauto]].
  destruct (Configuration.get_def as_double "sensor_excess" 0 config)
    as [d|] eqn:E4;
    cbn in H; [|injection H as <-; right; left; eapply Hdef; exact E4].
  destruct (Configuration.get_def as_double "sensor_excess_top" d config)
    eqn:E5;
    cbn in H; [|injection H as <-; right; left; eapply Hdef; exact E5].
  destruct (Configuration.get_def as_double "sensor_excess_bottom" d config)
    eqn:E6;
    cbn in H; [|injection H as <-; right; left; eapply Hdef; exact E6].
  destruct (Configuration.get_def as_double "sensor_excess_left" d config)
    eqn:E7;
    cbn in H; [|injection H as <-; right; left; eapply Hdef; exact E7].
  destruct (Configuration.get_def as_double "sensor_excess_right" d config)
    eqn:E8;
    cbn in H; [|injection H as <-; right; left; eapply Hdef; exact E8].
  destruct (Configuration.get_def as_double "chip_thickness" 0 config)
    eqn:E9;
    cbn in H; [|injection H as <-; right; left; eapply Hdef; exact E9].
  apply read_supports_Throw in H as (c & m0 & Hin & H).
  apply read_support_Throw in H
    as [(key & -> & Hkey & Hnone)|[(key & -> & Hhas)|(-> & loc & Hloc)]].
  - left. exists key. split; [reflexivity|]. right. eauto.
  - right. left. exists key. split; [reflexivity|]. right. eauto.
  - right. right. split; [reflexivity|]. exists c, loc. tauto.
Qed.

Lemma constructor_throws_witness :
  DetectorModel.new (conv := Sample.conv) "X"
    [Sample.X_header; Sample.X_support "50" "top"]
  = Throw (InvalidValueError "location"
             "location of the support should be 'chip', 'sensor' or 'absolute'").
Proof.
  destruct (DetectorModel.new (conv := Sample.conv) "X"
              [Sample.X_header; Sample.X_support "50" "top"]) as [m|e] eqn:E;
    [vm_compute in E; discriminate E|].
  destruct (constructor_throws Sample.conv "X"
              [Sample.X_header; Sample.X_support "50" "top"] e E)
    as [(key & -> & _)|[(key & -> & _)|(-> & _)]].
  - vm_compute in E. discriminate E.
  - vm_compute in E. discriminate E.
  - reflexivity.
Defined.

(** * The configurations of a model *)

(** ** The header of a reader holds every key of its unnamed sections *)

Lemma union_absorb (h c : gmap string string) :
  (forall key, is_Some (c !! key) -> is_Some (h !! key)) -> h ∪ c = h.
Proof.
  intros H. apply map_eq. intros key. rewrite lookup_union.
  destruct (h !! key) as [v|] eqn:Eh; destruct (c !! key) as [v'|] eqn:Ec;
    try reflexivity.
  destruct (H key) as [x Hx]; [rewrite Ec; eauto|congruence].
Qed.

Lemma fold_merge_covers configs : forall h key,
  is_Some (Configuration.config_ h !! key)
  \/ (exists c, In c configs /\ is_Some (Configuration.config_ c !! key)) ->
  is_Some (Configuration.config_
             (fold_left (fun h c => Configuration.merge c h) configs h)
           !! key).
Proof.
  induction configs as [|c0 configs IH]; intros h key H; cbn [fold_left].
  - destruct H as [H|(c & [] & _)]. exact H.
  - apply IH. destruct H as [H|(c & [<-|Hin] & H)].
    + left. cbn. rewrite lookup_union. destruct H as [v ->].
      destruct (Configuration.config_ c0 !! key); cbn; eauto.
    + left. cbn. rewrite lookup_union. destruct H as [v ->].
      destruct (Configuration.config_ h !! key); cbn; eauto.
    + right. eauto.
Qed.

Lemma header_covers (r : ConfigReader.t) c key :
  In c r -> Configuration.getName c = "" ->
  is_Some (Configuration.config_ c !! key) ->
  is_Some (Configuration.config_ (ConfigReader.getHeaderConfiguration r)
           !! key).
Proof.
  intros Hin Hname Hkey.
  unfold ConfigReader.getHeaderConfiguration,
    ConfigReader.getConfigurationsNamed.
  assert (In c (List.filter
                  (fun c => String.eqb (Configuration.getName c) "") r)) as H
    by (apply filter_In; split; [exact Hin|now apply String.eqb_eq]).
  destruct (List.filter _ r) as [|c0 rest]; [destruct H|].
  apply fold_merge_covers. right. eauto.
Qed.

(** The loop of [getConfigurations] merges into the header what the header
    has already. *)
Lemma getConfigurations_header (m : DetectorModel.t) :
  exists global,
    DetectorModel.getConfigurations m
    = global ::
      List.filter (fun c => negb (String.eqb (Configuration.getName c) ""))
                  (DetectorModel.reader_ m)
    /\ Configuration.name_ global = ""
    /\ Configuration.config_ global
       = Configuration.config_
           (ConfigReader.getHeaderConfiguration (DetectorModel.reader_ m)).
Proof.
  unfold DetectorModel.getConfigurations, ConfigReader.getConfigurations.
  set (header := ConfigReader.getHeaderConfiguration (DetectorModel.reader_ m)).
  assert (forall l global acc,
            (forall c, In c l -> In c (DetectorModel.reader_ m)) ->
            Configuration.name_ global = "" ->
            Configuration.config_ global = Configuration.config_ header ->
            exists global',
              fold_left
                (fun acc config =>
                   if String.eqb (Configuration.getName config) ""
                   then (Configuration.merge config (fst acc), snd acc)
                   else (fst acc, snd acc ++ [config])) l (global, acc)
              = (global',
                 acc ++ List.filter
                          (fun c => negb (String.eqb (Configuration.getName c) ""))
                          l)
              /\ Configuration.name_ global' = ""
              /\ Configuration.config_ global' = Configuration.config_ header)
    as H.
  { induction l as [|c l IH]; intros global acc Hl Hg Hc;
      cbn [fold_left List.filter].
    - exists global. now rewrite List.app_nil_r.
    - destruct (String.eqb (Configuration.getName c) "") eqn:E;
        cbn [fst snd negb].
      + apply IH; [intros c' Hc'; apply Hl; now right|exact Hg|].
        cbn. rewrite Hc. apply union_absorb. intros key Hkey.
        apply (header_covers _ c); [apply Hl; now left| |exact Hkey].
        now apply String.eqb_eq.
      + destruct (IH global (acc ++ [c])) as (g' & -> & Hg');
          [intros c' Hc'; apply Hl; now right|exact Hg|exact Hc|].
        exists g'. now rewrite <- List.app_assoc. }
  destruct (H (DetectorModel.reader_ m) header [])
    as (g' & -> & Hg'); [auto|apply header_name|reflexivity|].
  exists g'. auto.
Qed.

(** ** The constructor looks at the keys of the header and at the support
    sections only *)

Lemma get_ext {T} (conv : string -> option T) key c c' :
  Configuration.config_ c = Configuration.config_ c' ->
  Configuration.get conv key c = Configuration.get conv key c'.
Proof. intros H. unfold Configuration.get. now rewrite H. Qed.

Lemma get_def_ext {T} (conv : string -> option T) key def c c' :
  Configuration.config_ c = Configuration.config_ c' ->
  Configuration.get_def conv key def c = Configuration.get_def conv key def c'.
Proof.
  intros H. unfold Configuration.get_def, Configuration.has.
  rewrite (get_ext conv key c c' H). now rewrite H.
Qed.

Section constructor_ext.
Context {conv : FromString}.

Lemma read_support_Throw_any support_config m m2 e :
  DetectorModel.read_support support_config m = Throw e ->
  DetectorModel.read_support support_config m2 = Throw e.
Proof.
  unfold DetectorModel.read_support. intros H.
  repeat match type of H with
  | mbind _ ?o = Throw _ =>
      destruct o eqn:?; cbn in H |- *; [|exact H]
  | (if ?b then _ else _) = Throw _ => destruct b eqn:?; [exact H|]
  end.
  discriminate H.
Qed.

Lemma read_supports_Throw_any configs : forall m m2 e,
  DetectorModel.read_supports configs m = Throw e ->
  DetectorModel.read_supports configs m2 = Throw e.
Proof.
  induction configs as [|c configs IH]; intros m m2 e H; cbn in H |- *;
    [discriminate H|].
  destruct (DetectorModel.read_support c m) as [m1|e1] eqn:E; cbn in H.
  - apply read_support_layer in E as (l & _ & Hany & _).
    rewrite (Hany m2). cbn. eapply IH. exact H.
  - injection H as <-.
    rewrite (read_support_Throw_any _ _ m2 _ E). reflexivity.
Qed.

Lemma read_supports_same configs m m2 :
  same_geometry m m2 ->
  same_result (DetectorModel.read_supports configs m)
              (DetectorModel.read_supports configs m2).
Proof.
  intros Hsame.
  destruct (DetectorModel.read_supports configs m) as [m'|e] eqn:E.
  - apply read_supports_layers in E as (ls & -> & Hany & _).
    rewrite (Hany m2). cbn.
    destruct Hsame as (H1 & H2 & H3 & H4 & H5 & H6 & H7).
    unfold same_geometry; cbn. rewrite H7. tauto.
  - rewrite (read_supports_Throw_any _ _ m2 _ E). reflexivity.
Qed.

Lemma new_ext type r r' :
  Configuration.config_ (ConfigReader.getHeaderConfiguration r)
  = Configuration.config_ (ConfigReader.getHeaderConfiguration r') ->
  ConfigReader.getConfigurationsNamed "support" r
  = ConfigReader.getConfigurationsNamed "support" r' ->
  same_result (DetectorModel.new type r) (DetectorModel.new type r').
Proof.
  intros Hh Hs. unfold DetectorModel.new. rewrite Hs.
  rewrite (get_ext as_XYInt "number_of_pixels" _ _ Hh).
  rewrite (get_ext as_XYVector "pixel_size" _ _ Hh).
  rewrite (get_ext as_double "sensor_thickness" _ _ Hh).
  rewrite (get_def_ext as_double "sensor_excess" 0 _ _ Hh).
  repeat match goal with
  | |- same_result (mbind _ ?o) _ =>
      destruct o eqn:?; cbn [mbind outcome_bind]; [|reflexivity]
  end.
  rewrite (get_def_ext as_double "sensor_excess_top" _ _ _ Hh).
  rewrite (get_def_ext as_double "sensor_excess_bottom" _ _ _ Hh).
  rewrite (get_def_ext as_double "sensor_excess_left" _ _ _ Hh).
  rewrite (get_def_ext as_double "sensor_excess_right" _ _ _ Hh).
  rewrite (get_def_ext as_double "chip_thickness" 0 _ _ Hh).
  repeat match goal with
  | |- same_result (mbind _ ?o) _ =>
      destruct o eqn:?; cbn [mbind outcome_bind]; [|reflexivity]
  end.
  apply read_supports_same. unfold same_geometry; cbn. tauto.
Qed.
End constructor_ext.

Lemma getConfigurations_reader (m : DetectorModel.t) :
  Configuration.config_
    (ConfigReader.getHeaderConfiguration (DetectorModel.getConfigurations m))
  = Configuration.config_
      (ConfigReader.getHeaderConfiguration (DetectorModel.reader_ m))
  /\ forall name, name <> "" ->
       ConfigReader.getConfigurationsNamed name
         (DetectorModel.getConfigurations m)
       = ConfigReader.getConfigurationsNamed name (DetectorModel.reader_ m).
Proof.
  destruct (getConfigurations_header m) as (global & -> & Hname & Hconfig).
  split.
  - rewrite <- Hconfig.
    unfold ConfigReader.getHeaderConfiguration,
      ConfigReader.getConfigurationsNamed.
    cbn [List.filter].
    assert (String.eqb (Configuration.getName global) "" = true) as ->
      by (apply String.eqb_eq; exact Hname).
    rewrite filter_named_unnamed.
    cbn [fold_left Configuration.merge Configuration.config_].
    apply union_absorb. auto.
  - intros name Hn. unfold ConfigReader.getConfigurationsNamed.
    cbn [List.filter].
    assert (String.eqb (Configuration.getName global) name = false) as ->
      by (apply String.eqb_neq; unfold Configuration.getName; congruence).
    now apply filter_named_other.
Qed.

(** X10: the configurations a model hands out describe the model.  The
    constructor makes of the list that [getConfigurations] returns what it
    makes of the reader of the model: the same exception, or a model with
    the same type name, pixels, thicknesses, excess and support layers. *)
Theorem getConfigurations_round_trip (conv : FromString) (type : string)
    (m : DetectorModel.t) :
  same_result (DetectorModel.new type (DetectorModel.getConfigurations m))
              (DetectorModel.new type (DetectorModel.reader_ m)).
Proof.
  destruct (getConfigurations_reader m) as [Hheader Hnamed].
  apply new_ext; [exact Hheader|]. apply Hnamed. discriminate.
Qed.

(** ** A specialised model and the generic model it comes from *)

Lemma get_key_ext {T} (conv : string -> option T) key c c' :
  Configuration.config_ c !! key = Configuration.config_ c' !! key ->
  Configuration.get conv key c = Configuration.get conv key c'.
Proof. intros H. unfold Configuration.get. now rewrite H. Qed.

Lemma get_def_key_ext {T} (conv : string -> option T) key def c c' :
  Configuration.config_ c !! key = Configuration.config_ c' !! key ->
  Configuration.get_def conv key def c = Configuration.get_def conv key def c'.
Proof.
  intros H. unfold Configuration.get_def, Configuration.has.
  rewrite (get_key_ext conv key c c' H). now rewrite H.
Qed.

(** The header a specialised model is made from: a key of the detector
    section that is not a placement key, else the key of the header of the
    generic model. *)
Lemma specialised_header_lookup (config : Configuration.t)
    (m : DetectorModel.t) (key : string) :
  Configuration.config_
    (ConfigReader.getHeaderConfiguration
       (specialised_reader (specialisation config)
          (DetectorModel.getConfigurations m))) !! key
  = match (if is_internal key then None
           else Configuration.config_ config !! key) with
    | Some value => Some value
    | None =>
        Configuration.config_
          (ConfigReader.getHeaderConfiguration (DetectorModel.reader_ m))
        !! key
    end.
Proof.
  destruct (specialised_reader_header (specialisation config) m key
              (specialisation_name config)) as [-> _].
  rewrite specialisation_lookup.
  destruct (getConfigurations_header m) as (global & -> & _ & Hglobal).
  cbn [hd]. rewrite Hglobal. reflexivity.
Qed.

Lemma specialised_header_keeps (config : Configuration.t)
    (m : DetectorModel.t) (key : string) :
  Configuration.config_ config !! key = None ->
  Configuration.config_
    (ConfigReader.getHeaderConfiguration
       (specialised_reader (specialisation config)
          (DetectorModel.getConfigurations m))) !! key
  = Configuration.config_
      (ConfigReader.getHeaderConfiguration (DetectorModel.reader_ m)) !! key.
Proof.
  intros H. rewrite specialised_header_lookup, H.
  now destruct (is_internal key).
Qed.

(** X11: a detector section changes of its model only what it names.  Let
    [m] be a model as the constructor made it from its reader, and [s] the
    model made for a detector section from the overlay of that section and
    the configurations of [m].  Then [s] has the support layers of [m], and
    the number of pixels, the pixel size, the sensor thickness, the chip
    thickness and the excess of [m] as far as the section has no key for
    them; a sensor thickness that the section gives is the sensor thickness
    of [s]. *)
Theorem specialised_model_keeps (conv : FromString) (type type' : string)
    (config : Configuration.t) (m s : DetectorModel.t) :
  DetectorModel.new type (DetectorModel.reader_ m) = Ok m ->
  DetectorModel.new type'
    (specialised_reader (specialisation config)
       (DetectorModel.getConfigurations m)) = Ok s ->
  let absent key := Configuration.config_ config !! key = None in
  DetectorModel.support_layers_ s = DetectorModel.support_layers_ m
  /\ (absent "number_of_pixels" ->
      DetectorModel.getNPixels s = DetectorModel.getNPixels m)
  /\ (absent "pixel_size" ->
      DetectorModel.getPixelSize s = DetectorModel.getPixelSize m)
  /\ (absent "sensor_thickness" ->
      DetectorModel.sensor_thickness_ s = DetectorModel.sensor_thickness_ m)
  /\ (absent "chip_thickness" ->
      DetectorModel.chip_thickness_ s = DetectorModel.chip_thickness_ m)
  /\ (absent "sensor_excess" -> absent "sensor_excess_top" ->
      absent "sensor_excess_right" -> absent "sensor_excess_bottom" ->
      absent "sensor_excess_left" ->
      forall i, at4 (DetectorModel.sensor_excess_ s) i
                = at4 (DetectorModel.sensor_excess_ m) i)
  /\ (forall text, Configuration.config_ config !! "sensor_thickness"
                   = Some text ->
      as_double text = Some (DetectorModel.sensor_thickness_ s)).
Proof.
  intros Hm Hs. cbn zeta.
  destruct (new_Ok _ _ _ Hm)
    as (d & ls & Hn & Hp & Ht & Hd & He0 & He1 & He2 & He3 & Hc & Hls & Hany).
  destruct (new_Ok _ _ _ Hs)
    as (d' & ls' & Hn' & Hp' & Ht' & Hd' & He0' & He1' & He2' & He3' & Hc'
        & Hls' & Hany').
  cbn zeta in *.
  set (reader' := specialised_reader (specialisation config)
                    (DetectorModel.getConfigurations m)) in *.
  assert (ls' = ls) as Els.
  { destruct (specialised_reader_header (specialisation config) m ""
                (specialisation_name config)) as [_ Hnamed].
    cbn zeta in Hnamed. fold reader' in Hnamed.
    specialize (Hany m). specialize (Hany' m).
    rewrite (Hnamed "support") in Hany' by discriminate.
    rewrite Hany in Hany'. injection Hany' as Happ.
    now apply app_inv_head in Happ. }
  split; [congruence|].
  split; [|split; [|split; [|split; [|split]]]].
  - intros K.
    rewrite (get_key_ext as_XYInt "number_of_pixels" _ _
               (specialised_header_keeps config m _ K)) in Hn'.
    unfold DetectorModel.getNPixels. congruence.
  - intros K.
    rewrite (get_key_ext as_XYVector "pixel_size" _ _
               (specialised_header_keeps config m _ K)) in Hp'.
    unfold DetectorModel.getPixelSize. congruence.
  - intros K.
    rewrite (get_key_ext as_double "sensor_thickness" _ _
               (specialised_header_keeps config m _ K)) in Ht'.
    congruence.
  - intros K.
    rewrite (get_def_key_ext as_double "chip_thickness" 0 _ _
               (specialised_header_keeps config m _ K)) in Hc'.
    congruence.
  - intros K Kt Kr Kb Kl.
    rewrite (get_def_key_ext as_double "sensor_excess" 0 _ _
               (specialised_header_keeps config m _ K)) in Hd'.
    assert (d' = d) as -> by congruence.
    rewrite (get_def_key_ext as_double "sensor_excess_top" d _ _
               (specialised_header_keeps config m _ Kt)) in He0'.
    rewrite (get_def_key_ext as_double "sensor_excess_right" d _ _
               (specialised_header_keeps config m _ Kr)) in He1'.
    rewrite (get_def_key_ext as_double "sensor_excess_bottom" d _ _
               (specialised_header_keeps config m _ Kb)) in He2'.
    rewrite (get_def_key_ext as_double "sensor_excess_left" d _ _
               (specialised_header_keeps config m _ Kl)) in He3'.
    intros [|[|[|i]]]; cbn [at4]; cbn [at4] in *; congruence.
  - intros text K.
    apply get_Ok in Ht' as (text' & Hlookup & Hconv).
    unfold reader' in Hlookup.
    rewrite specialised_header_lookup, K in Hlookup. cbn in Hlookup.
    congruence.
Qed.

Lemma specialised_model_keeps_witness :
  exists s,
    DetectorModel.new (conv := Sample.conv) "X"
      (specialised_reader (specialisation (Sample.thick "d2").1.1)
         (DetectorModel.getConfigurations sample)) = Ok s
    /\ DetectorModel.support_layers_ s = DetectorModel.support_layers_ sample
    /\ DetectorModel.getNPixels s = DetectorModel.getNPixels sample
    /\ as_double (FromString := Sample.conv) "500"
       = Some (DetectorModel.sensor_thickness_ s).
Proof.
  destruct (DetectorModel.new (conv := Sample.conv) "X"
              (specialised_reader (specialisation (Sample.thick "d2").1.1)
                 (DetectorModel.getConfigurations sample))) as [s|e] eqn:E;
    [|vm_compute in E; discriminate E].
  exists s. split; [reflexivity|].
  destruct (specialised_model_keeps Sample.conv "X" "X"
              (Sample.thick "d2").1.1 sample s)
    as (Hl & Hn & _ & _ & _ & _ & Ht).
  - vm_compute. reflexivity.
  - exact E.
  - split; [exact Hl|]. split.
    + apply Hn. vm_compute. reflexivity.
    + apply Ht. vm_compute. reflexivity.
Defined.

(** ** Closing: which sections specialise their model *)

(** The keys that [close_geometry] skips are the four placement keys. *)
Lemma is_internal_keys (key : string) :
  is_internal key = true
  <-> key = "type" \/ key = "position" \/ key = "orientation"
      \/ key = "orientation_mode".
Proof.
  unfold is_internal. rewrite !orb_true_iff, !String.eqb_eq. tauto.
Qed.

(** C4: closing gives every pending detector its model.  The overlay built
    from a detector section holds none of the keys type, position,
    orientation and orientation_mode, and every other key of the section
    with its value.  In the header of the reader that holds the overlay
    followed by the configurations of a model, a key of the overlay wins over
    the key of the model, and the named sections are those of the model.
    After closing, a detector whose section has a key other than these four
    has a model object of its own: one that did not exist when the loop over
    the pending detectors started, different from the generic model of its
    type, made by the constructor from that reader.  A detector whose section
    has no key other than these four has the generic model of its type, the
    one [getModel] returns. *)
Theorem close_geometry_specialises (conv : FromString)
    (derived : DerivedModels) (fs : FileSystem) :
  let placement (key : string) :=
    key = "type" \/ key = "position" \/ key = "orientation"
    \/ key = "orientation_mode" in
  (forall config key,
     (placement key ->
      Configuration.config_ (specialisation config) !! key = None)
     /\ (~ placement key ->
         Configuration.config_ (specialisation config) !! key
         = Configuration.config_ config !! key))
  /\ (forall config m key,
        let reader :=
          specialised_reader (specialisation config)
            (DetectorModel.getConfigurations m) in
        Configuration.config_ (ConfigReader.getHeaderConfiguration reader)
          !! key
        = match Configuration.config_ (specialisation config) !! key with
          | Some value => Some value
          | None =>
              Configuration.config_
                (hd (Configuration.new "") (DetectorModel.getConfigurations m))
              !! key
          end
        /\ forall name, name <> "" ->
             ConfigReader.getConfigurationsNamed name reader
             = ConfigReader.getConfigurationsNamed name (DetectorModel.reader_ m))
  /\ (forall w w',
        NoDup (pending_detectors (geo w)) ->
        close_geometry w = (Ok tt, w') ->
        exists w1,
          load_models w = (Ok tt, w1)
          /\ forall type cds config det,
               GeometryManager.nonresolved_models_ (geo w) !! type = Some cds ->
               (config, det) ∈ cds ->
               exists d generic og,
                 detector_store w' !! det = Some d
                 /\ getModel type w' = (Ok generic, w')
                 /\ generic ∈ GeometryManager.models_ (geo w')
                 /\ model_store w' !! generic = Some og
                 /\ ((exists key value,
                        Configuration.config_ config !! key = Some value
                        /\ ~ placement key) ->
                     exists p o,
                       Detector.getModel d = Some p
                       /\ p <> generic
                       /\ model_store w1 !! p = None
                       /\ model_store w' !! p = Some o
                       /\ (ModelObject.kind o = Hybrid
                           \/ ModelObject.kind o = Monolithic)
                       /\ DetectorModel.new type
                            (specialised_reader (specialisation config)
                               (DetectorModel.getConfigurations
                                  (ModelObject.base og)))
                          = Ok (ModelObject.base o))
                 /\ ((forall key value,
                        Configuration.config_ config !! key = Some value ->
                        placement key) ->
                     Detector.getModel d = Some generic)).
Proof.
  cbn zeta. split; [|split].
  - intros config key. rewrite specialisation_lookup. split.
    + intros H%is_internal_keys. now rewrite H.
    + intros H. destruct (is_internal key) eqn:E; [|reflexivity].
      apply is_internal_keys in E. contradiction.
  - intros config m key.
    apply specialised_reader_header, specialisation_name.
  - intros w w' Hnodup H.
    apply close_geometry_result in H
      as (w1 & w2 & Hload & _ & _ & _ & _ & _ & Hassigned); [|exact Hnodup].
    exists w1. split; [exact Hload|].
    intros type cds config det Hlookup Hin.
    destruct (Hassigned type config det) as [_ Ha];
      [apply elem_of_pending; eauto|].
    destruct Ha as (d & generic & og & Hd & Hg & Hgin & Hog & Hmodel).
    exists d, generic, og. repeat (split; [assumption|]). split.
    + intros (key & value & Hkey & Hplace).
      assert (specialised config = true) as Hs.
      { apply specialised_iff. exists key, value. split; [exact Hkey|].
        destruct (is_internal key) eqn:E; [|reflexivity].
        apply is_internal_keys in E. contradiction. }
      rewrite Hs in Hmodel. exact Hmodel.
    + intros Hall.
      destruct (specialised config) eqn:Hs; [|exact Hmodel].
      apply specialised_iff in Hs as (key & value & Hkey & Hint).
      apply Hall, is_internal_keys in Hkey. congruence.
Qed.

Lemma close_geometry_specialises_witness :
  exists w' d1 d2 generic p o,
    close_geometry (conv := Sample.conv) (derived := Sample.derived)
      (fs := Sample.fs) two_loaded = (Ok tt, w')
    /\ getModel "X" w' = (Ok generic, w')
    /\ detector_store w' !! 0%nat = Some d1
    /\ Detector.getModel d1 = Some generic
    /\ detector_store w' !! 1%nat = Some d2
    /\ Detector.getModel d2 = Some p
    /\ p <> generic
    /\ model_store w' !! p = Some o
    /\ DetectorModel.sensor_thickness_ (ModelObject.base o) == 500.
Proof.
  destruct (close_geometry (conv := Sample.conv) (derived := Sample.derived)
              (fs := Sample.fs) two_loaded) as [[[]|e] w'] eqn:E;
    [|vm_compute in E; discriminate E].
  assert (NoDup (pending_detectors (geo two_loaded))) as Hnodup
    by (apply (bool_decide_unpack _); vm_compute; exact I).
  destruct (proj2 (proj2
              (close_geometry_specialises Sample.conv Sample.derived Sample.fs))
              two_loaded w' Hnodup E) as (w1 & Hload & Hassigned).
  assert (GeometryManager.nonresolved_models_ (geo two_loaded) !! "X"
          = Some [(fst (fst (Sample.plain "d1")), 0%nat);
                  (fst (fst (Sample.thick "d2")), 1%nat)]) as Hpending
    by (vm_compute; reflexivity).
  destruct (Hassigned "X" _ (fst (fst (Sample.plain "d1"))) 0%nat Hpending)
    as (d1 & generic & og & Hd1 & Hg & _ & Hog & _ & Hplain); [left|].
  destruct (Hassigned "X" _ (fst (fst (Sample.thick "d2"))) 1%nat Hpending)
    as (d2 & generic' & og' & Hd2 & Hg' & _ & _ & Hthick & _);
    [right; left|].
  assert (generic' = generic) as -> by congruence.
  assert (Configuration.config_ (fst (fst (Sample.thick "d2")))
          !! "sensor_thickness" = Some "500") as Hover
    by (vm_compute; reflexivity).
  destruct Hthick as (p & o & Hp & Hne & _ & Ho & _ & Hnew).
  { exists "sensor_thickness", "500". split; [exact Hover|].
    intros [H|[H|[H|H]]]; discriminate H. }
  exists w', d1, d2, generic, p, o. split; [reflexivity|].
  split; [exact Hg|]. split; [exact Hd1|]. split.
  { apply Hplain. intros key value Hkey.
    destruct (is_internal key) eqn:Ei; [now apply is_internal_keys|].
    assert (specialised (fst (fst (Sample.plain "d1"))) = true) as Hs
      by (apply specialised_iff; eauto).
    assert (specialised (fst (fst (Sample.plain "d1"))) = false) as Hs'
      by (vm_compute; reflexivity).
    congruence. }
  split; [exact Hd2|]. split; [exact Hp|]. split; [exact Hne|].
  split; [exact Ho|].
  apply new_Ok in Hnew as (_ & _ & _ & _ & Ht & _).
  apply get_Ok in Ht as (text & Hlookup & Hconv).
  rewrite specialised_header_lookup in Hlookup.
  replace (is_internal "sensor_thickness") with false in Hlookup
    by reflexivity.
  rewrite Hover in Hlookup. injection Hlookup as <-.
  assert (as_double (FromString := Sample.conv) "500" = Some 500) as H500
    by (vm_compute; reflexivity).
  rewrite H500 in Hconv. injection Hconv as <-. reflexivity.
Defined.

(** * Further properties of the geometry manager *)

(** ** The type of a detector after closing *)

(** X12: after closing, the model of every pending detector has the type
    name its section asked for, also when the model is one made for this
    detector alone. *)
Theorem closed_detector_type (conv : FromString) (derived : DerivedModels)
    (fs : FileSystem) (w w' : World) :
  NoDup (pending_detectors (geo w)) ->
  close_geometry w = (Ok tt, w') ->
  forall type cds config det,
    GeometryManager.nonresolved_models_ (geo w) !! type = Some cds ->
    (config, det) ∈ cds ->
    detector_type det w' = (Ok type, w')
    /\ exists o, model_of det w' = (Ok o, w')
                 /\ DetectorModel.getType (ModelObject.base o) = type.
Proof.
  intros Hnodup H type cds config det Hlookup Hin.
  apply close_geometry_result in H
    as (w1 & w2 & _ & _ & _ & _ & _ & _ & Hassigned); [|exact Hnodup].
  destruct (Hassigned type config det) as [_ Ha];
    [apply elem_of_pending; eauto|].
  destruct Ha as (d & generic & og & Hd & Hg & _ & Hog & Hmodel).
  apply getModel_Ok in Hg as (_ & _ & og' & Hog' & Htype).
  assert (og' = og) as -> by congruence.
  assert (exists o, model_of det w' = (Ok o, w')
                    /\ ModelObject.getType o = type) as (o & Ho & Hto).
  { unfold model_of, mbind, M_bind, deref_detector. rewrite Hd.
    destruct (specialised config).
    - destruct Hmodel as (p & o & -> & _ & _ & Ho & _ & Hnew).
      exists o. unfold deref_model. rewrite Ho. split; [reflexivity|].
      apply new_keeps in Hnew as [Hnew _]. exact Hnew.
    - rewrite Hmodel. exists og. unfold deref_model. rewrite Hog. auto. }
  split; [|exists o; auto].
  unfold detector_type, mbind, M_bind. rewrite Ho, Hto. reflexivity.
Qed.

Lemma closed_detector_type_witness :
  exists w',
    close_geometry (conv := Sample.conv) (derived := Sample.derived)
      (fs := Sample.fs) two_loaded = (Ok tt, w')
    /\ detector_type 1%nat w' = (Ok "X", w').
Proof.
  destruct (close_geometry (conv := Sample.conv) (derived := Sample.derived)
              (fs := Sample.fs) two_loaded) as [[[]|e] w'] eqn:E;
    [|vm_compute in E; discriminate E].
  assert (NoDup (pending_detectors (geo two_loaded))) as Hnodup
    by (apply (bool_decide_unpack _); vm_compute; exact I).
  assert (GeometryManager.nonresolved_models_ (geo two_loaded) !! "X"
          = Some [(fst (fst (Sample.plain "d1")), 0%nat);
                  (fst (fst (Sample.thick "d2")), 1%nat)]) as Hpending
    by (vm_compute; reflexivity).
  exists w'. split; [reflexivity|].
  apply (closed_detector_type Sample.conv Sample.derived Sample.fs
           two_loaded w' Hnodup E "X" _ (fst (fst (Sample.thick "d2"))) 1%nat
           Hpending).
  right. left.
Defined.

(** ** What [load] registers *)

Section loading_detectors.
Context {conv : FromString} {derived : DerivedModels} {fs : FileSystem}.

(** One detector section that [load] accepts. *)
Lemma load_detector_Ok detector_section position orientation w w' :
  load_detector (detector_section, position, orientation) w = (Ok tt, w') ->
  let p := fresh (dom (detector_store w)) in
  let name := Configuration.getName detector_section in
  let g := geo w in
  exists type,
    Configuration.get as_string "type" detector_section = Ok type
    /\ GeometryManager.closed_ g = false
    /\ name <> "global"
    /\ (name ∉ GeometryManager.detector_names_ g)
    /\ detector_store w !! p = None
    /\ w' = mkWorld (model_store w)
              (<[p := Detector.new name position orientation]>
                 (detector_store w))
              (GeometryManager.set_nonresolved_models
                 (<[type := default []
                              (GeometryManager.nonresolved_models_ g !! type)
                            ++ [(detector_section, p)]]>
                    (GeometryManager.nonresolved_models_ g))
                 (GeometryManager.set_detectors
                    (GeometryManager.detectors_ g ++ [p])
                    ({[name]} ∪ GeometryManager.detector_names_ g) g)).
Proof.
  cbn zeta. intros H. unfold load_detector in H.
  apply bind_Ok in H as (mode & w0 & Hmode & H).
  unfold lift in Hmode. injection Hmode as _ <-.
  destruct (_ && _)%bool; [discriminate H|].
  apply bind_Ok in H as (det & wa & Halloc & H).
  unfold alloc_detector in Halloc. injection Halloc as <- <-.
  assert (detector_store w !! fresh (dom (detector_store w)) = None) as Hfresh
    by apply not_elem_of_dom, is_fresh.
  apply bind_Ok in H as ([] & wb & Hadd & H).
  apply bind_Ok in H as (type & wc & Htype & H).
  unfold lift in Htype. injection Htype as Htype <-.
  unfold modify_geo in H. injection H as <-.
  unfold addDetector, mbind, M_bind, get_geo, throw, modify_geo,
    deref_detector in Hadd.
  cbn [geo detector_store model_store] in Hadd.
  destruct (GeometryManager.closed_ (geo w)) eqn:Hclosed; [discriminate Hadd|].
  cbv beta iota delta [detector_store geo model_store] in Hadd.
  rewrite lookup_insert_eq in Hadd.
  cbn [Detector.getName Detector.new Detector.name_] in Hadd.
  destruct (String.eqb (Configuration.getName detector_section) "global")
    eqn:Hglobal; [discriminate Hadd|].
  case_bool_decide; [discriminate Hadd|].
  injection Hadd as <-. exists type.
  split; [exact Htype|]. split; [reflexivity|].
  split; [now apply String.eqb_neq|]. split; [assumption|].
  split; [exact Hfresh|]. reflexivity.
Qed.
End loading_detectors.

Section loading_loop.
Context {conv : FromString}.

(** The loop of [load] over the detector sections, when it returns. *)
Lemma load_loop_Ok sections : forall w w',
  for_each sections load_detector w = (Ok tt, w') ->
  exists ps,
    GeometryManager.detectors_ (geo w')
    = GeometryManager.detectors_ (geo w) ++ ps
    /\ Forall2
         (fun s p =>
            detector_store w !! p = None
            /\ detector_store w' !! p
               = Some (Detector.new (Configuration.getName s.1.1) s.1.2 s.2)
            /\ exists type,
                 Configuration.get as_string "type" s.1.1 = Ok type
                 /\ (type, (s.1.1, p)) ∈ pending (geo w'))
         sections ps
    /\ NoDup (List.map (fun s => Configuration.getName s.1.1) sections)
    /\ Forall (fun s =>
                 Configuration.getName s.1.1 <> "global"
                 /\ Configuration.getName s.1.1
                    ∉ GeometryManager.detector_names_ (geo w))
              sections
    /\ (forall name,
          name ∈ GeometryManager.detector_names_ (geo w')
          <-> name ∈ GeometryManager.detector_names_ (geo w)
              \/ name ∈ List.map (fun s => Configuration.getName s.1.1)
                          sections)
    /\ detector_store w ⊆ detector_store w'
    /\ (forall x, x ∈ pending (geo w) -> x ∈ pending (geo w'))
    /\ model_store w' = model_store w
    /\ GeometryManager.models_ (geo w') = GeometryManager.models_ (geo w)
    /\ GeometryManager.points_ (geo w') = GeometryManager.points_ (geo w)
    /\ GeometryManager.model_paths_ (geo w')
       = GeometryManager.model_paths_ (geo w).
Proof.
  induction sections as [|[[section position] orientation] sections IH];
    intros w w' H; cbn [for_each] in H.
  - injection H as <-. exists []. rewrite List.app_nil_r.
    split; [reflexivity|]. split; [constructor|]. split; [constructor|].
    split; [constructor|]. split.
    { intros name. cbn. rewrite elem_of_nil. tauto. }
    split; [reflexivity|]. auto.
  - apply bind_Ok in H as ([] & w1 & Hstep & H).
    apply load_detector_Ok in Hstep
      as (type & Htype & _ & Hglobal & Hname & Hfresh & Hw1).
    cbn zeta in Hw1.
    set (p := fresh (dom (detector_store w))) in *.
    apply IH in H
      as (ps & Hds & Hps & Hnodup & Hnames & Hreg & Hsub & Hpend & Hms & Hmodels
          & Hpoints & Hpaths).
    assert (detector_store w ⊆ detector_store w1) as Hsub1
      by (subst w1; cbn; now apply insert_subseteq).
    assert ((type, (section, p)) ∈ pending (geo w1)) as Hnew.
    { subst w1. cbn [geo].
      assert (pending
                (GeometryManager.set_nonresolved_models
                   (<[type := default []
                                (GeometryManager.nonresolved_models_ (geo w)
                                 !! type) ++ [(section, p)]]>
                      (GeometryManager.nonresolved_models_ (geo w)))
                   (GeometryManager.set_detectors
                      (GeometryManager.detectors_ (geo w) ++ [p])
                      ({[Configuration.getName section]}
                       ∪ GeometryManager.detector_names_ (geo w)) (geo w)))
              ≡ₚ pending (geo w) ++ [(type, (section, p))]) as ->
        by apply (pending_emplace_back
                    (GeometryManager.set_detectors _ _ (geo w))).
      apply elem_of_app. right. now apply list_elem_of_singleton. }
    assert (forall x, x ∈ pending (geo w) -> x ∈ pending (geo w1)) as Hpend1.
    { intros x Hx. subst w1. cbn [geo].
      assert (pending
                (GeometryManager.set_nonresolved_models
                   (<[type := default []
                                (GeometryManager.nonresolved_models_ (geo w)
                                 !! type) ++ [(section, p)]]>
                      (GeometryManager.nonresolved_models_ (geo w)))
                   (GeometryManager.set_detectors
                      (GeometryManager.detectors_ (geo w) ++ [p])
                      ({[Configuration.getName section]}
                       ∪ GeometryManager.detector_names_ (geo w)) (geo w)))
              ≡ₚ pending (geo w) ++ [(type, (section, p))]) as ->
        by apply (pending_emplace_back
                    (GeometryManager.set_detectors _ _ (geo w))).
      apply elem_of_app. now left. }
    assert (GeometryManager.detector_names_ (geo w1)
            = {[Configuration.getName section]}
              ∪ GeometryManager.detector_names_ (geo w)) as Hnames1
      by (subst w1; reflexivity).
    exists (p :: ps). split.
    { rewrite Hds. subst w1. cbn. now rewrite <- List.app_assoc. }
    split.
    { constructor.
      - cbn [fst snd]. split; [exact Hfresh|]. split.
        + eapply lookup_weaken; [|exact Hsub].
          subst w1. cbn. apply lookup_insert_eq.
        + exists type. split; [exact Htype|]. apply Hpend, Hnew.
      - eapply Forall2_impl; [exact Hps|].
        intros s q (Hq & Hq' & Hty). split; [|split; assumption].
        eapply lookup_weaken_None; eassumption. }
    split.
    { cbn [List.map fst]. apply NoDup_cons. split; [|exact Hnodup].
      intros Hin. apply list_elem_of_fmap in Hin as (s & Hs & Hin).
      rewrite Forall_forall in Hnames. destruct (Hnames s Hin) as [_ Hnot].
      apply Hnot. rewrite Hnames1, <- Hs.
      apply elem_of_union. left. now apply elem_of_singleton. }
    split.
    { constructor; [cbn [fst]; split; assumption|].
      eapply Forall_impl; [exact Hnames|].
      intros s [Hg Hn]. split; [exact Hg|].
      intros Hin. apply Hn. rewrite Hnames1. apply elem_of_union. now right. }
    split.
    { intros name. rewrite Hreg, Hnames1. cbn [List.map fst].
      rewrite elem_of_union, elem_of_singleton, elem_of_cons. tauto. }
    split; [etransitivity; eassumption|].
    split; [auto|].
    rewrite Hms, Hmodels, Hpoints, Hpaths. subst w1. cbn. auto.
Qed.
End loading_loop.

(** X13: what [load] registers when it returns.  It has made one detector
    for every detector section, in the order of the sections and after the
    detectors there were: an object that did not exist, with the name of the
    section, the position and the orientation that were passed and no model,
    pending under the type that the section names.  The names of the
    sections are then pairwise distinct, none is "global" and none was
    registered before; they are registered afterwards.  The model paths are
    appended to those there were, and no model or point is touched. *)
Theorem load_registers (conv : FromString)
    (sections : list (Configuration.t * XYZPoint * Rotation3D))
    (model_paths : list string) (w w' : World) :
  load sections model_paths w = (Ok tt, w') ->
  let name (s : Configuration.t * XYZPoint * Rotation3D) :=
    Configuration.getName s.1.1 in
  exists ps,
    GeometryManager.detectors_ (geo w')
    = GeometryManager.detectors_ (geo w) ++ ps
    /\ Forall2
         (fun s p =>
            detector_store w !! p = None
            /\ detector_store w' !! p = Some (Detector.new (name s) s.1.2 s.2)
            /\ exists type,
                 Configuration.get as_string "type" s.1.1 = Ok type
                 /\ (type, (s.1.1, p)) ∈ pending (geo w'))
         sections ps
    /\ NoDup (List.map name sections)
    /\ Forall (fun s =>
                 name s <> "global"
                 /\ name s ∉ GeometryManager.detector_names_ (geo w))
              sections
    /\ (forall n,
          n ∈ GeometryManager.detector_names_ (geo w')
          <-> n ∈ GeometryManager.detector_names_ (geo w)
              \/ n ∈ List.map name sections)
    /\ GeometryManager.model_paths_ (geo w')
       = GeometryManager.model_paths_ (geo w) ++ model_paths
    /\ model_store w' = model_store w
    /\ GeometryManager.models_ (geo w') = GeometryManager.models_ (geo w)
    /\ GeometryManager.points_ (geo w') = GeometryManager.points_ (geo w).
Proof.
  intros H. cbn zeta. unfold load in H.
  apply bind_Ok in H as ([] & w1 & Hloop & H).
  unfold modify_geo in H. injection H as <-.
  apply load_loop_Ok in Hloop
    as (ps & Hds & Hps & Hnodup & Hnames & Hreg & _ & _ & Hms & Hmodels
        & Hpoints & Hpaths).
  exists ps. cbn [geo detector_store model_store].
  split; [exact Hds|]. split; [exact Hps|]. split; [exact Hnodup|].
  split; [exact Hnames|]. split; [exact Hreg|].
  split; [cbn; now rewrite Hpaths|]. auto.
Qed.

Lemma load_registers_witness :
  exists p1 p2,
    GeometryManager.detectors_ (geo two_loaded) = [p1; p2]
    /\ (exists d, detector_store two_loaded !! p2 = Some d
                  /\ Detector.getName d = "d2"
                  /\ Detector.getModel d = None)
    /\ GeometryManager.model_paths_ (geo two_loaded) = ["models"].
Proof.
  destruct (load (conv := Sample.conv)
              [Sample.plain "d1"; Sample.thick "d2"] ["models"] empty_world)
    as [[[]|e] w'] eqn:E;
    [|vm_compute in E; discriminate E].
  assert (two_loaded = w') as Hw
    by (unfold two_loaded, Sample.loaded; now rewrite E).
  destruct (load_registers Sample.conv _ _ _ _ E)
    as (ps & Hds & Hps & _ & _ & _ & Hpaths & _).
  apply Forall2_cons_inv_l in Hps as (p1 & ps1 & _ & Hps & ->).
  apply Forall2_cons_inv_l in Hps as (p2 & ps2 & (_ & Hd & _) & Hps & ->).
  apply Forall2_nil_inv_l in Hps as ->.
  exists p1, p2. rewrite Hw. split; [exact Hds|]. split.
  - eexists. split; [exact Hd|]. split; reflexivity.
  - exact Hpaths.
Defined.

(** ** The registry of models *)

Lemma bind_any {A B} (c : M A) (f : A -> M B) w r w' :
  (c ≫= f) w = (r, w') ->
  (exists e, c w = (Throw e, w') /\ r = Throw e)
  \/ (exists a w1, c w = (Ok a, w1) /\ f a w1 = (r, w')).
Proof.
  unfold mbind, M_bind. destruct (c w) as [[a|e] w1].
  - right. eauto.
  - intros [= <- <-]. left. eauto.
Qed.

Lemma for_each_any {A} (R : World -> World -> Prop) (body : A -> M unit) :
  (forall w, R w w) ->
  (forall w1 w2 w3, R w1 w2 -> R w2 w3 -> R w1 w3) ->
  (forall a w r w', body a w = (r, w') -> R w w') ->
  forall l w r w', for_each l body w = (r, w') -> R w w'.
Proof.
  intros Hrefl Htrans Hbody.
  induction l as [|a l IH]; intros w r w' H; cbn [for_each] in H.
  - injection H as _ <-. apply Hrefl.
  - apply bind_any in H as [(e & H & _)|([] & w1 & H1 & H)].
    + eapply Hbody, H.
    + eapply Htrans; [eapply Hbody, H1|eapply IH, H].
Qed.

Lemma registry_consistent_empty : registry_consistent empty_world.
Proof.
  split; [|split].
  - intros p Hp. inversion Hp.
  - intros name. cbn. split.
    + intros H. now apply elem_of_empty in H.
    + intros (p & o & Hp & _). inversion Hp.
  - intros i j p q o o' Hi. cbn in Hi. discriminate Hi.
Qed.

(** More objects, the same registry. *)
Lemma registry_consistent_frame w w' :
  model_store w ⊆ model_store w' ->
  GeometryManager.models_ (geo w') = GeometryManager.models_ (geo w) ->
  GeometryManager.model_names_ (geo w') = GeometryManager.model_names_ (geo w) ->
  registry_consistent w -> registry_consistent w'.
Proof.
  intros Hsub Hmodels Hnames (Hstored & Hreg & Huniq).
  assert (forall p o, p ∈ GeometryManager.models_ (geo w) ->
            model_store w' !! p = Some o -> model_store w !! p = Some o)
    as Hback.
  { intros p o Hp Ho. destruct (Hstored p Hp) as [o0 Ho0].
    rewrite (lookup_weaken _ _ _ _ Ho0 Hsub) in Ho. congruence. }
  split; [|split].
  - intros p Hp. rewrite Hmodels in Hp. destruct (Hstored p Hp) as [o Ho].
    exists o. eapply lookup_weaken; eassumption.
  - intros name. rewrite Hnames, Hmodels, Hreg. split.
    + intros (p & o & Hp & Ho & Ht). exists p, o.
      split; [exact Hp|]. split; [|exact Ht].
      eapply lookup_weaken; eassumption.
    + intros (p & o & Hp & Ho & Ht). exists p, o. auto.
  - intros i j p q o o' Hi Hj Ho Ho' Ht. rewrite Hmodels in Hi, Hj.
    eapply Huniq; [exact Hi|exact Hj| | |exact Ht].
    + apply Hback; [eapply list_elem_of_lookup_2, Hi|exact Ho].
    + apply Hback; [eapply list_elem_of_lookup_2, Hj|exact Ho'].
Qed.

Lemma closing_keeps_refl w : closing_keeps w w.
Proof.
  split; [reflexivity|]. split; [exists []; now rewrite List.app_nil_r|].
  repeat (split; [reflexivity|]). auto.
Qed.

Lemma closing_keeps_trans w1 w2 w3 :
  closing_keeps w1 w2 -> closing_keeps w2 w3 -> closing_keeps w1 w3.
Proof.
  intros (S1 & [n1 M1] & C1 & D1 & N1 & P1 & A1 & R1 & O1 & I1)
         (S2 & [n2 M2] & C2 & D2 & N2 & P2 & A2 & R2 & O2 & I2).
  split; [etransitivity; eassumption|].
  split; [exists (n1 ++ n2); rewrite M2, M1; now rewrite List.app_assoc|].
  repeat (split; [congruence|]). auto.
Qed.

(** A step that only makes objects. *)
Lemma closing_keeps_frame w w' :
  model_store w ⊆ model_store w' ->
  dom (detector_store w') = dom (detector_store w) ->
  geo w' = geo w ->
  closing_keeps w w'.
Proof.
  intros Hsub Hdom Hgeo.
  split; [exact Hsub|]. rewrite Hgeo.
  split; [exists []; now rewrite List.app_nil_r|].
  repeat (split; [reflexivity|]). split; [exact Hdom|].
  apply registry_consistent_frame; [exact Hsub|now rewrite Hgeo..].
Qed.

Section registry_steps.
Context {conv : FromString} {derived : DerivedModels} {fs : FileSystem}.

Lemma addModel_inv p w w' :
  addModel (Some p) w = (Ok tt, w') ->
  exists o,
    model_store w !! p = Some o
    /\ GeometryManager.closed_ (geo w) = false
    /\ (ModelObject.getType o ∉ GeometryManager.model_names_ (geo w))
    /\ w' = mkWorld (model_store w) (detector_store w)
              (GeometryManager.set_models
                 (GeometryManager.models_ (geo w) ++ [p])
                 ({[ModelObject.getType o]}
                  ∪ GeometryManager.model_names_ (geo w)) (geo w)).
Proof.
  unfold addModel, mbind, M_bind, get_geo, throw, modify_geo, deref_model.
  destruct (GeometryManager.closed_ (geo w)); [discriminate|].
  destruct (model_store w !! p) as [o|]; [|discriminate].
  case_bool_decide; [discriminate|].
  intros [= <-]. exists o. auto.
Qed.

Lemma addModel_consistent model w r w' :
  registry_consistent w -> addModel model w = (r, w') ->
  registry_consistent w'.
Proof.
  intros Hw H. destruct r as [[]|e];
    [|apply addModel_throws in H; now subst].
  destruct model as [p|].
  2:{ unfold addModel, mbind, M_bind, get_geo, throw in H.
      destruct (GeometryManager.closed_ (geo w)); discriminate H. }
  apply addModel_inv in H as (o & Ho & _ & Hnew & ->).
  destruct Hw as (Hstored & Hreg & Huniq).
  split; [|split]; cbn [geo model_store GeometryManager.models_
                          GeometryManager.model_names_
                          GeometryManager.set_models].
  - intros q [Hq| ->%list_elem_of_singleton]%elem_of_app; [auto|eauto].
  - intros name. rewrite elem_of_union, elem_of_singleton, Hreg. split.
    + intros [->|(q & o' & Hq & Ho' & Ht)].
      * exists p, o. split; [|auto]. apply elem_of_app. right.
        now apply list_elem_of_singleton.
      * exists q, o'. split; [|auto]. apply elem_of_app. now left.
    + intros (q & o' & [Hq| ->%list_elem_of_singleton]%elem_of_app & Ho'
              & Ht).
      * right. eauto.
      * left. congruence.
  - assert (forall i q o',
              GeometryManager.models_ (geo w) !! i = Some q ->
              model_store w !! q = Some o' ->
              ModelObject.getType o' <> ModelObject.getType o) as Hold.
    { intros i q o' Hi Ho' Ht. apply Hnew, Hreg. exists q, o'.
      split; [eapply list_elem_of_lookup_2, Hi|auto]. }
    intros i j q1 q2 o1 o2 Hi Hj Ho1 Ho2 Ht.
    destruct (decide (i < length (GeometryManager.models_ (geo w)))%nat)
      as [Li|Li];
      destruct (decide (j < length (GeometryManager.models_ (geo w)))%nat)
        as [Lj|Lj].
    + rewrite lookup_app_l in Hi, Hj by assumption. eauto.
    + rewrite lookup_app_l in Hi by assumption.
      rewrite lookup_app_r in Hj by lia.
      apply list_lookup_singleton_Some in Hj as [_ <-].
      exfalso. eapply Hold; [exact Hi|exact Ho1|congruence].
    + rewrite lookup_app_l in Hj by assumption.
      rewrite lookup_app_r in Hi by lia.
      apply list_lookup_singleton_Some in Hi as [_ <-].
      exfalso. eapply Hold; [exact Hj|exact Ho2|congruence].
    + rewrite lookup_app_r in Hi, Hj by lia.
      apply list_lookup_singleton_Some in Hi as [Hi _].
      apply list_lookup_singleton_Some in Hj as [Hj _]. lia.
Qed.

Lemma addModel_keeps model w r w' :
  addModel model w = (r, w') -> closing_keeps w w'.
Proof.
  intros H.
  assert (registry_consistent w -> registry_consistent w') as Hinv
    by (intros Hw; eapply addModel_consistent; eassumption).
  destruct r as [[]|e];
    [|apply addModel_throws in H; subst; apply closing_keeps_refl].
  destruct model as [p|].
  2:{ unfold addModel, mbind, M_bind, get_geo, throw in H.
      destruct (GeometryManager.closed_ (geo w)); discriminate H. }
  apply addModel_inv in H as (o & Ho & _ & Hnew & ->).
  split; [reflexivity|]. split; [exists [p]; reflexivity|].
  repeat (split; [reflexivity|]). exact Hinv.
Qed.

Lemma parse_config_keeps name reader w r w' :
  parse_config name reader w = (r, w') -> closing_keeps w w'.
Proof.
  intros H. destruct r as [p|e].
  - apply parse_config_Ok in H as (kind & m & _ & _ & -> & ->).
    apply closing_keeps_frame; [|reflexivity..]. cbn.
    apply insert_subseteq, fresh_model_None.
  - assert (w' = w) as ->; [|apply closing_keeps_refl].
    assert (forall kind, make_model kind name reader w = (Throw e, w') ->
              w' = w) as Hmake.
    { intros kind Hk. unfold make_model in Hk.
      apply bind_any in Hk as [(e1 & Hk & _)|(m & w1 & Hm & Hk)];
        unfold lift in *; [now injection Hk as _ <-|].
      injection Hm as _ <-.
      apply bind_any in Hk as [(e1 & Hk & _)|([] & w1 & Hi & Hk)];
        [now injection Hk as _ <-|].
      unfold alloc_model in Hk. discriminate Hk. }
    unfold parse_config in H.
    apply bind_any in H as [(e1 & H & _)|(type & w1 & Ht & H)];
      unfold lift in *; [now injection H as _ <-|].
    injection Ht as _ <-.
    destruct (String.eqb type "hybrid"); [eapply Hmake, H|].
    destruct (String.eqb type "monolithic"); [eapply Hmake, H|].
    unfold throw in H. now injection H as _ <-.
Qed.

Lemma hasModel_run name w :
  hasModel name w
  = (Ok (bool_decide (name ∈ GeometryManager.model_names_ (geo w))), w).
Proof. reflexivity. Qed.

Lemma needsModel_run name w :
  needsModel name w
  = (Ok (bool_decide
           (is_Some (GeometryManager.nonresolved_models_ (geo w) !! name))),
     w).
Proof. reflexivity. Qed.

Lemma load_model_file_keeps name_reader w r w' :
  load_model_file name_reader w = (r, w') -> closing_keeps w w'.
Proof.
  unfold load_model_file. intros H.
  rewrite (bind_run _ _ _ _ _ (hasModel_run (fst name_reader) w)) in H.
  destruct (bool_decide _);
    [injection H as _ <-; apply closing_keeps_refl|].
  rewrite (bind_run _ _ _ _ _ (needsModel_run (fst name_reader) w)) in H.
  destruct (bool_decide _); cbn [negb] in H;
    [|injection H as _ <-; apply closing_keeps_refl].
  apply bind_any in H as [(e & H & _)|(model & w1 & Hp & H)].
  - eapply parse_config_keeps, H.
  - eapply closing_keeps_trans;
      [eapply parse_config_keeps, Hp|eapply addModel_keeps, H].
Qed.

Lemma load_models_keeps w r w' :
  load_models w = (r, w') -> closing_keeps w w'.
Proof.
  unfold load_models. intros H.
  rewrite (bind_run get_geo _ w (geo w) w eq_refl) in H.
  apply bind_any in H as [(e & H & _)|(readers & w1 & Hr & H)];
    unfold lift in *.
  - injection H as _ <-. apply closing_keeps_refl.
  - injection Hr as _ <-.
    eapply (for_each_any closing_keeps);
      [apply closing_keeps_refl|apply closing_keeps_trans| |exact H].
    intros a w0 r0 w0'. apply load_model_file_keeps.
Qed.

Lemma set_model_keeps det model w r w' :
  set_model det model w = (r, w') -> closing_keeps w w'.
Proof.
  unfold set_model. destruct (detector_store w !! det) as [d|] eqn:E.
  - intros [= _ <-]. apply closing_keeps_frame; [reflexivity| |reflexivity].
    cbn. apply dom_insert_lookup_L. eauto.
  - intros [= _ <-]. apply closing_keeps_refl.
Qed.

Lemma resolve_model_keeps type config_detector w r w' :
  resolve_model type config_detector w = (r, w') -> closing_keeps w w'.
Proof.
  unfold resolve_model. intros H.
  apply bind_any in H as [(e & H & _)|(model & w1 & Hg & H)].
  { pose proof (read_only_getModel type w) as Hro. rewrite H in Hro.
    cbn in Hro. subst. apply closing_keeps_refl. }
  pose proof (read_only_getModel type w) as Hro. rewrite Hg in Hro.
  cbn in Hro. subst w1.
  apply bind_any in H as [(e & H & _)|(o & w1 & Ho & H)].
  { pose proof (read_only_deref_model model w) as Hro. rewrite H in Hro.
    cbn in Hro. subst. apply closing_keeps_refl. }
  pose proof (read_only_deref_model model w) as Hro. rewrite Ho in Hro.
  cbn in Hro. subst w1.
  apply bind_any in H as [(e & H & _)|(model' & w1 & Hm & H)].
  - destruct (negb _); [eapply parse_config_keeps, H|].
    injection H as _ <-. apply closing_keeps_refl.
  - eapply closing_keeps_trans; [|eapply set_model_keeps, H].
    destruct (negb _); [eapply parse_config_keeps, Hm|].
    injection Hm as _ <-. apply closing_keeps_refl.
Qed.

(** Closing up to its last step, which closes. *)
Lemma close_geometry_keeps w r w' :
  close_geometry w = (r, w') ->
  match r with
  | Throw _ => closing_keeps w w'
  | Ok _ =>
      exists w2, closing_keeps w w2
                 /\ w' = mkWorld (model_store w2) (detector_store w2)
                           (GeometryManager.set_closed true (geo w2))
  end.
Proof.
  unfold close_geometry. intros H.
  apply bind_any in H as [(e & H & ->)|([] & w1 & Hload & H)];
    [eapply load_models_keeps, H|].
  apply load_models_keeps in Hload.
  rewrite (bind_run get_geo _ w1 (geo w1) w1 eq_refl) in H.
  assert (forall r w2, for_each
            (std_map_items (GeometryManager.nonresolved_models_ (geo w1)))
            resolve_models w1 = (r, w2) -> closing_keeps w1 w2) as Hloop.
  { intros r0 w2. apply (for_each_any closing_keeps);
      [apply closing_keeps_refl|apply closing_keeps_trans|].
    intros [type cds] wa ra wb. unfold resolve_models. cbn [fst snd].
    apply (for_each_any closing_keeps);
      [apply closing_keeps_refl|apply closing_keeps_trans|].
    intros a wc rc wd. apply resolve_model_keeps. }
  apply bind_any in H as [(e & H & ->)|([] & w2 & Hl & H)].
  - eapply closing_keeps_trans; [exact Hload|eapply Hloop, H].
  - unfold modify_geo in H. injection H as <- <-.
    exists w2. split; [|reflexivity].
    eapply closing_keeps_trans; [exact Hload|eapply Hloop, Hl].
Qed.
End registry_steps.

Section registry_loading.
Context {conv : FromString}.

Lemma addDetector_models detector w r w' :
  addDetector detector w = (r, w') ->
  model_store w' = model_store w
  /\ GeometryManager.models_ (geo w') = GeometryManager.models_ (geo w)
  /\ GeometryManager.model_names_ (geo w')
     = GeometryManager.model_names_ (geo w).
Proof.
  unfold addDetector, mbind, M_bind, get_geo, throw, modify_geo,
    deref_detector.
  destruct (GeometryManager.closed_ (geo w)); [now intros [= _ <-]|].
  destruct detector as [p|]; [|now intros [= _ <-]].
  destruct (detector_store w !! p) as [d|]; [|now intros [= _ <-]].
  destruct (String.eqb _ _); [now intros [= _ <-]|].
  case_bool_decide; now intros [= _ <-].
Qed.

Lemma load_detector_models section w r w' :
  load_detector section w = (r, w') ->
  model_store w' = model_store w
  /\ GeometryManager.models_ (geo w') = GeometryManager.models_ (geo w)
  /\ GeometryManager.model_names_ (geo w')
     = GeometryManager.model_names_ (geo w).
Proof.
  destruct section as [[detector_section position] orientation].
  unfold load_detector. intros H.
  apply bind_any in H as [(e & H & _)|(mode & w1 & Hmode & H)];
    unfold lift in *; [now injection H as _ <-|].
  injection Hmode as _ <-.
  destruct (_ && _)%bool; [unfold throw in H; now injection H as _ <-|].
  apply bind_any in H as [(e & H & _)|(det & wa & Halloc & H)];
    unfold alloc_detector in *; [discriminate H|].
  injection Halloc as <- <-.
  apply bind_any in H as [(e & H & _)|([] & wb & Hadd & H)].
  { apply addDetector_models in H. exact H. }
  apply addDetector_models in Hadd as (Hs & Hm & Hn).
  cbn [model_store geo] in Hs, Hm, Hn.
  apply bind_any in H as [(e & H & _)|(type & wc & Htype & H)];
    unfold lift in *; [injection H as _ <-; auto|].
  injection Htype as _ <-.
  unfold modify_geo in H. injection H as _ <-. cbn. auto.
Qed.

Lemma load_consistent sections model_paths w r w' :
  registry_consistent w -> load sections model_paths w = (r, w') ->
  registry_consistent w'.
Proof.
  intros Hw H.
  assert (forall w r w', for_each sections load_detector w = (r, w') ->
            model_store w' = model_store w
            /\ GeometryManager.models_ (geo w')
               = GeometryManager.models_ (geo w)
            /\ GeometryManager.model_names_ (geo w')
               = GeometryManager.model_names_ (geo w)) as Hloop.
  { apply (for_each_any
             (fun w w' =>
                model_store w' = model_store w
                /\ GeometryManager.models_ (geo w')
                   = GeometryManager.models_ (geo w)
                /\ GeometryManager.model_names_ (geo w')
                   = GeometryManager.model_names_ (geo w))).
    - auto.
    - intros w1 w2 w3 (S1 & M1 & N1) (S2 & M2 & N2). repeat split; congruence.
    - intros a w0 r0 w0'. apply load_detector_models. }
  unfold load in H.
  apply bind_any in H as [(e & H & _)|([] & w1 & Hl & H)].
  - apply Hloop in H as (Hs & Hm & Hn).
    apply (registry_consistent_frame w w'); [now rewrite Hs|assumption..].
  - apply Hloop in Hl as (Hs & Hm & Hn).
    unfold modify_geo in H. injection H as _ <-.
    apply (registry_consistent_frame w); [|exact Hm|exact Hn|exact Hw].
    cbn. now rewrite Hs.
Qed.
End registry_loading.

Section registry_lookup.

(** The search of [getModel] when every model is an object: the first
    model of the type, or none when there is none. *)
Lemma find_model_first name models w :
  (forall p, p ∈ models -> is_Some (model_store w !! p)) ->
  (exists p o,
     find_model name models w = (Ok (Some p), w)
     /\ p ∈ models /\ model_store w !! p = Some o
     /\ ModelObject.getType o = name)
  \/ (find_model name models w = (Ok None, w)
      /\ forall p o, p ∈ models -> model_store w !! p = Some o ->
                     ModelObject.getType o <> name).
Proof.
  induction models as [|model models IH]; intros Hstored; cbn [find_model].
  - right. split; [reflexivity|]. intros p o Hp. inversion Hp.
  - destruct (Hstored model) as [o Ho]; [now left|].
    unfold mbind, M_bind, deref_model. rewrite Ho.
    destruct (String.eqb (ModelObject.getType o) name) eqn:E.
    + left. exists model, o. split; [reflexivity|]. split; [now left|].
      split; [exact Ho|now apply String.eqb_eq].
    + destruct IH as [(p & o' & Hf & Hp & Ho' & Ht)|[Hf Hnone]].
      * intros p Hp. apply Hstored. now right.
      * left. exists p, o'. split; [exact Hf|]. split; [now right|]. auto.
      * right. split; [exact Hf|].
        intros p o' [->|Hp]%elem_of_cons Ho'.
        -- assert (o' = o) as -> by congruence. now apply String.eqb_neq.
        -- eapply Hnone; eassumption.
Qed.
End registry_lookup.

(** X14: the registry of models stays consistent.  In the empty manager,
    and after [load], [addModel], [load_models] and [close_geometry],
    whether they return or throw, every registered model is an object, the
    names that [hasModel] knows are the type names of the registered models,
    and no two registered models have the same type name. *)
Theorem registry_invariant (conv : FromString) (derived : DerivedModels)
    (fs : FileSystem) :
  registry_consistent empty_world
  /\ (forall sections model_paths w r w',
        registry_consistent w -> load sections model_paths w = (r, w') ->
        registry_consistent w')
  /\ (forall model w r w',
        registry_consistent w -> addModel model w = (r, w') ->
        registry_consistent w')
  /\ (forall w r w',
        registry_consistent w -> load_models w = (r, w') ->
        registry_consistent w')
  /\ (forall w r w',
        registry_consistent w -> close_geometry w = (r, w') ->
        registry_consistent w').
Proof.
  split; [exact registry_consistent_empty|].
  split; [intros sections model_paths w r w' Hw H;
          eapply load_consistent; eassumption|].
  split; [intros model w r w' Hw H; eapply addModel_consistent; eassumption|].
  split.
  - intros w r w' Hw H. apply load_models_keeps in H.
    destruct H as (_ & _ & _ & _ & _ & _ & _ & _ & _ & H). auto.
  - intros w r w' Hw H. apply close_geometry_keeps in H.
    destruct r as [[]|e].
    + destruct H as (w2 & (_ & _ & _ & _ & _ & _ & _ & _ & _ & H) & ->).
      eapply (registry_consistent_frame w2); [reflexivity..|auto].
    + destruct H as (_ & _ & _ & _ & _ & _ & _ & _ & _ & H). auto.
Qed.

Lemma registry_invariant_witness : registry_consistent one_closed.
Proof.
  destruct (registry_invariant Sample.conv Sample.derived Sample.fs)
    as (Hempty & Hload & _ & _ & Hclose).
  assert (registry_consistent one_loaded) as Hone.
  { unfold one_loaded, Sample.loaded.
    destruct (load (conv := Sample.conv) [Sample.plain "d1"] ["models"]
                empty_world) as [r w'] eqn:E.
    exact (Hload _ _ _ _ _ Hempty E). }
  unfold one_closed.
  destruct (close_geometry (conv := Sample.conv) (derived := Sample.derived)
              (fs := Sample.fs) one_loaded) as [r w'] eqn:E.
  assert (getDetectors (conv := Sample.conv) (derived := Sample.derived)
            (fs := Sample.fs) one_loaded
          = (Ok (GeometryManager.detectors_ (geo w')), w')) as ->.
  { unfold getDetectors, close_if_open.
    assert (GeometryManager.closed_ (geo one_loaded) = false) as Hopen
      by (vm_compute; reflexivity).
    unfold mbind, M_bind, get_geo. rewrite Hopen. cbn [negb]. rewrite E.
    destruct r as [[]|e]; [reflexivity|vm_compute in E; discriminate E]. }
  exact (Hclose _ _ _ Hone E).
Defined.

(** X15: [hasModel] and [getModel] agree.  In a consistent registry,
    either [hasModel] says yes, and [getModel] returns a registered model of
    that type name, the only registered one of that name; or [hasModel] says
    no, and [getModel] throws [InvalidModelError].  Neither changes the
    state. *)
Theorem hasModel_getModel (w : World) (name : string) :
  registry_consistent w ->
  (hasModel name w = (Ok true, w)
   /\ exists p o,
        getModel name w = (Ok p, w)
        /\ p ∈ GeometryManager.models_ (geo w)
        /\ model_store w !! p = Some o
        /\ ModelObject.getType o = name
        /\ forall q o', q ∈ GeometryManager.models_ (geo w) ->
             model_store w !! q = Some o' ->
             ModelObject.getType o' = name -> q = p)
  \/ (hasModel name w = (Ok false, w)
      /\ getModel name w = (Throw (InvalidModelError name), w)).
Proof.
  intros (Hstored & Hreg & Huniq).
  unfold hasModel, getModel, mbind, M_bind, get_geo.
  destruct (find_model_first name (GeometryManager.models_ (geo w)) w Hstored)
    as [(p & o & Hf & Hp & Ho & Ht)|[Hf Hnone]]; rewrite Hf.
  - left. split.
    + rewrite bool_decide_eq_true_2; [reflexivity|].
      apply Hreg. eauto.
    + exists p, o. repeat (split; [reflexivity || assumption|]).
      intros q o' Hq Ho' Ht'.
      apply list_elem_of_lookup in Hp as [i Hi].
      apply list_elem_of_lookup in Hq as [j Hj].
      assert (j = i) as ->
        by (eapply Huniq; [exact Hj|exact Hi|exact Ho'|exact Ho|congruence]).
      congruence.
  - right. split; [|reflexivity].
    rewrite bool_decide_eq_false_2; [reflexivity|].
    intros (p & o & Hp & Ho & Ht)%Hreg. eapply Hnone; eassumption.
Qed.

Lemma hasModel_getModel_witness :
  hasModel "X" one_closed = (Ok true, one_closed)
  /\ hasModel "Y" one_closed = (Ok false, one_closed)
  /\ getModel "Y" one_closed = (Throw (InvalidModelError "Y"), one_closed).
Proof.
  assert (registry_consistent one_closed) as H.
  { destruct (close_geometry (conv := Sample.conv)
                (derived := Sample.derived) (fs := Sample.fs) one_loaded)
      as [r w'] eqn:E.
    assert (one_closed = w') as ->.
    { unfold one_closed, getDetectors, close_if_open, mbind, M_bind, get_geo.
      assert (GeometryManager.closed_ (geo one_loaded) = false) as ->
        by (vm_compute; reflexivity).
      cbn [negb]. rewrite E.
      destruct r as [[]|e]; reflexivity. }
    apply close_geometry_keeps in E.
    assert (registry_consistent one_loaded) as Hone.
    { unfold one_loaded, Sample.loaded.
      destruct (load (conv := Sample.conv) [Sample.plain "d1"] ["models"]
                  empty_world) as [r0 w0] eqn:E0.
      exact (load_consistent _ _ _ _ _ registry_consistent_empty E0). }
    destruct r as [[]|e].
    - destruct E as (w2 & (_ & _ & _ & _ & _ & _ & _ & _ & _ & E) & ->).
      eapply (registry_consistent_frame w2); [reflexivity..|auto].
    - destruct E as (_ & _ & _ & _ & _ & _ & _ & _ & _ & E). auto. }
  split; [|split].
  - destruct (hasModel_getModel one_closed "X" H) as [[Hh _]|[Hh _]];
      [exact Hh|vm_compute in Hh; discriminate Hh].
  - destruct (hasModel_getModel one_closed "Y" H) as [[Hh _]|[Hh _]];
      [vm_compute in Hh; discriminate Hh|exact Hh].
  - destruct (hasModel_getModel one_closed "Y" H) as [[Hh _]|[_ Hg]];
      [vm_compute in Hh; discriminate Hh|exact Hg].
Defined.

(** X16: closing that fails leaves the geometry as it was registered.  When
    [close_geometry] throws, directly or in [getDetectors], the geometry is
    open or closed as it was, and the detectors, their names, the points,
    the model paths and the pending entries are those from before; the model
    objects are still there, and the models that were loaded before the
    exception are registered after those there were.  When it is
    [getDetectors] that throws, the geometry was open and is still open, so
    that the next accessor closes again. *)
Theorem close_geometry_failure (conv : FromString) (derived : DerivedModels)
    (fs : FileSystem) (w : World) (e : exn) (w' : World) :
  close_geometry w = (Throw e, w') \/ getDetectors w = (Throw e, w') ->
  GeometryManager.closed_ (geo w') = GeometryManager.closed_ (geo w)
  /\ GeometryManager.detectors_ (geo w') = GeometryManager.detectors_ (geo w)
  /\ GeometryManager.detector_names_ (geo w')
     = GeometryManager.detector_names_ (geo w)
  /\ GeometryManager.points_ (geo w') = GeometryManager.points_ (geo w)
  /\ GeometryManager.model_paths_ (geo w')
     = GeometryManager.model_paths_ (geo w)
  /\ GeometryManager.nonresolved_models_ (geo w')
     = GeometryManager.nonresolved_models_ (geo w)
  /\ model_store w ⊆ model_store w'
  /\ (exists new,
        GeometryManager.models_ (geo w')
        = GeometryManager.models_ (geo w) ++ new)
  /\ (getDetectors w = (Throw e, w') ->
      GeometryManager.closed_ (geo w) = false
      /\ GeometryManager.closed_ (geo w') = false).
Proof.
  intros H.
  assert (getDetectors w = (Throw e, w') ->
          GeometryManager.closed_ (geo w) = false
          /\ close_geometry w = (Throw e, w')) as Hget.
  { clear H. unfold getDetectors, close_if_open. intros H.
    apply bind_any in H as [(e' & H & [= <-])|([] & w1 & _ & H)].
    - rewrite (bind_run get_geo _ w (geo w) w eq_refl) in H.
      destruct (GeometryManager.closed_ (geo w)); cbn [negb] in H;
        [discriminate H|]. auto.
    - rewrite (bind_run get_geo _ w1 (geo w1) w1 eq_refl) in H.
      discriminate H. }
  assert (close_geometry w = (Throw e, w')) as Hclose
    by (destruct H as [H|H]; [exact H|apply Hget, H]).
  apply close_geometry_keeps in Hclose
    as (Hs & Hm & Hc & Hd & Hn & Hp & Ha & Hr & _ & _).
  repeat (split; [assumption|]).
  intros Hg. destruct (Hget Hg) as [Hopen _]. split; [exact Hopen|].
  now rewrite Hc.
Qed.

Lemma close_geometry_failure_witness :
  exists e w',
    getDetectors (conv := Sample.conv) (derived := Sample.derived)
      (fs := Sample.fs)
      (Sample.loaded
         [(Sample.detector_section "d1" [("type", "Y")], mkXYZ 0 0 0,
           identity_rotation)])
    = (Throw e, w')
    /\ GeometryManager.closed_ (geo w') = false
    /\ length (GeometryManager.detectors_ (geo w')) = 1%nat.
Proof.
  set (w := Sample.loaded
              [(Sample.detector_section "d1" [("type", "Y")], mkXYZ 0 0 0,
                identity_rotation)]).
  destruct (getDetectors (conv := Sample.conv) (derived := Sample.derived)
              (fs := Sample.fs) w) as [[ds|e] w'] eqn:E;
    [vm_compute in E; discriminate E|].
  exists e, w'. split; [reflexivity|].
  destruct (close_geometry_failure Sample.conv Sample.derived Sample.fs
              w e w' (or_intror E))
    as (_ & Hd & _ & _ & _ & _ & _ & _ & Hopen).
  split; [apply Hopen, E|]. rewrite Hd. reflexivity.
Defined.

(** ** Which models [load_models] registers *)

Section loading_models.
Context {conv : FromString} {derived : DerivedModels} {fs : FileSystem}.

Lemma parse_config_throws name reader w e w' :
  parse_config name reader w = (Throw e, w') -> w' = w.
Proof.
  intros H.
  assert (forall kind, make_model kind name reader w = (Throw e, w') ->
            w' = w) as Hmake.
  { intros kind Hk. unfold make_model in Hk.
    apply bind_any in Hk as [(e1 & Hk & _)|(m & w1 & Hm & Hk)];
      unfold lift in *; [now injection Hk as _ <-|].
    injection Hm as _ <-.
    apply bind_any in Hk as [(e1 & Hk & _)|([] & w1 & Hi & Hk)];
      [now injection Hk as _ <-|].
    unfold alloc_model in Hk. discriminate Hk. }
  unfold parse_config in H.
  apply bind_any in H as [(e1 & H & _)|(type & w1 & Ht & H)];
    unfold lift in *; [now injection H as _ <-|].
  injection Ht as _ <-.
  destruct (String.eqb type "hybrid"); [eapply Hmake, H|].
  destruct (String.eqb type "monolithic"); [eapply Hmake, H|].
  unfold throw in H. now injection H as _ <-.
Qed.

(** The names one model file can add: none, or its own when a detector
    asked for it. *)
Lemma load_model_file_names name_reader w r w' :
  load_model_file name_reader w = (r, w') ->
  GeometryManager.nonresolved_models_ (geo w')
  = GeometryManager.nonresolved_models_ (geo w)
  /\ (forall name,
        name ∈ GeometryManager.model_names_ (geo w) ->
        name ∈ GeometryManager.model_names_ (geo w'))
  /\ (forall name,
        name ∈ GeometryManager.model_names_ (geo w') ->
        name ∈ GeometryManager.model_names_ (geo w)
        \/ (name = fst name_reader
            /\ is_Some (GeometryManager.nonresolved_models_ (geo w)
                        !! name))).
Proof.
  unfold load_model_file. intros H.
  rewrite (bind_run _ _ _ _ _ (hasModel_run (fst name_reader) w)) in H.
  destruct (bool_decide _); [injection H as _ <-; auto|].
  rewrite (bind_run _ _ _ _ _ (needsModel_run (fst name_reader) w)) in H.
  case_bool_decide as Hneeds; cbn [negb] in H; [|injection H as _ <-; auto].
  apply bind_any in H as [(e & H & _)|(model & w1 & Hp & H)].
  { apply parse_config_throws in H. subst. auto. }
  apply parse_config_Ok in Hp as (kind & m & _ & Hnew & -> & ->).
  destruct r as [[]|e]; [|apply addModel_throws in H; subst; cbn; auto].
  apply addModel_inv in H as (o & Ho & _ & _ & ->).
  cbn [model_store] in Ho. rewrite lookup_insert_eq in Ho.
  injection Ho as <-.
  apply new_keeps in Hnew as [Htype _].
  assert (ModelObject.getType (ModelObject.mk kind m) = fst name_reader)
    as -> by exact Htype.
  cbn [geo GeometryManager.nonresolved_models_ GeometryManager.model_names_
       GeometryManager.set_models].
  split; [reflexivity|]. split.
  - intros name Hn. apply elem_of_union. now right.
  - intros name [->%elem_of_singleton|Hn]%elem_of_union; auto.
Qed.

Lemma load_models_names w r w' :
  load_models w = (r, w') ->
  GeometryManager.nonresolved_models_ (geo w')
  = GeometryManager.nonresolved_models_ (geo w)
  /\ (forall name,
        name ∈ GeometryManager.model_names_ (geo w) ->
        name ∈ GeometryManager.model_names_ (geo w'))
  /\ (forall name,
        name ∈ GeometryManager.model_names_ (geo w') ->
        name ∈ GeometryManager.model_names_ (geo w)
        \/ is_Some (GeometryManager.nonresolved_models_ (geo w) !! name)).
Proof.
  unfold load_models. intros H.
  rewrite (bind_run get_geo _ w (geo w) w eq_refl) in H.
  apply bind_any in H as [(e & H & _)|(readers & w1 & Hr & H)];
    unfold lift in *; [injection H as _ <-; auto|].
  injection Hr as _ <-. revert H.
  apply (for_each_any
           (fun w w' =>
              GeometryManager.nonresolved_models_ (geo w')
              = GeometryManager.nonresolved_models_ (geo w)
              /\ (forall name,
                    name ∈ GeometryManager.model_names_ (geo w) ->
                    name ∈ GeometryManager.model_names_ (geo w'))
              /\ (forall name,
                    name ∈ GeometryManager.model_names_ (geo w') ->
                    name ∈ GeometryManager.model_names_ (geo w)
                    \/ is_Some (GeometryManager.nonresolved_models_ (geo w)
                                !! name)))).
  - auto.
  - intros w1 w2 w3 (R1 & U1 & N1) (R2 & U2 & N2).
    split; [congruence|]. split; [auto|].
    intros name Hn. destruct (N2 name Hn) as [H2|H2]; [auto|].
    right. now rewrite <- R1.
  - intros a w0 r0 w0' Hstep.
    apply load_model_file_names in Hstep as (R & U & N).
    split; [exact R|]. split; [exact U|].
    intros name Hn. destruct (N name Hn) as [H1|[_ H1]]; auto.
Qed.
End loading_models.

(** X17: [load_models] registers nothing that no detector asked for.
    Whether it returns or throws, every model name registered afterwards was
    registered before or is a type that a pending detector asks for; the
    names and the models registered before stay registered, the models in
    their places at the front, and the pending entries are untouched. *)
Theorem load_models_needed (conv : FromString) (derived : DerivedModels)
    (fs : FileSystem) (w : World) (r : outcome unit) (w' : World) :
  load_models w = (r, w') ->
  (forall name,
     name ∈ GeometryManager.model_names_ (geo w') ->
     name ∈ GeometryManager.model_names_ (geo w)
     \/ is_Some (GeometryManager.nonresolved_models_ (geo w) !! name))
  /\ (forall name,
        name ∈ GeometryManager.model_names_ (geo w) ->
        name ∈ GeometryManager.model_names_ (geo w'))
  /\ (exists new,
        GeometryManager.models_ (geo w')
        = GeometryManager.models_ (geo w) ++ new)
  /\ GeometryManager.nonresolved_models_ (geo w')
     = GeometryManager.nonresolved_models_ (geo w).
Proof.
  intros H.
  destruct (load_models_names _ _ _ H) as (Hr & Hup & Hnew).
  apply load_models_keeps in H as (_ & Hmodels & _).
  auto.
Qed.

Lemma load_models_needed_witness :
  "X" ∈ GeometryManager.model_names_ (geo one_with_models)
  /\ is_Some (GeometryManager.nonresolved_models_ (geo one_loaded) !! "X").
Proof.
  assert ("X" ∈ GeometryManager.model_names_ (geo one_with_models)) as Hname
    by (vm_compute; reflexivity).
  split; [exact Hname|]. unfold one_with_models in Hname.
  destruct (load_models (conv := Sample.conv) (derived := Sample.derived)
              (fs := Sample.fs) one_loaded) as [r w'] eqn:E.
  destruct (load_models_needed Sample.conv Sample.derived Sample.fs
              one_loaded r w' E) as (Hneeded & _).
  destruct (Hneeded "X" Hname) as [Hold|Hpending]; [|exact Hpending].
  vm_compute in Hold. discriminate Hold.
Defined.

(** ** The accessors of a closed geometry *)

Section closed_accessors.
Context {derived : DerivedModels}.

Lemma detector_type_run det w r w' :
  detector_type det w = (r, w') ->
  w' = w /\ forall e, r = Throw e -> e = NullPointer.
Proof.
  unfold detector_type, model_of, mbind, M_bind, deref_detector, deref_model,
    throw.
  destruct (detector_store w !! det) as [d|];
    [|intros [= <- <-]; split; [reflexivity|congruence]].
  destruct (Detector.getModel d) as [mp|];
    [|intros [= <- <-]; split; [reflexivity|congruence]].
  destruct (model_store w !! mp) as [o|];
    intros [= <- <-]; split; try reflexivity; congruence.
Qed.

Lemma filter_by_type_Ok type ds : forall w r w',
  filter_by_type type ds w = (Ok r, w') ->
  w' = w
  /\ sublist r ds
  /\ forall det,
       det ∈ r <-> det ∈ ds /\ detector_type det w = (Ok type, w).
Proof.
  induction ds as [|d ds IH]; intros w r w' H; cbn [filter_by_type] in H.
  - injection H as <- <-. split; [reflexivity|]. split; [constructor|].
    intros det. split; [intros Hd; inversion Hd|intros [Hd _]; inversion Hd].
  - apply bind_Ok in H as (ty & w1 & Hty & H).
    destruct (detector_type_run _ _ _ _ Hty) as [-> _].
    apply bind_Ok in H as (result & w2 & Hrest & H).
    apply IH in Hrest as (-> & Hsub & Hin).
    injection H as <- <-. split; [reflexivity|].
    destruct (String.eqb ty type) eqn:E.
    + apply String.eqb_eq in E as ->. split; [now constructor|].
      intros det. rewrite !elem_of_cons, Hin. split.
      * intros [->|[Hd Ht]]; auto.
      * intros [[->|Hd] Ht]; auto.
    + apply String.eqb_neq in E. split; [now constructor|].
      intros det. rewrite elem_of_cons, Hin. split.
      * intros [Hd Ht]. auto.
      * intros [[->|Hd] Ht]; [congruence|auto].
Qed.

Lemma filter_by_type_Throw type ds : forall w e w',
  filter_by_type type ds w = (Throw e, w') -> w' = w /\ e = NullPointer.
Proof.
  induction ds as [|d ds IH]; intros w e w' H; cbn [filter_by_type] in H.
  - discriminate H.
  - apply bind_any in H as [(e' & H & [= <-])|(ty & w1 & Hty & H)].
    { destruct (detector_type_run _ _ _ _ H) as [-> He]. auto. }
    destruct (detector_type_run _ _ _ _ Hty) as [-> _].
    apply bind_any in H as [(e' & H & [= <-])|(result & w2 & _ & H)].
    + eapply IH, H.
    + discriminate H.
Qed.

Lemma find_detector_Ok name ds : forall w found w',
  find_detector name ds w = (Ok found, w') ->
  w' = w
  /\ match found with
     | Some det =>
         exists before after d,
           ds = before ++ det :: after
           /\ detector_store w !! det = Some d
           /\ Detector.getName d = name
           /\ forall q dq, q ∈ before -> detector_store w !! q = Some dq ->
                Detector.getName dq <> name
     | None =>
         forall q dq, q ∈ ds -> detector_store w !! q = Some dq ->
           Detector.getName dq <> name
     end.
Proof.
  induction ds as [|det ds IH]; intros w found w' H; cbn [find_detector] in H.
  - injection H as <- <-. split; [reflexivity|].
    intros q dq Hq. inversion Hq.
  - apply bind_Ok in H as (d & w1 & Hd & H). unfold deref_detector in Hd.
    destruct (detector_store w !! det) as [d'|] eqn:E; [|discriminate Hd].
    injection Hd as -> <-.
    destruct (String.eqb (Detector.getName d) name) eqn:En.
    + injection H as <- <-. split; [reflexivity|].
      exists [], ds, d. split; [reflexivity|]. split; [exact E|].
      split; [now apply String.eqb_eq|]. intros q dq Hq. inversion Hq.
    + apply String.eqb_neq in En.
      apply IH in H as [-> H]. split; [reflexivity|].
      destruct found as [p|].
      * destruct H as (before & after & dp & -> & Hp & Hn & Hfirst).
        exists (det :: before), after, dp. split; [reflexivity|].
        split; [exact Hp|]. split; [exact Hn|].
        intros q dq [->|Hq]%elem_of_cons Hdq; [congruence|eauto].
      * intros q dq [->|Hq]%elem_of_cons Hdq; [congruence|eauto].
Qed.

End closed_accessors.

(** X18: [getDetectorsByType] on a closed geometry.  It leaves the state as
    it is.  When it returns, the list is not empty and holds, in the order
    of the detectors of the geometry, exactly the detectors whose model has
    the type name asked for.  When no detector has that type it throws
    [InvalidModelError] with the type name; the only other exception is the
    dereference of a detector without a model. *)
Theorem getDetectorsByType_closed (conv : FromString)
    (derived : DerivedModels) (fs : FileSystem) (type : string)
    (w : World) (r : outcome (list ptr)) (w' : World) :
  GeometryManager.closed_ (geo w) = true ->
  getDetectorsByType type w = (r, w') ->
  w' = w
  /\ match r with
     | Ok ds =>
         ds <> []
         /\ sublist ds (GeometryManager.detectors_ (geo w))
         /\ forall det,
              det ∈ ds
              <-> det ∈ GeometryManager.detectors_ (geo w)
                  /\ detector_type det w = (Ok type, w)
     | Throw e =>
         e = NullPointer
         \/ (e = InvalidModelError type
             /\ forall det, det ∈ GeometryManager.detectors_ (geo w) ->
                  detector_type det w <> (Ok type, w))
     end.
Proof.
  intros Hclosed H. unfold getDetectorsByType in H.
  rewrite (bind_run _ _ _ _ _ (close_if_open_closed w Hclosed)) in H.
  rewrite (bind_run get_geo _ w (geo w) w eq_refl) in H.
  apply bind_any in H as [(e & H & ->)|(result & w1 & Hf & H)].
  { apply filter_by_type_Throw in H as [-> ->]. auto. }
  apply filter_by_type_Ok in Hf as (-> & Hsub & Hin).
  destruct result as [|det result].
  - unfold throw in H. injection H as <- <-. split; [reflexivity|].
    right. split; [reflexivity|].
    intros det Hdet Ht. assert (det ∈ []) as Hnil by (apply Hin; auto).
    inversion Hnil.
  - injection H as <- <-. split; [reflexivity|].
    split; [discriminate|]. auto.
Qed.

Lemma getDetectorsByType_closed_witness :
  getDetectorsByType (conv := Sample.conv) (derived := Sample.derived)
    (fs := Sample.fs) "X" one_closed
  = (Ok (GeometryManager.detectors_ (geo one_closed)), one_closed)
  /\ exists e,
       getDetectorsByType (conv := Sample.conv) (derived := Sample.derived)
         (fs := Sample.fs) "Y" one_closed = (Throw e, one_closed)
       /\ e = InvalidModelError "Y".
Proof.
  assert (GeometryManager.closed_ (geo one_closed) = true) as Hclosed
    by (vm_compute; reflexivity).
  split.
  - vm_compute. reflexivity.
  - destruct (getDetectorsByType (conv := Sample.conv)
                (derived := Sample.derived) (fs := Sample.fs) "Y" one_closed)
      as [[ds|e] w'] eqn:E; [vm_compute in E; discriminate E|].
    destruct (getDetectorsByType_closed Sample.conv Sample.derived Sample.fs
                "Y" one_closed (Throw e) w' Hclosed E) as [-> [->|[-> _]]].
    + vm_compute in E. discriminate E.
    + eexists. split; reflexivity.
Defined.

(** X19: [getDetector] on a closed geometry.  It leaves the state as it
    is.  When it returns, the detector is the first detector of the geometry
    with the name asked for; when no detector has that name it throws
    [InvalidDetectorError] with the name. *)
Theorem getDetector_closed (conv : FromString) (derived : DerivedModels)
    (fs : FileSystem) (name : string) (w : World) (r : outcome ptr)
    (w' : World) :
  GeometryManager.closed_ (geo w) = true ->
  (forall det, det ∈ GeometryManager.detectors_ (geo w) ->
     is_Some (detector_store w !! det)) ->
  getDetector name w = (r, w') ->
  w' = w
  /\ match r with
     | Ok det =>
         exists before after d,
           GeometryManager.detectors_ (geo w) = before ++ det :: after
           /\ detector_store w !! det = Some d
           /\ Detector.getName d = name
           /\ forall q dq, q ∈ before -> detector_store w !! q = Some dq ->
                Detector.getName dq <> name
     | Throw e =>
         e = InvalidDetectorError name
         /\ forall q dq, q ∈ GeometryManager.detectors_ (geo w) ->
              detector_store w !! q = Some dq -> Detector.getName dq <> name
     end.
Proof.
  intros Hclosed Hstored H. unfold getDetector in H.
  rewrite (bind_run _ _ _ _ _ (close_if_open_closed w Hclosed)) in H.
  rewrite (bind_run get_geo _ w (geo w) w eq_refl) in H.
  apply bind_any in H as [(e & H & ->)|(found & w1 & Hf & H)].
  { exfalso. revert Hstored H. clear.
    generalize (GeometryManager.detectors_ (geo w)) as ds.
    induction ds as [|det ds IH]; intros Hstored H; cbn [find_detector] in H;
      [discriminate H|].
    unfold mbind, M_bind, deref_detector in H.
    destruct (Hstored det) as [d Hd]; [now left|]. rewrite Hd in H.
    destruct (String.eqb (Detector.getName d) name); [discriminate H|].
    apply IH; [|exact H]. intros q Hq. apply Hstored. now right. }
  apply find_detector_Ok in Hf as [-> Hf].
  destruct found as [det|].
  - injection H as <- <-. auto.
  - unfold throw in H. injection H as <- <-. auto.
Qed.

Lemma getDetector_closed_witness :
  exists det d,
    getDetector (conv := Sample.conv) (derived := Sample.derived)
      (fs := Sample.fs) "d1" one_closed = (Ok det, one_closed)
    /\ detector_store one_closed !! det = Some d
    /\ Detector.getName d = "d1".
Proof.
  assert (GeometryManager.closed_ (geo one_closed) = true) as Hclosed
    by (vm_compute; reflexivity).
  assert (forall det, det ∈ GeometryManager.detectors_ (geo one_closed) ->
            is_Some (detector_store one_closed !! det)) as Hstored.
  { intros det Hdet. apply list_elem_of_In in Hdet. vm_compute in Hdet.
    destruct Hdet as [<-|[]]. vm_compute. eauto. }
  destruct (getDetector (conv := Sample.conv) (derived := Sample.derived)
              (fs := Sample.fs) "d1" one_closed) as [[det|e] w'] eqn:E;
    [|vm_compute in E; discriminate E].
  destruct (getDetector_closed Sample.conv Sample.derived Sample.fs "d1"
              one_closed (Ok det) w' Hclosed Hstored E)
    as [-> (before & after & d & _ & Hd & Hname & _)].
  exists det, d. auto.
Defined.

(** ** Making a model from a reader *)

(** X20: [parse_config] makes a model object or changes nothing.  It never
    touches the manager or the detectors.  When it returns, the address is
    one that no object had, the object there is the model the constructor
    makes under the name that was passed, which is its type name, and it is
    of the class that the key "type" of the header names: hybrid or
    monolithic; the model is not registered.  When it throws, no object was
    made; a header without the key "type" gives [MissingKeyError], a type
    that is neither "hybrid" nor "monolithic" gives [InvalidValueError]. *)
Theorem parse_config_cases (conv : FromString) (derived : DerivedModels)
    (name : string) (reader : ConfigReader.t) (w : World)
    (r : outcome ptr) (w' : World) :
  parse_config name reader w = (r, w') ->
  let config := ConfigReader.getHeaderConfiguration reader in
  geo w' = geo w
  /\ detector_store w' = detector_store w
  /\ match r with
     | Ok p =>
         model_store w !! p = None
         /\ exists o,
              model_store w' = <[p := o]> (model_store w)
              /\ ModelObject.getType o = name
              /\ DetectorModel.new name reader = Ok (ModelObject.base o)
              /\ ((ModelObject.kind o = Hybrid
                   /\ Configuration.get as_string "type" config = Ok "hybrid")
                  \/ (ModelObject.kind o = Monolithic
                      /\ Configuration.get as_string "type" config
                         = Ok "monolithic"))
     | Throw e =>
         w' = w
         /\ (Configuration.config_ config !! "type" = None ->
             e = MissingKeyError "type")
         /\ (forall type,
               Configuration.get as_string "type" config = Ok type ->
               type <> "hybrid" -> type <> "monolithic" ->
               e = InvalidValueError "type" "model type is not supported")
     end.
Proof.
  intros H. cbn zeta.
  assert (forall kind,
            make_model kind name reader w = (r, w') ->
            geo w' = geo w
            /\ detector_store w' = detector_store w
            /\ match r with
               | Ok p =>
                   model_store w !! p = None
                   /\ exists o,
                        model_store w' = <[p := o]> (model_store w)
                        /\ ModelObject.getType o = name
                        /\ DetectorModel.new name reader
                           = Ok (ModelObject.base o)
                        /\ ModelObject.kind o = kind
               | Throw e => w' = w
               end) as Hmake.
  { intros kind Hk. unfold make_model in Hk.
    apply bind_any in Hk as [(e1 & Hk & ->)|(m & w1 & Hm & Hk)];
      unfold lift in *; [injection Hk as _ <-; auto|].
    injection Hm as Hm <-.
    apply bind_any in Hk as [(e1 & Hk & ->)|([] & w1 & Hi & Hk)];
      [injection Hk as _ <-; auto|].
    injection Hi as _ <-.
    unfold alloc_model in Hk. injection Hk as <- <-. cbn.
    split; [reflexivity|]. split; [reflexivity|].
    split; [apply not_elem_of_dom, is_fresh|].
    eexists. split; [reflexivity|]. cbn.
    split; [apply (new_keeps _ _ _ Hm)|]. auto. }
  unfold parse_config in H.
  apply bind_any in H as [(e1 & H & ->)|(type & w1 & Ht & H)];
    unfold lift in *.
  { injection H as H <-. split; [reflexivity|]. split; [reflexivity|].
    split; [reflexivity|]. split.
    - intros Hnone. unfold Configuration.get in H. rewrite Hnone in H.
      congruence.
    - intros type Htype. congruence. }
  injection Ht as Ht <-.
  destruct (String.eqb type "hybrid") eqn:Eh.
  { apply String.eqb_eq in Eh as ->.
    apply Hmake in H as (Hg & Hd & H). split; [exact Hg|].
    split; [exact Hd|]. destruct r as [p|e].
    - destruct H as (Hp & o & Hs & Hn & Hnew & Hk). split; [exact Hp|].
      exists o. auto 10.
    - split; [exact H|]. split.
      + intros Hnone. unfold Configuration.get in Ht. rewrite Hnone in Ht.
        discriminate Ht.
      + intros type Htype. congruence. }
  destruct (String.eqb type "monolithic") eqn:Em.
  { apply String.eqb_eq in Em as ->.
    apply Hmake in H as (Hg & Hd & H). split; [exact Hg|].
    split; [exact Hd|]. destruct r as [p|e].
    - destruct H as (Hp & o & Hs & Hn & Hnew & Hk). split; [exact Hp|].
      exists o. auto 10.
    - split; [exact H|]. split.
      + intros Hnone. unfold Configuration.get in Ht. rewrite Hnone in Ht.
        discriminate Ht.
      + intros type Htype. congruence. }
  unfold throw in H. injection H as <- <-.
  split; [reflexivity|]. split; [reflexivity|]. split; [reflexivity|].
  split.
  - intros Hnone. unfold Configuration.get in Ht. rewrite Hnone in Ht.
    discriminate Ht.
  - reflexivity.
Qed.

Lemma parse_config_cases_witness :
  exists p o,
    fst (parse_config (conv := Sample.conv) (derived := Sample.derived)
           "X" Sample.X_reader empty_world) = Ok p
    /\ ModelObject.getType o = "X"
    /\ ModelObject.kind o = Hybrid.
Proof.
  destruct (parse_config (conv := Sample.conv) (derived := Sample.derived)
              "X" Sample.X_reader empty_world) as [[p|e] w'] eqn:E;
    [|vm_compute in E; discriminate E].
  destruct (parse_config_cases Sample.conv Sample.derived "X"
              Sample.X_reader empty_world (Ok p) w' E)
    as (_ & _ & _ & o & _ & Hname & _ & [[Hk _]|[_ Ht]]).
  - exists p, o. auto.
  - vm_compute in Ht. discriminate Ht.
Defined.
